(** * mcp-helpscout: the Docs and Inbox API clients and their tool handlers

    A shallow embedding of [src/docs-client.ts], [src/inbox-client.ts] and
    the handler layer of [src/index.ts].

    - JavaScript values are modelled at the types the TypeScript source
      declares: [string] for strings, [Z] for the integral numbers the code
      handles (page numbers, identifiers, HTTP statuses, seconds and epoch
      milliseconds), [option] for optional parameters and [T | null] fields.
    - An object used as a record ([Record<string, string>]) is an association
      list in insertion order, which is the order [Object.entries] yields.
    - A path is the text the code builds, identifiers spliced in unescaped;
      [new URL] reads the query out of it as the platform does.
    - [async] methods run in a state-and-exception monad: the state holds the
      network (scripted responses and the log of issued requests), the clock
      read by [Date.now()] and, for the Inbox client, the mutable fields of
      [this].  A thrown error keeps the state reached so far, as in
      JavaScript. *)

From Stdlib Require Import String Ascii List ZArith Lia Bool DecimalString.
Import ListNotations.
Open Scope string_scope.
Open Scope Z_scope.
Set Warnings "-register-all".

(* ================================================================== *)
(** ** JavaScript values and built-ins                                  *)
(* ================================================================== *)

Module Js.

(** [String(n)] for an integral number: its decimal text.  JavaScript
    numbers are doubles: this is what [String] gives for every safe integer
    ([Number.isSafeInteger], a magnitude below [2^53]); beyond that range a
    double is rounded and, from [1e21] on, printed with an exponent, which
    this definition does not follow.  Statements about the text of a number
    that a caller chooses are made for safe integers. *)
Definition String_of_number (n : Z) : string :=
  NilZero.string_of_int (Z.to_int n).

(** [Number.isSafeInteger(n)] *)
Definition safe_integer (n : Z) : Prop := - 2 ^ 53 < n < 2 ^ 53.

(** Truthiness of a string: every string but [''] is truthy. *)
Definition truthy_string (s : string) : bool := negb (s =? "")%string.

(** Truthiness of a number: every integral number but [0] is truthy. *)
Definition truthy_number (n : Z) : bool := negb (n =? 0).

(** Truthiness of [T | undefined] (or [T | null]). *)
Definition truthy_opt {A : Type} (t : A -> bool) (o : option A) : bool :=
  match o with
  | Some a => t a
  | None => false
  end.

(** [p?.f] for an optional parameter object [p]. *)
Definition opt_field {P A : Type} (p : option P) (f : P -> option A) : option A :=
  match p with
  | Some o => f o
  | None => None
  end.

(** The opaque structured value of JSON documents. *)
Inductive json : Type :=
| JNull
| JBool (b : bool)
| JNumber (n : Z)
| JString (s : string)
| JArray (items : list json)
| JObject (fields : list (string * json)).

(** An object literal / record: keys in insertion order. *)
Definition object (V : Type) : Type := list (string * V).

(** Property assignment [o[k] = v]: overwrite in place, or add at the end. *)
Fixpoint obj_set {V : Type} (k : string) (v : V) (o : object V) : object V :=
  match o with
  | [] => [(k, v)]
  | (k', v') :: rest =>
      if (k' =? k)%string then (k, v) :: rest else (k', v') :: obj_set k v rest
  end.

(** What a slot typed [string] can hold at run time; the request loops test
    for all three. *)
Inductive qvalue : Type :=
| QUndefined
| QNull
| QString (s : string).

(** [value !== undefined && value !== null && value !== ''] *)
Definition usable (v : qvalue) : option string :=
  match v with
  | QUndefined => None
  | QNull => None
  | QString s => if (s =? "")%string then None else Some s
  end.

(** A [Record<string, string>] as the methods build it. *)
Definition query : Type := object qvalue.

(** [if (v) q.name = String(v)], the way the methods add a number. *)
Definition set_number (name : string) (v : option Z) (q : query) : query :=
  if truthy_opt truthy_number v
  then match v with
       | Some n => obj_set name (QString (String_of_number n)) q
       | None => q
       end
  else q.

(** [if (v) q.name = v], the way the methods add a string. *)
Definition set_string (name : string) (v : option string) (q : query) : query :=
  if truthy_opt truthy_string v
  then match v with
       | Some s => obj_set name (QString s) q
       | None => q
       end
  else q.

(** Thrown values.  [Error] is what the clients raise themselves,
    [SyntaxError] what [JSON.parse] / [response.json()] raise, [TypeError]
    what a rejected [fetch] raises. *)
Inductive exn : Type :=
| Error (message : string)
| SyntaxError (message : string)
| TypeError (message : string).

Definition message_of (e : exn) : string :=
  match e with
  | Error m => m
  | SyntaxError m => m
  | TypeError m => m
  end.

(** The text before the first [c]. *)
Fixpoint before (c : ascii) (s : string) : string :=
  match s with
  | EmptyString => EmptyString
  | String x s' => if (x =? c)%char then EmptyString else String x (before c s')
  end.

(** The text after the first [c], when there is one. *)
Fixpoint after (c : ascii) (s : string) : option string :=
  match s with
  | EmptyString => None
  | String x s' => if (x =? c)%char then Some s' else after c s'
  end.

(** The pieces of a text between the occurrences of [c]. *)
Fixpoint split_on (c : ascii) (s : string) : list string :=
  match s with
  | EmptyString => [EmptyString]
  | String x s' =>
      if (x =? c)%char then EmptyString :: split_on c s'
      else match split_on c s' with
           | piece :: pieces => String x piece :: pieces
           | [] => [String x EmptyString]
           end
  end.

(** The entries of a query string: its non-empty pieces between [&], each
    cut at its first [=]. *)
Definition parse_query (q : string) : list (string * string) :=
  map (fun piece =>
         (before "="%char piece,
          match after "="%char piece with
          | Some v => v
          | None => EmptyString
          end))
      (filter (fun piece => negb (piece =? "")%string) (split_on "&"%char q)).

(** A [URL] object: the text handed to the constructor, and the entries of
    [url.searchParams]. *)
Record URL : Type := mkURL {
  href : string;
  searchParams : list (string * string)
}.

(** [new URL(text)]: the constructor reads the part of the text between
    the first [?] and the first [#] as the query, so a query that is
    already part of the text (such as [?reload=true], or one carried by an
    identifier spliced into the path) is in [searchParams] from the start.
    [href] keeps the text as written.  The rest of WHATWG parsing is not
    modelled: the normalisation of the path (dot segments, white space
    stripped or escaped, back-slashes), percent-decoding of the entries and
    their serialisation back into the string.  Statements about the address
    of a request are therefore made for identifiers that this leaves alone,
    those made of letters, digits, [-] and [_]. *)
Definition new_URL (text : string) : URL :=
  mkURL text
    match after "?"%char (before "#"%char text) with
    | Some q => parse_query q
    | None => []
    end.

(** The address of a URL: its text up to the query and the fragment. *)
Definition address (u : URL) : string :=
  before "?"%char (before "#"%char (href u)).

(** [url.searchParams.set(k, v)]: the first entry named [k] takes the value
    and later ones are dropped; without one the pair is appended. *)
Fixpoint params_set (k v : string) (l : list (string * string))
  : list (string * string) :=
  match l with
  | [] => [(k, v)]
  | (k', v') :: rest =>
      if (k' =? k)%string
      then (k, v) :: filter (fun e => negb (fst e =? k)%string) rest
      else (k', v') :: params_set k v rest
  end.

Definition searchParams_set (k v : string) (u : URL) : URL :=
  mkURL (href u) (params_set k v (searchParams u)).

(** The argument of [fetch]. *)
Record Request : Type := mkRequest {
  url : URL;
  method : string;
  headers : object string;
  body : option string
}.

(** What the code reads of a [Response]. *)
Record Response : Type := mkResponse {
  status : Z;
  content_length : option string;   (* headers.get('content-length') *)
  text : string                     (* await response.text() *)
}.

(** [response.ok]: the status is in the range 200-299. *)
Definition ok (r : Response) : bool := (200 <=? status r) && (status r <=? 299).

(** The outcome the network has in store for a [fetch]. *)
Inductive outcome : Type :=
| Responds (r : Response)
| Rejects (reason : string).

(** The world outside the process: the clock ([clock i] is the value of the
    [i]-th [Date.now()]), the outcomes of the fetches still to come, and the
    requests issued so far, oldest first. *)
Record World : Type := mkWorld {
  clock : nat -> Z;
  ticks : nat;
  pending : list outcome;
  log : list Request
}.

(** The [access_token] response, at the type the source casts it to.  The
    cast is not checked at run time: a 2xx answer that is JSON of another
    shape is outside this type, and the statements about the token cache
    speak of answers of this shape. *)
Record TokenData : Type := mkTokenData {
  access_token : string;
  expires_in : Z
}.

(** Library functions the source calls and does not define.  [inl] is the
    message of the [SyntaxError] raised on text that is not JSON.
    [response_json] is [response.json()] at the type of the cast in
    [getAccessToken]. *)
Class Platform : Type := {
  JSON_parse : string -> string + json;
  JSON_stringify : json -> string;
  JSON_stringify_indent : json -> string;     (* JSON.stringify(v, null, 2) *)
  base64 : string -> string;                  (* Buffer.from(s).toString('base64') *)
  response_json : string -> string + TokenData
}.

(** *** The monad of [async] code *)

Definition M (S A : Type) : Type := S -> (exn + A) * S.

Definition ret {S A : Type} (a : A) : M S A := fun s => (inr a, s).

Definition throw {S A : Type} (e : exn) : M S A := fun s => (inl e, s).

Definition bind {S A B : Type} (m : M S A) (k : A -> M S B) : M S B :=
  fun s =>
    match m s with
    | (inr a, s') => k a s'
    | (inl e, s') => (inl e, s')
    end.

(** [try { m } catch (e) { h e }] *)
Definition try_catch {S A : Type} (m : M S A) (h : exn -> M S A) : M S A :=
  fun s =>
    match m s with
    | (inr a, s') => (inr a, s')
    | (inl e, s') => h e s'
    end.

Definition gets {S A : Type} (f : S -> A) : M S A := fun s => (inr (f s), s).

Definition modify {S : Type} (f : S -> S) : M S unit := fun s => (inr tt, f s).

(** [Date.now()] *)
Definition Date_now : M World Z :=
  fun w =>
    (inr (clock w (ticks w)),
     mkWorld (clock w) (S (ticks w)) (pending w) (log w)).

(** [await fetch(url, options)]: the request goes out, the next outcome
    comes back.  A network with nothing in store rejects. *)
Definition fetch (r : Request) : M World Response :=
  fun w =>
    let w' := mkWorld (clock w) (ticks w) (tl (pending w)) (log w ++ [r]) in
    match pending w with
    | Responds resp :: _ => (inr resp, w')
    | Rejects reason :: _ => (inl (TypeError reason), w')
    | [] => (inl (TypeError "fetch failed"), w')
    end.

End Js.

Export Js.

Declare Scope js_scope.
Delimit Scope js_scope with js.
Notation "x <- c ;; k" := (bind c (fun x => k))
  (at level 61, c at next level, right associativity) : js_scope.
Notation "c ;;; k" := (bind c (fun _ => k))
  (at level 61, right associativity) : js_scope.
Open Scope js_scope.

(* ================================================================== *)
(** ** Docs API client ([docs-client.ts])                               *)
(* ================================================================== *)

Module DocsClient.

Definition BASE_URL : string := "https://docsapi.helpscout.net/v1".

Record t : Type := new { apiKey : string }.

Section Client.
Context `{Platform}.

Definition getAuthHeader (self : t) : string :=
  "Basic " ++ base64 (apiKey self ++ ":X").

(** Lines 893-900: the URL, with the usable query parameters set. *)
Definition request_url (path : string) (queryParams : option (object qvalue)) : URL :=
  let url := new_URL (BASE_URL ++ path) in
  match queryParams with
  | Some qp =>
      fold_left
        (fun u kv =>
           match usable (snd kv) with
           | Some value => searchParams_set (fst kv) value u
           | None => u
           end)
        qp url
  | None => url
  end.

(** Lines 902-912: headers and options. *)
Definition request_options (self : t) (method : string)
    (body : option (object json)) (u : URL) : Request :=
  let headers := [("Authorization", getAuthHeader self);
                  ("Accept", "application/json")] in
  match body with
  | Some b =>
      if (method =? "POST")%string || (method =? "PUT")%string
      then mkRequest u method
             (obj_set "Content-Type" "application/json" headers)
             (Some (JSON_stringify (JObject b)))
      else mkRequest u method headers None
  | None => mkRequest u method headers None
  end.

(** Lines 916-929: from the response to the result. *)
Definition request_result (response : Response) : M World json :=
  if negb (ok response) then
    throw (Error ("Help Scout Docs API error "
                  ++ String_of_number (status response) ++ ": "
                  ++ text response))
  else if (status response =? 204)
          || match content_length response with
             | Some l => (l =? "0")%string
             | None => false
             end
  then ret (JObject [])
  else if negb (truthy_string (text response)) then ret (JObject [])
  else match JSON_parse (text response) with
       | inr v => ret v
       | inl m => throw (SyntaxError m)
       end.

Definition request (self : t) (method path : string)
    (body : option (object json)) (queryParams : option (object qvalue))
  : M World json :=
  let url := request_url path queryParams in
  response <- fetch (request_options self method body url) ;;
  request_result response.

(** A [Record<string, string>] as the methods build it. *)
(** *** Sites *)

Definition listSites (self : t) (page : option Z) : M World json :=
  let page := match page with Some p => p | None => 1 end in
  request self "GET" "/sites" None
    (Some [("page", QString (String_of_number page))]).

Definition getSite (self : t) (siteId : string) : M World json :=
  request self "GET" ("/sites/" ++ siteId) None None.

Definition createSite (self : t) (data : object json) : M World json :=
  request self "POST" "/sites?reload=true" (Some data) None.

Definition updateSite (self : t) (siteId : string) (data : object json)
  : M World json :=
  request self "PUT" ("/sites/" ++ siteId ++ "?reload=true") (Some data) None.

Definition deleteSite (self : t) (siteId : string) : M World json :=
  request self "DELETE" ("/sites/" ++ siteId) None None.

(** *** Collections *)

Record ListCollectionsParams : Type := {
  lc_page : option Z;
  lc_siteId : option string;
  lc_visibility : option string;
  lc_sort : option string;
  lc_order : option string
}.

Definition listCollections (self : t) (params : option ListCollectionsParams)
  : M World json :=
  let query : query := [] in
  let query := set_number "page" (opt_field params lc_page) query in
  let query := set_string "siteId" (opt_field params lc_siteId) query in
  let query := set_string "visibility" (opt_field params lc_visibility) query in
  let query := set_string "sort" (opt_field params lc_sort) query in
  let query := set_string "order" (opt_field params lc_order) query in
  request self "GET" "/collections" None (Some query).

Definition getCollection (self : t) (collectionId : string) : M World json :=
  request self "GET" ("/collections/" ++ collectionId) None None.

Definition createCollection (self : t) (data : object json) : M World json :=
  request self "POST" "/collections?reload=true" (Some data) None.

Definition updateCollection (self : t) (collectionId : string)
    (data : object json) : M World json :=
  request self "PUT" ("/collections/" ++ collectionId ++ "?reload=true")
    (Some data) None.

Definition deleteCollection (self : t) (collectionId : string) : M World json :=
  request self "DELETE" ("/collections/" ++ collectionId) None None.

(** *** Categories *)

Record ListCategoriesParams : Type := {
  lg_page : option Z;
  lg_sort : option string;
  lg_order : option string
}.

Definition listCategories (self : t) (collectionId : string)
    (params : option ListCategoriesParams) : M World json :=
  let query : query := [] in
  let query := set_number "page" (opt_field params lg_page) query in
  let query := set_string "sort" (opt_field params lg_sort) query in
  let query := set_string "order" (opt_field params lg_order) query in
  request self "GET" ("/collections/" ++ collectionId ++ "/categories")
    None (Some query).

Definition getCategory (self : t) (categoryId : string) : M World json :=
  request self "GET" ("/categories/" ++ categoryId) None None.

Definition createCategory (self : t) (data : object json) : M World json :=
  request self "POST" "/categories?reload=true" (Some data) None.

Definition updateCategory (self : t) (categoryId : string)
    (data : object json) : M World json :=
  request self "PUT" ("/categories/" ++ categoryId ++ "?reload=true")
    (Some data) None.

(** An element of the [categories] array: [{ id, order }]. *)
Definition category_order (c : string * Z) : json :=
  JObject [("id", JString (fst c)); ("order", JNumber (snd c))].

Definition updateCategoryOrder (self : t) (collectionId : string)
    (categories : list (string * Z)) : M World json :=
  request self "PUT" ("/collections/" ++ collectionId ++ "/categories")
    (Some [("categories", JArray (map category_order categories))]) None.

Definition deleteCategory (self : t) (categoryId : string) : M World json :=
  request self "DELETE" ("/categories/" ++ categoryId) None None.

(** *** Articles *)

Inductive ParentType : Type := collection | category.

Record ListArticlesParams : Type := {
  la_page : option Z;
  la_status : option string;
  la_sort : option string;
  la_order : option string;
  la_pageSize : option Z
}.

Definition listArticles (self : t) (parentId : string) (parentType : ParentType)
    (params : option ListArticlesParams) : M World json :=
  let basePath :=
    match parentType with
    | collection => "/collections/" ++ parentId ++ "/articles"
    | category => "/categories/" ++ parentId ++ "/articles"
    end in
  let query : query := [] in
  let query := set_number "page" (opt_field params la_page) query in
  let query := set_string "status" (opt_field params la_status) query in
  let query := set_string "sort" (opt_field params la_sort) query in
  let query := set_string "order" (opt_field params la_order) query in
  let query := set_number "pageSize" (opt_field params la_pageSize) query in
  request self "GET" basePath None (Some query).

Record SearchArticlesParams : Type := {
  sa_query : string;
  sa_collectionId : option string;
  sa_siteId : option string;
  sa_status : option string;
  sa_visibility : option string;
  sa_page : option Z
}.

Definition searchArticles (self : t) (params : SearchArticlesParams)
  : M World json :=
  let queryParams : query := [("query", QString (sa_query params))] in
  let queryParams := set_string "collectionId" (sa_collectionId params) queryParams in
  let queryParams := set_string "siteId" (sa_siteId params) queryParams in
  let queryParams := set_string "status" (sa_status params) queryParams in
  let queryParams := set_string "visibility" (sa_visibility params) queryParams in
  let queryParams := set_number "page" (sa_page params) queryParams in
  request self "GET" "/search/articles" None (Some queryParams).

Definition getArticle (self : t) (articleIdOrNumber : string)
    (draft : option bool) : M World json :=
  let draft := match draft with Some d => d | None => false end in
  let query : query := [] in
  let query := if draft then obj_set "draft" (QString "true") query else query in
  request self "GET" ("/articles/" ++ articleIdOrNumber) None (Some query).

Definition createArticle (self : t) (data : object json) : M World json :=
  request self "POST" "/articles?reload=true" (Some data) None.

Definition updateArticle (self : t) (articleId : string) (data : object json)
  : M World json :=
  request self "PUT" ("/articles/" ++ articleId ++ "?reload=true")
    (Some data) None.

Definition deleteArticle (self : t) (articleId : string) : M World json :=
  request self "DELETE" ("/articles/" ++ articleId) None None.

(** The [{ page?: number }] parameter object. *)
Record PageParams : Type := { pp_page : option Z }.

Definition listRelatedArticles (self : t) (articleId : string)
    (params : option PageParams) : M World json :=
  let query : query := [] in
  let query := set_number "page" (opt_field params pp_page) query in
  request self "GET" ("/articles/" ++ articleId ++ "/related") None (Some query).

Definition listRevisions (self : t) (articleId : string)
    (params : option PageParams) : M World json :=
  let query : query := [] in
  let query := set_number "page" (opt_field params pp_page) query in
  request self "GET" ("/articles/" ++ articleId ++ "/revisions") None (Some query).

Definition getRevision (self : t) (revisionId : string) : M World json :=
  request self "GET" ("/revisions/" ++ revisionId) None None.

Definition saveArticleDraft (self : t) (articleId text : string) : M World json :=
  request self "PUT" ("/articles/" ++ articleId ++ "/drafts")
    (Some [("text", JString text)]) None.

Definition deleteArticleDraft (self : t) (articleId : string) : M World json :=
  request self "DELETE" ("/articles/" ++ articleId ++ "/drafts") None None.

Definition updateViewCount (self : t) (articleId : string) (count : Z)
  : M World json :=
  request self "PUT" ("/articles/" ++ articleId ++ "/views")
    (Some [("count", JNumber count)]) None.

(** *** Redirects *)

Definition listRedirects (self : t) (siteId : string)
    (params : option PageParams) : M World json :=
  let query : query := [] in
  let query := set_number "page" (opt_field params pp_page) query in
  request self "GET" ("/redirects/site/" ++ siteId) None (Some query).

Definition getRedirect (self : t) (redirectId : string) : M World json :=
  request self "GET" ("/redirects/" ++ redirectId) None None.

Definition findRedirect (self : t) (siteId url : string) : M World json :=
  request self "GET" ("/redirects/site/" ++ siteId) None
    (Some [("url", QString url)]).

Definition createRedirect (self : t) (data : object json) : M World json :=
  request self "POST" "/redirects?reload=true" (Some data) None.

Definition updateRedirect (self : t) (redirectId : string) (data : object json)
  : M World json :=
  request self "PUT" ("/redirects/" ++ redirectId ++ "?reload=true")
    (Some data) None.

Definition deleteRedirect (self : t) (redirectId : string) : M World json :=
  request self "DELETE" ("/redirects/" ++ redirectId) None None.

(** *** The operations of the client, as data *)

Inductive op : Type :=
| ListSites (page : option Z)
| GetSite (siteId : string)
| CreateSite (data : object json)
| UpdateSite (siteId : string) (data : object json)
| DeleteSite (siteId : string)
| ListCollections (params : option ListCollectionsParams)
| GetCollection (collectionId : string)
| CreateCollection (data : object json)
| UpdateCollection (collectionId : string) (data : object json)
| DeleteCollection (collectionId : string)
| ListCategories (collectionId : string) (params : option ListCategoriesParams)
| GetCategory (categoryId : string)
| CreateCategory (data : object json)
| UpdateCategory (categoryId : string) (data : object json)
| UpdateCategoryOrder (collectionId : string) (categories : list (string * Z))
| DeleteCategory (categoryId : string)
| ListArticles (parentId : string) (parentType : ParentType)
    (params : option ListArticlesParams)
| SearchArticles (params : SearchArticlesParams)
| GetArticle (articleIdOrNumber : string) (draft : option bool)
| CreateArticle (data : object json)
| UpdateArticle (articleId : string) (data : object json)
| DeleteArticle (articleId : string)
| ListRelatedArticles (articleId : string) (params : option PageParams)
| ListRevisions (articleId : string) (params : option PageParams)
| GetRevision (revisionId : string)
| SaveArticleDraft (articleId text : string)
| DeleteArticleDraft (articleId : string)
| UpdateViewCount (articleId : string) (count : Z)
| ListRedirects (siteId : string) (params : option PageParams)
| GetRedirect (redirectId : string)
| FindRedirect (siteId url : string)
| CreateRedirect (data : object json)
| UpdateRedirect (redirectId : string) (data : object json)
| DeleteRedirect (redirectId : string).

Definition call (self : t) (o : op) : M World json :=
  match o with
  | ListSites page => listSites self page
  | GetSite siteId => getSite self siteId
  | CreateSite data => createSite self data
  | UpdateSite siteId data => updateSite self siteId data
  | DeleteSite siteId => deleteSite self siteId
  | ListCollections params => listCollections self params
  | GetCollection collectionId => getCollection self collectionId
  | CreateCollection data => createCollection self data
  | UpdateCollection collectionId data => updateCollection self collectionId data
  | DeleteCollection collectionId => deleteCollection self collectionId
  | ListCategories collectionId params => listCategories self collectionId params
  | GetCategory categoryId => getCategory self categoryId
  | CreateCategory data => createCategory self data
  | UpdateCategory categoryId data => updateCategory self categoryId data
  | UpdateCategoryOrder collectionId categories =>
      updateCategoryOrder self collectionId categories
  | DeleteCategory categoryId => deleteCategory self categoryId
  | ListArticles parentId parentType params =>
      listArticles self parentId parentType params
  | SearchArticles params => searchArticles self params
  | GetArticle articleIdOrNumber draft => getArticle self articleIdOrNumber draft
  | CreateArticle data => createArticle self data
  | UpdateArticle articleId data => updateArticle self articleId data
  | DeleteArticle articleId => deleteArticle self articleId
  | ListRelatedArticles articleId params => listRelatedArticles self articleId params
  | ListRevisions articleId params => listRevisions self articleId params
  | GetRevision revisionId => getRevision self revisionId
  | SaveArticleDraft articleId text => saveArticleDraft self articleId text
  | DeleteArticleDraft articleId => deleteArticleDraft self articleId
  | UpdateViewCount articleId count => updateViewCount self articleId count
  | ListRedirects siteId params => listRedirects self siteId params
  | GetRedirect redirectId => getRedirect self redirectId
  | FindRedirect siteId url => findRedirect self siteId url
  | CreateRedirect data => createRedirect self data
  | UpdateRedirect redirectId data => updateRedirect self redirectId data
  | DeleteRedirect redirectId => deleteRedirect self redirectId
  end.

End Client.

End DocsClient.

(* ================================================================== *)
(** ** Inbox API client ([inbox-client.ts])                             *)
(* ================================================================== *)

Module InboxClient.

Definition BASE_URL : string := "https://api.helpscout.net/v2".
Definition TOKEN_URL : string := "https://api.helpscout.net/v2/oauth2/token".

(** The fields of an [InboxClient]. *)
Record t : Type := mk {
  appId : string;
  appSecret : string;
  accessToken : option string;
  tokenExpiry : Z
}.

(** The constructor: no token, expiry [0]. *)
Definition new (appId appSecret : string) : t := mk appId appSecret None 0.

(** A method runs on [this] and the world. *)
Record State : Type := mkState {
  this : t;
  world : World
}.

(** An effect on the world alone. *)
Definition lift {A : Type} (m : M World A) : M State A :=
  fun s =>
    match m (world s) with
    | (r, w) => (r, mkState (this s) w)
    end.

Definition set_accessToken (v : option string) : M State unit :=
  modify (fun s =>
    mkState (mk (appId (this s)) (appSecret (this s)) v (tokenExpiry (this s)))
            (world s)).

Definition set_tokenExpiry (v : Z) : M State unit :=
  modify (fun s =>
    mkState (mk (appId (this s)) (appSecret (this s)) (accessToken (this s)) v)
            (world s)).

Section Client.
Context `{Platform}.

(** The token-exchange request of lines 28-36. *)
Definition token_request (self : t) : Request :=
  mkRequest (new_URL TOKEN_URL) "POST"
    [("Content-Type", "application/json")]
    (Some (JSON_stringify
             (JObject [("grant_type", JString "client_credentials");
                       ("client_id", JString (appId self));
                       ("client_secret", JString (appSecret self))]))).

(** [this.accessToken && Date.now() < this.tokenExpiry]: the clock is read
    only when a truthy token is held. *)
Definition token_is_fresh : M State bool :=
  self <- gets this ;;
  if truthy_opt truthy_string (accessToken self)
  then now <- lift Date_now ;; ret (now <? tokenExpiry self)
  else ret false.

(** Lines 28-50: the token exchange, and what it stores.  The answer is
    read at the type of the cast ([TokenData]). *)
Definition exchange_token : M State string :=
  self <- gets this ;;
  response <- lift (fetch (token_request self)) ;;
  if negb (ok response) then
    throw (Error ("Help Scout OAuth error "
                  ++ String_of_number (status response) ++ ": "
                  ++ text response))
  else
    match response_json (text response) with
    | inl m => throw (SyntaxError m)
    | inr data =>
        set_accessToken (Some (access_token data)) ;;;
        now <- lift Date_now ;;
        (* Refresh 60s before expiry *)
        set_tokenExpiry (now + (expires_in data - 60) * 1000) ;;;
        (* this.accessToken, assigned above *)
        ret (access_token data)
    end.

Definition getAccessToken : M State string :=
  fresh <- token_is_fresh ;;
  self <- gets this ;;
  match fresh, accessToken self with
  | true, Some token => ret token
  | _, _ => exchange_token
  end.

(** Lines 60-68: the URL, with the usable query parameters set. *)
Definition request_url (path : string) (queryParams : option (object qvalue)) : URL :=
  let url := new_URL (BASE_URL ++ path) in
  match queryParams with
  | Some qp =>
      fold_left
        (fun u kv =>
           match usable (snd kv) with
           | Some value => searchParams_set (fst kv) value u
           | None => u
           end)
        qp url
  | None => url
  end.

(** Lines 70-80: headers and options. *)
Definition request_options (token method : string)
    (body : option (object json)) (u : URL) : Request :=
  let headers := [("Authorization", "Bearer " ++ token);
                  ("Accept", "application/json")] in
  match body with
  | Some b =>
      if (method =? "POST")%string || (method =? "PUT")%string
         || (method =? "PATCH")%string
      then mkRequest u method
             (obj_set "Content-Type" "application/json" headers)
             (Some (JSON_stringify (JObject b)))
      else mkRequest u method headers None
  | None => mkRequest u method headers None
  end.

(** Lines 84-96: from the response to the result. *)
Definition request_result (response : Response) : M State json :=
  if negb (ok response) then
    throw (Error ("Help Scout Inbox API error "
                  ++ String_of_number (status response) ++ ": "
                  ++ text response))
  else if (status response =? 204)
          || match content_length response with
             | Some l => (l =? "0")%string
             | None => false
             end
  then ret (JObject [])
  else if negb (truthy_string (text response)) then ret (JObject [])
  else match JSON_parse (text response) with
       | inr v => ret v
       | inl m => throw (SyntaxError m)
       end.

Definition request (method path : string)
    (body : option (object json)) (queryParams : option (object qvalue))
  : M State json :=
  token <- getAccessToken ;;
  let url := request_url path queryParams in
  response <- lift (fetch (request_options token method body url)) ;;
  request_result response.

(** *** Conversations *)

Record ListConversationsParams : Type := {
  cv_mailbox : option Z;
  cv_status : option string;
  cv_tag : option string;
  cv_assigned_to : option Z;
  cv_modifiedSince : option string;
  cv_sortField : option string;
  cv_sortOrder : option string;
  cv_page : option Z;
  cv_query : option string
}.

Definition listConversations (params : option ListConversationsParams)
  : M State json :=
  let queryParams : query := [] in
  let queryParams := set_number "mailbox" (opt_field params cv_mailbox) queryParams in
  let queryParams := set_string "status" (opt_field params cv_status) queryParams in
  let queryParams := set_string "tag" (opt_field params cv_tag) queryParams in
  let queryParams := set_number "assigned_to" (opt_field params cv_assigned_to) queryParams in
  let queryParams := set_string "modifiedSince" (opt_field params cv_modifiedSince) queryParams in
  let queryParams := set_string "sortField" (opt_field params cv_sortField) queryParams in
  let queryParams := set_string "sortOrder" (opt_field params cv_sortOrder) queryParams in
  let queryParams := set_number "page" (opt_field params cv_page) queryParams in
  let queryParams := set_string "query" (opt_field params cv_query) queryParams in
  request "GET" "/conversations" None (Some queryParams).

Definition getConversation (conversationId : Z) (embed : option string)
  : M State json :=
  let queryParams : query := [] in
  let queryParams := set_string "embed" embed queryParams in
  request "GET" ("/conversations/" ++ String_of_number conversationId)
    None (Some queryParams).

Definition createConversation (data : object json) : M State json :=
  request "POST" "/conversations" (Some data) None.

Definition updateConversation (conversationId : Z) (op path : string)
    (value : json) : M State json :=
  request "PATCH" ("/conversations/" ++ String_of_number conversationId)
    (Some [("op", JString op); ("path", JString path); ("value", value)]) None.

Definition deleteConversation (conversationId : Z) : M State json :=
  request "DELETE" ("/conversations/" ++ String_of_number conversationId)
    None None.

(** *** Threads *)

Definition listThreads (conversationId : Z) : M State json :=
  request "GET"
    ("/conversations/" ++ String_of_number conversationId ++ "/threads")
    None None.

Definition createReplyThread (conversationId : Z) (data : object json)
  : M State json :=
  request "POST"
    ("/conversations/" ++ String_of_number conversationId ++ "/reply")
    (Some data) None.

Definition createNoteThread (conversationId : Z) (data : object json)
  : M State json :=
  request "POST"
    ("/conversations/" ++ String_of_number conversationId ++ "/notes")
    (Some data) None.

Definition createPhoneThread (conversationId : Z) (data : object json)
  : M State json :=
  request "POST"
    ("/conversations/" ++ String_of_number conversationId ++ "/phones")
    (Some data) None.

(** *** Customers *)

Record ListCustomersParams : Type := {
  cu_firstName : option string;
  cu_lastName : option string;
  cu_email : option string;
  cu_modifiedSince : option string;
  cu_sortField : option string;
  cu_sortOrder : option string;
  cu_page : option Z;
  cu_query : option string
}.

Definition listCustomers (params : option ListCustomersParams) : M State json :=
  let queryParams : query := [] in
  let queryParams := set_string "firstName" (opt_field params cu_firstName) queryParams in
  let queryParams := set_string "lastName" (opt_field params cu_lastName) queryParams in
  let queryParams := set_string "email" (opt_field params cu_email) queryParams in
  let queryParams := set_string "modifiedSince" (opt_field params cu_modifiedSince) queryParams in
  let queryParams := set_string "sortField" (opt_field params cu_sortField) queryParams in
  let queryParams := set_string "sortOrder" (opt_field params cu_sortOrder) queryParams in
  let queryParams := set_number "page" (opt_field params cu_page) queryParams in
  let queryParams := set_string "query" (opt_field params cu_query) queryParams in
  request "GET" "/customers" None (Some queryParams).

Definition getCustomer (customerId : Z) : M State json :=
  request "GET" ("/customers/" ++ String_of_number customerId) None None.

Definition createCustomer (data : object json) : M State json :=
  request "POST" "/customers" (Some data) None.

Definition updateCustomer (customerId : Z) (data : object json) : M State json :=
  request "PUT" ("/customers/" ++ String_of_number customerId) (Some data) None.

(** *** Mailboxes, users, tags *)

Definition listMailboxes (page : option Z) : M State json :=
  let queryParams : query := [] in
  let queryParams := set_number "page" page queryParams in
  request "GET" "/mailboxes" None (Some queryParams).

Definition getMailbox (mailboxId : Z) : M State json :=
  request "GET" ("/mailboxes/" ++ String_of_number mailboxId) None None.

Definition listUsers (page : option Z) : M State json :=
  let queryParams : query := [] in
  let queryParams := set_number "page" page queryParams in
  request "GET" "/users" None (Some queryParams).

Definition getUser (userId : Z) : M State json :=
  request "GET" ("/users/" ++ String_of_number userId) None None.

Definition getResourceOwner : M State json :=
  request "GET" "/users/me" None None.

Definition listTags (page : option Z) : M State json :=
  let queryParams : query := [] in
  let queryParams := set_number "page" page queryParams in
  request "GET" "/tags" None (Some queryParams).

(** *** The operations of the client, as data *)

Inductive op : Type :=
| ListConversations (params : option ListConversationsParams)
| GetConversation (conversationId : Z) (embed : option string)
| CreateConversation (data : object json)
| UpdateConversation (conversationId : Z) (op path : string) (value : json)
| DeleteConversation (conversationId : Z)
| ListThreads (conversationId : Z)
| CreateReplyThread (conversationId : Z) (data : object json)
| CreateNoteThread (conversationId : Z) (data : object json)
| CreatePhoneThread (conversationId : Z) (data : object json)
| ListCustomers (params : option ListCustomersParams)
| GetCustomer (customerId : Z)
| CreateCustomer (data : object json)
| UpdateCustomer (customerId : Z) (data : object json)
| ListMailboxes (page : option Z)
| GetMailbox (mailboxId : Z)
| ListUsers (page : option Z)
| GetUser (userId : Z)
| GetResourceOwner
| ListTags (page : option Z).

Definition call (o : op) : M State json :=
  match o with
  | ListConversations params => listConversations params
  | GetConversation conversationId embed => getConversation conversationId embed
  | CreateConversation data => createConversation data
  | UpdateConversation conversationId op path value =>
      updateConversation conversationId op path value
  | DeleteConversation conversationId => deleteConversation conversationId
  | ListThreads conversationId => listThreads conversationId
  | CreateReplyThread conversationId data => createReplyThread conversationId data
  | CreateNoteThread conversationId data => createNoteThread conversationId data
  | CreatePhoneThread conversationId data => createPhoneThread conversationId data
  | ListCustomers params => listCustomers params
  | GetCustomer customerId => getCustomer customerId
  | CreateCustomer data => createCustomer data
  | UpdateCustomer customerId data => updateCustomer customerId data
  | ListMailboxes page => listMailboxes page
  | GetMailbox mailboxId => getMailbox mailboxId
  | ListUsers page => listUsers page
  | GetUser userId => getUser userId
  | GetResourceOwner => getResourceOwner
  | ListTags page => listTags page
  end.

End Client.

End InboxClient.

(* ================================================================== *)
(** ** The tool handlers ([index.ts])                                   *)
(* ================================================================== *)

Module Server.

(** [process.env]: a variable is a string or [undefined]. *)
Record Env : Type := mkEnv {
  HELPSCOUT_API_KEY : option string;
  HELPSCOUT_APP_ID : option string;
  HELPSCOUT_APP_SECRET : option string
}.

(** An element of [content]. *)
Record ContentItem : Type := mkItem {
  item_type : string;
  item_text : string
}.

(** The envelope a handler returns; [textResult] leaves [isError] out. *)
Record Result : Type := mkResult {
  content : list ContentItem;
  isError : option bool
}.

(** The state of the running server: the two module-level clients and the
    world.  [docs] never changes; the object behind [inbox] does. *)
Record Process : Type := mkProcess {
  docs : option DocsClient.t;
  inbox : option InboxClient.t;
  net : World
}.

(** Lines 44-49. *)
Definition start (env : Env) (w : World) : Process :=
  let apiKey := HELPSCOUT_API_KEY env in
  let appId := HELPSCOUT_APP_ID env in
  let appSecret := HELPSCOUT_APP_SECRET env in
  mkProcess
    (match apiKey with
     | Some k => if truthy_string k then Some (DocsClient.new k) else None
     | None => None
     end)
    (match appId, appSecret with
     | Some i, Some s =>
         if truthy_string i && truthy_string s
         then Some (InboxClient.new i s) else None
     | _, _ => None
     end)
    w.

Section Handlers.
Context `{Platform}.

Definition fmt (data : json) : string := JSON_stringify_indent data.

Definition textResult (data : json) : Result :=
  mkResult [mkItem "text" (fmt data)] None.

(** [errResult(error)]: the argument is a caught error or a string. *)
Definition errResult (error : exn + string) : Result :=
  let message :=
    match error with
    | inl e => message_of e
    | inr s => s
    end in
  mkResult [mkItem "text" ("Error: " ++ message)] (Some true).

(** A Docs method run by the server. *)
Definition with_docs {A : Type} (m : M World A) : M Process A :=
  fun p =>
    match m (net p) with
    | (r, w) => (r, mkProcess (docs p) (inbox p) w)
    end.

(** An Inbox method run by the server on the client object [c]. *)
Definition with_inbox {A : Type} (c : InboxClient.t) (m : M InboxClient.State A)
  : M Process A :=
  fun p =>
    match m (InboxClient.mkState c (net p)) with
    | (r, s) =>
        (r, mkProcess (docs p) (Some (InboxClient.this s)) (InboxClient.world s))
    end.

(** The body shared by the [docs_*] handlers:
    [if (!docs) return errResult(...); try { ... } catch (e) { return errResult(e); }] *)
Definition docs_handler (body : DocsClient.t -> M World Result) : M Process Result :=
  d <- gets docs ;;
  match d with
  | None => ret (errResult (inr "HELPSCOUT_API_KEY not configured"))
  | Some client =>
      try_catch (with_docs (body client)) (fun e => ret (errResult (inl e)))
  end.

(** The body shared by the [inbox_*] handlers. *)
Definition inbox_handler (body : M InboxClient.State Result) : M Process Result :=
  i <- gets inbox ;;
  match i with
  | None =>
      ret (errResult
             (inr "HELPSCOUT_APP_ID and HELPSCOUT_APP_SECRET not configured"))
  | Some client =>
      try_catch (with_inbox client body) (fun e => ret (errResult (inl e)))
  end.

(** [return textResult(await m)] *)
Definition returning {S : Type} (m : M S json) : M S Result :=
  v <- m ;; ret (textResult v).

(** [await m; return textResult({ success: true, message })] *)
Definition confirming {S : Type} (m : M S json) (message : string) : M S Result :=
  m ;;; ret (textResult (JObject [("success", JBool true);
                                  ("message", JString message)])).

(** A tool invocation: the registered tool with its validated arguments. *)
Inductive Tool : Type :=
| docs_list_sites (page : option Z)
| docs_get_site (siteId : string)
| docs_create_site (params : object json)
| docs_update_site (siteId : string) (data : object json)
| docs_delete_site (siteId : string)
| docs_list_collections (params : DocsClient.ListCollectionsParams)
| docs_get_collection (collectionId : string)
| docs_create_collection (params : object json)
| docs_update_collection (collectionId : string) (data : object json)
| docs_delete_collection (collectionId : string)
| docs_list_categories (collectionId : string)
    (params : DocsClient.ListCategoriesParams)
| docs_get_category (categoryId : string)
| docs_create_category (params : object json)
| docs_update_category (categoryId : string) (data : object json)
| docs_update_category_order (collectionId : string)
    (categories : list (string * Z))
| docs_delete_category (categoryId : string)
| docs_list_articles (parentId : string) (parentType : DocsClient.ParentType)
    (params : DocsClient.ListArticlesParams)
| docs_search_articles (params : DocsClient.SearchArticlesParams)
| docs_get_article (articleIdOrNumber : string) (draft : option bool)
| docs_create_article (params : object json)
| docs_update_article (articleId : string) (data : object json)
| docs_delete_article (articleId : string)
| docs_list_related_articles (articleId : string) (page : option Z)
| docs_list_revisions (articleId : string) (page : option Z)
| docs_get_revision (revisionId : string)
| docs_save_draft (articleId text : string)
| docs_delete_draft (articleId : string)
| docs_list_redirects (siteId : string) (page : option Z)
| docs_get_redirect (redirectId : string)
| docs_create_redirect (params : object json)
| docs_update_redirect (redirectId : string) (data : object json)
| docs_delete_redirect (redirectId : string)
| inbox_list_conversations (params : InboxClient.ListConversationsParams)
| inbox_get_conversation (conversationId : Z) (embed : option string)
| inbox_create_conversation (params : object json)
| inbox_delete_conversation (conversationId : Z)
| inbox_list_threads (conversationId : Z)
| inbox_create_reply (conversationId : Z) (data : object json)
| inbox_create_note (conversationId : Z) (text : string)
| inbox_list_customers (params : InboxClient.ListCustomersParams)
| inbox_get_customer (customerId : Z)
| inbox_create_customer (params : object json)
| inbox_list_mailboxes (page : option Z)
| inbox_get_mailbox (mailboxId : Z)
| inbox_list_users (page : option Z)
| inbox_get_user (userId : Z)
| inbox_get_me
| inbox_list_tags (page : option Z).

(** The name each tool is registered under. *)
Definition name (tool : Tool) : string :=
  match tool with
  | docs_list_sites _ => "docs_list_sites"
  | docs_get_site _ => "docs_get_site"
  | docs_create_site _ => "docs_create_site"
  | docs_update_site _ _ => "docs_update_site"
  | docs_delete_site _ => "docs_delete_site"
  | docs_list_collections _ => "docs_list_collections"
  | docs_get_collection _ => "docs_get_collection"
  | docs_create_collection _ => "docs_create_collection"
  | docs_update_collection _ _ => "docs_update_collection"
  | docs_delete_collection _ => "docs_delete_collection"
  | docs_list_categories _ _ => "docs_list_categories"
  | docs_get_category _ => "docs_get_category"
  | docs_create_category _ => "docs_create_category"
  | docs_update_category _ _ => "docs_update_category"
  | docs_update_category_order _ _ => "docs_update_category_order"
  | docs_delete_category _ => "docs_delete_category"
  | docs_list_articles _ _ _ => "docs_list_articles"
  | docs_search_articles _ => "docs_search_articles"
  | docs_get_article _ _ => "docs_get_article"
  | docs_create_article _ => "docs_create_article"
  | docs_update_article _ _ => "docs_update_article"
  | docs_delete_article _ => "docs_delete_article"
  | docs_list_related_articles _ _ => "docs_list_related_articles"
  | docs_list_revisions _ _ => "docs_list_revisions"
  | docs_get_revision _ => "docs_get_revision"
  | docs_save_draft _ _ => "docs_save_draft"
  | docs_delete_draft _ => "docs_delete_draft"
  | docs_list_redirects _ _ => "docs_list_redirects"
  | docs_get_redirect _ => "docs_get_redirect"
  | docs_create_redirect _ => "docs_create_redirect"
  | docs_update_redirect _ _ => "docs_update_redirect"
  | docs_delete_redirect _ => "docs_delete_redirect"
  | inbox_list_conversations _ => "inbox_list_conversations"
  | inbox_get_conversation _ _ => "inbox_get_conversation"
  | inbox_create_conversation _ => "inbox_create_conversation"
  | inbox_delete_conversation _ => "inbox_delete_conversation"
  | inbox_list_threads _ => "inbox_list_threads"
  | inbox_create_reply _ _ => "inbox_create_reply"
  | inbox_create_note _ _ => "inbox_create_note"
  | inbox_list_customers _ => "inbox_list_customers"
  | inbox_get_customer _ => "inbox_get_customer"
  | inbox_create_customer _ => "inbox_create_customer"
  | inbox_list_mailboxes _ => "inbox_list_mailboxes"
  | inbox_get_mailbox _ => "inbox_get_mailbox"
  | inbox_list_users _ => "inbox_list_users"
  | inbox_get_user _ => "inbox_get_user"
  | inbox_get_me => "inbox_get_me"
  | inbox_list_tags _ => "inbox_list_tags"
  end.

Import DocsClient InboxClient.

(** The handler registered for each tool. *)
Definition handler (tool : Tool) : M Process Result :=
  match tool with
  | docs_list_sites page =>
      docs_handler (fun docs => returning (listSites docs page))
  | docs_get_site siteId =>
      docs_handler (fun docs => returning (getSite docs siteId))
  | docs_create_site params =>
      docs_handler (fun docs => returning (createSite docs params))
  | docs_update_site siteId data =>
      docs_handler (fun docs => returning (updateSite docs siteId data))
  | docs_delete_site siteId =>
      docs_handler (fun docs =>
        confirming (deleteSite docs siteId) ("Site " ++ siteId ++ " deleted"))
  | docs_list_collections params =>
      docs_handler (fun docs => returning (listCollections docs (Some params)))
  | docs_get_collection collectionId =>
      docs_handler (fun docs => returning (getCollection docs collectionId))
  | docs_create_collection params =>
      docs_handler (fun docs => returning (createCollection docs params))
  | docs_update_collection collectionId data =>
      docs_handler (fun docs => returning (updateCollection docs collectionId data))
  | docs_delete_collection collectionId =>
      docs_handler (fun docs =>
        confirming (deleteCollection docs collectionId)
          ("Collection " ++ collectionId ++ " deleted"))
  | docs_list_categories collectionId params =>
      docs_handler (fun docs =>
        returning (listCategories docs collectionId (Some params)))
  | docs_get_category categoryId =>
      docs_handler (fun docs => returning (getCategory docs categoryId))
  | docs_create_category params =>
      docs_handler (fun docs => returning (createCategory docs params))
  | docs_update_category categoryId data =>
      docs_handler (fun docs => returning (updateCategory docs categoryId data))
  | docs_update_category_order collectionId categories =>
      docs_handler (fun docs =>
        returning (updateCategoryOrder docs collectionId categories))
  | docs_delete_category categoryId =>
      docs_handler (fun docs =>
        confirming (deleteCategory docs categoryId)
          ("Category " ++ categoryId ++ " deleted"))
  | docs_list_articles parentId parentType params =>
      docs_handler (fun docs =>
        returning (listArticles docs parentId parentType (Some params)))
  | docs_search_articles params =>
      docs_handler (fun docs => returning (searchArticles docs params))
  | docs_get_article articleIdOrNumber draft =>
      docs_handler (fun docs => returning (getArticle docs articleIdOrNumber draft))
  | docs_create_article params =>
      docs_handler (fun docs => returning (createArticle docs params))
  | docs_update_article articleId data =>
      docs_handler (fun docs => returning (updateArticle docs articleId data))
  | docs_delete_article articleId =>
      docs_handler (fun docs =>
        confirming (deleteArticle docs articleId)
          ("Article " ++ articleId ++ " deleted"))
  | docs_list_related_articles articleId page =>
      docs_handler (fun docs =>
        returning (listRelatedArticles docs articleId
                     (Some {| pp_page := page |})))
  | docs_list_revisions articleId page =>
      docs_handler (fun docs =>
        returning (listRevisions docs articleId (Some {| pp_page := page |})))
  | docs_get_revision revisionId =>
      docs_handler (fun docs => returning (getRevision docs revisionId))
  | docs_save_draft articleId text =>
      docs_handler (fun docs =>
        confirming (saveArticleDraft docs articleId text)
          ("Draft saved for article " ++ articleId))
  | docs_delete_draft articleId =>
      docs_handler (fun docs =>
        confirming (deleteArticleDraft docs articleId)
          ("Draft deleted for article " ++ articleId))
  | docs_list_redirects siteId page =>
      docs_handler (fun docs =>
        returning (listRedirects docs siteId (Some {| pp_page := page |})))
  | docs_get_redirect redirectId =>
      docs_handler (fun docs => returning (getRedirect docs redirectId))
  | docs_create_redirect params =>
      docs_handler (fun docs => returning (createRedirect docs params))
  | docs_update_redirect redirectId data =>
      docs_handler (fun docs => returning (updateRedirect docs redirectId data))
  | docs_delete_redirect redirectId =>
      docs_handler (fun docs =>
        confirming (deleteRedirect docs redirectId)
          ("Redirect " ++ redirectId ++ " deleted"))
  | inbox_list_conversations params =>
      inbox_handler (returning (listConversations (Some params)))
  | inbox_get_conversation conversationId embed =>
      inbox_handler (returning (getConversation conversationId embed))
  | inbox_create_conversation params =>
      inbox_handler (returning (createConversation params))
  | inbox_delete_conversation conversationId =>
      inbox_handler
        (confirming (deleteConversation conversationId)
           ("Conversation " ++ String_of_number conversationId ++ " deleted"))
  | inbox_list_threads conversationId =>
      inbox_handler (returning (listThreads conversationId))
  | inbox_create_reply conversationId data =>
      inbox_handler (returning (createReplyThread conversationId data))
  | inbox_create_note conversationId text =>
      inbox_handler
        (returning (createNoteThread conversationId [("text", JString text)]))
  | inbox_list_customers params =>
      inbox_handler (returning (listCustomers (Some params)))
  | inbox_get_customer customerId =>
      inbox_handler (returning (getCustomer customerId))
  | inbox_create_customer params =>
      inbox_handler (returning (createCustomer params))
  | inbox_list_mailboxes page =>
      inbox_handler (returning (listMailboxes page))
  | inbox_get_mailbox mailboxId =>
      inbox_handler (returning (getMailbox mailboxId))
  | inbox_list_users page =>
      inbox_handler (returning (listUsers page))
  | inbox_get_user userId =>
      inbox_handler (returning (getUser userId))
  | inbox_get_me =>
      inbox_handler (returning getResourceOwner)
  | inbox_list_tags page =>
      inbox_handler (returning (listTags page))
  end.

(** The server answering a sequence of invocations, one after the other.
    An error escaping a handler would end the run with [inl]. *)
Fixpoint serve (tools : list Tool) : M Process (list Result) :=
  match tools with
  | [] => ret []
  | tool :: rest =>
      r <- handler tool ;;
      rs <- serve rest ;;
      ret (r :: rs)
  end.

(** Lines 846-860: [main] once the transport is connected - the lines it
    writes to the error console.  Connecting the transport is the SDK's
    business and is not modelled. *)
Definition main (p : Process) : list string :=
  let capabilities : list string := [] in
  let capabilities :=
    match docs p with
    | Some _ => (capabilities ++ ["Docs API"])%list
    | None => capabilities
    end in
  let capabilities :=
    match inbox p with
    | Some _ => (capabilities ++ ["Inbox API"])%list
    | None => capabilities
    end in
  if (length capabilities =? 0)%nat
  then ["Warning: No Help Scout credentials configured. Set HELPSCOUT_API_KEY for Docs API and/or HELPSCOUT_APP_ID + HELPSCOUT_APP_SECRET for Inbox API."]
  else [].

End Handlers.

End Server.

(* ================================================================== *)
(** ** Observations                                                     *)
(* ================================================================== *)

(** The requests issued between two states of the world. *)
Definition issued (before after : World) : list Request :=
  skipn (length (log before)) (log after).

(** [s.endsWith(suffix)] *)
Fixpoint endsWith (s suffix : string) : bool :=
  (s =? suffix)%string
  || match s with
     | EmptyString => false
     | String _ s' => endsWith s' suffix
     end.

(** [s.includes(needle)] *)
Fixpoint includes (s needle : string) : bool :=
  prefix needle s
  || match s with
     | EmptyString => false
     | String _ s' => includes s' needle
     end.

(** The character [c] occurs in [s]. *)
Fixpoint occurs (c : ascii) (s : string) : bool :=
  match s with
  | EmptyString => false
  | String c' s' => (c' =? c)%char || occurs c s'
  end.

(** The names of the query parameters a request carries. *)
Definition param_names (r : Request) : list string :=
  map fst (searchParams (url r)).

(** A request is a token exchange when it goes to the token endpoint. *)
Definition is_token_exchange (r : Request) : bool :=
  (href (url r) =? InboxClient.TOKEN_URL)%string.

Definition token_exchanges (l : list Request) : nat :=
  length (filter is_token_exchange l).

(** The clock never runs backwards. *)
Definition monotone (w : World) : Prop :=
  forall i j : nat, (i <= j)%nat -> clock w i <= clock w j.

(** *** Plain identifiers *)

(** A letter, a digit, [-] or [_]. *)
Definition plain_char (c : ascii) : bool :=
  let n := nat_of_ascii c in
  ((48 <=? n) && (n <=? 57) || (65 <=? n) && (n <=? 90)
   || (97 <=? n) && (n <=? 122) || (n =? 45) || (n =? 95))%nat.

(** An identifier that the URL parser takes as one path segment and leaves
    as written. *)
Fixpoint plain (s : string) : bool :=
  match s with
  | EmptyString => true
  | String c s' => plain_char c && plain s'
  end.

(** *** Classifying the Docs operations *)

(** The operations that create or update one of the five resources: a site,
    a collection, a category, an article or a redirect. *)
Definition resource_write (o : DocsClient.op) : bool :=
  match o with
  | DocsClient.CreateSite _ | DocsClient.UpdateSite _ _
  | DocsClient.CreateCollection _ | DocsClient.UpdateCollection _ _
  | DocsClient.CreateCategory _ | DocsClient.UpdateCategory _ _
  | DocsClient.CreateArticle _ | DocsClient.UpdateArticle _ _
  | DocsClient.CreateRedirect _ | DocsClient.UpdateRedirect _ _ => true
  | _ => false
  end.

(** The identifier an operation splices into its path, if it has one. *)
Definition path_id (o : DocsClient.op) : string :=
  match o with
  | DocsClient.GetSite i | DocsClient.UpdateSite i _ | DocsClient.DeleteSite i
  | DocsClient.GetCollection i | DocsClient.UpdateCollection i _
  | DocsClient.DeleteCollection i | DocsClient.ListCategories i _
  | DocsClient.GetCategory i | DocsClient.UpdateCategory i _
  | DocsClient.UpdateCategoryOrder i _ | DocsClient.DeleteCategory i
  | DocsClient.ListArticles i _ _ | DocsClient.GetArticle i _
  | DocsClient.UpdateArticle i _ | DocsClient.DeleteArticle i
  | DocsClient.ListRelatedArticles i _ | DocsClient.ListRevisions i _
  | DocsClient.GetRevision i | DocsClient.SaveArticleDraft i _
  | DocsClient.DeleteArticleDraft i | DocsClient.UpdateViewCount i _
  | DocsClient.ListRedirects i _ | DocsClient.GetRedirect i
  | DocsClient.FindRedirect i _ | DocsClient.UpdateRedirect i _
  | DocsClient.DeleteRedirect i => i
  | _ => ""
  end.

(** *** The token cache *)

(** The state after the freshness test: one more clock reading when a
    truthy token is held. *)
Definition after_check (s : InboxClient.State) : InboxClient.State :=
  if truthy_opt truthy_string (InboxClient.accessToken (InboxClient.this s))
  then InboxClient.mkState (InboxClient.this s)
         (mkWorld (clock (InboxClient.world s))
                  (S (ticks (InboxClient.world s)))
                  (pending (InboxClient.world s)) (log (InboxClient.world s)))
  else s.

(** The verdict of the freshness test. *)
Definition fresh (s : InboxClient.State) : bool :=
  truthy_opt truthy_string (InboxClient.accessToken (InboxClient.this s))
  && (clock (InboxClient.world s) (ticks (InboxClient.world s))
      <? InboxClient.tokenExpiry (InboxClient.this s)).

(** *** Credentials *)

(** An environment variable counts as configured when it is set to a
    non-empty string, which is when the start-up code finds it truthy. *)
Definition configured (v : option string) : bool :=
  truthy_opt truthy_string v.

(** The credentials a tool needs are missing: the Docs key for a [docs_*]
    tool, the OAuth app id or secret for an [inbox_*] tool. *)
Definition lacks_credentials (env : Server.Env) (tool : Server.Tool) : bool :=
  if prefix "docs_" (Server.name tool)
  then negb (configured (Server.HELPSCOUT_API_KEY env))
  else negb (configured (Server.HELPSCOUT_APP_ID env)
             && configured (Server.HELPSCOUT_APP_SECRET env)).

(** *** Optional numbers *)

(** The optional numeric parameters of a Docs operation, by the name under
    which the operation sends them. *)
Definition docs_numbers (o : DocsClient.op) : list (string * option Z) :=
  match o with
  | DocsClient.ListSites page => [("page", page)]
  | DocsClient.ListCollections params =>
      [("page", opt_field params DocsClient.lc_page)]
  | DocsClient.ListCategories _ params =>
      [("page", opt_field params DocsClient.lg_page)]
  | DocsClient.ListArticles _ _ params =>
      [("page", opt_field params DocsClient.la_page);
       ("pageSize", opt_field params DocsClient.la_pageSize)]
  | DocsClient.SearchArticles params => [("page", DocsClient.sa_page params)]
  | DocsClient.ListRelatedArticles _ params
  | DocsClient.ListRevisions _ params
  | DocsClient.ListRedirects _ params =>
      [("page", opt_field params DocsClient.pp_page)]
  | _ => []
  end.

(** The same for an Inbox operation. *)
Definition inbox_numbers (o : InboxClient.op) : list (string * option Z) :=
  match o with
  | InboxClient.ListConversations params =>
      [("mailbox", opt_field params InboxClient.cv_mailbox);
       ("assigned_to", opt_field params InboxClient.cv_assigned_to);
       ("page", opt_field params InboxClient.cv_page)]
  | InboxClient.ListCustomers params =>
      [("page", opt_field params InboxClient.cu_page)]
  | InboxClient.ListMailboxes page
  | InboxClient.ListUsers page
  | InboxClient.ListTags page => [("page", page)]
  | _ => []
  end.

(** An optional number with [0] taken for [undefined]. *)
Definition drop_zero (v : option Z) : option Z :=
  match v with
  | Some 0 => None
  | _ => v
  end.

(** A Docs operation with every optional number [0] left out. *)
Definition docs_omit_zero (o : DocsClient.op) : DocsClient.op :=
  match o with
  | DocsClient.ListSites page => DocsClient.ListSites (drop_zero page)
  | DocsClient.ListCollections (Some p) =>
      DocsClient.ListCollections
        (Some (DocsClient.Build_ListCollectionsParams
                 (drop_zero (DocsClient.lc_page p)) (DocsClient.lc_siteId p)
                 (DocsClient.lc_visibility p) (DocsClient.lc_sort p)
                 (DocsClient.lc_order p)))
  | DocsClient.ListCategories i (Some p) =>
      DocsClient.ListCategories i
        (Some (DocsClient.Build_ListCategoriesParams
                 (drop_zero (DocsClient.lg_page p)) (DocsClient.lg_sort p)
                 (DocsClient.lg_order p)))
  | DocsClient.ListArticles i k (Some p) =>
      DocsClient.ListArticles i k
        (Some (DocsClient.Build_ListArticlesParams
                 (drop_zero (DocsClient.la_page p)) (DocsClient.la_status p)
                 (DocsClient.la_sort p) (DocsClient.la_order p)
                 (drop_zero (DocsClient.la_pageSize p))))
  | DocsClient.SearchArticles p =>
      DocsClient.SearchArticles
        (DocsClient.Build_SearchArticlesParams
           (DocsClient.sa_query p) (DocsClient.sa_collectionId p)
           (DocsClient.sa_siteId p) (DocsClient.sa_status p)
           (DocsClient.sa_visibility p) (drop_zero (DocsClient.sa_page p)))
  | DocsClient.ListRelatedArticles i (Some p) =>
      DocsClient.ListRelatedArticles i
        (Some (DocsClient.Build_PageParams (drop_zero (DocsClient.pp_page p))))
  | DocsClient.ListRevisions i (Some p) =>
      DocsClient.ListRevisions i
        (Some (DocsClient.Build_PageParams (drop_zero (DocsClient.pp_page p))))
  | DocsClient.ListRedirects i (Some p) =>
      DocsClient.ListRedirects i
        (Some (DocsClient.Build_PageParams (drop_zero (DocsClient.pp_page p))))
  | _ => o
  end.

(** An Inbox operation with every optional number [0] left out. *)
Definition inbox_omit_zero (o : InboxClient.op) : InboxClient.op :=
  match o with
  | InboxClient.ListConversations (Some p) =>
      InboxClient.ListConversations
        (Some (InboxClient.Build_ListConversationsParams
                 (drop_zero (InboxClient.cv_mailbox p)) (InboxClient.cv_status p)
                 (InboxClient.cv_tag p)
                 (drop_zero (InboxClient.cv_assigned_to p))
                 (InboxClient.cv_modifiedSince p) (InboxClient.cv_sortField p)
                 (InboxClient.cv_sortOrder p) (drop_zero (InboxClient.cv_page p))
                 (InboxClient.cv_query p)))
  | InboxClient.ListCustomers (Some p) =>
      InboxClient.ListCustomers
        (Some (InboxClient.Build_ListCustomersParams
                 (InboxClient.cu_firstName p) (InboxClient.cu_lastName p)
                 (InboxClient.cu_email p) (InboxClient.cu_modifiedSince p)
                 (InboxClient.cu_sortField p) (InboxClient.cu_sortOrder p)
                 (drop_zero (InboxClient.cu_page p)) (InboxClient.cu_query p)))
  | InboxClient.ListMailboxes page => InboxClient.ListMailboxes (drop_zero page)
  | InboxClient.ListUsers page => InboxClient.ListUsers (drop_zero page)
  | InboxClient.ListTags page => InboxClient.ListTags (drop_zero page)
  | _ => o
  end.

(** [listSites] is the one listing operation that sends its number
    unconditionally. *)
Definition is_listSites (o : DocsClient.op) : bool :=
  match o with
  | DocsClient.ListSites _ => true
  | _ => false
  end.

(** *** Query objects *)

(** The entries of a query object that the loop of [request] passes on, in
    the order of the object. *)
Definition sendable (qp : object qvalue) : list (string * string) :=
  flat_map
    (fun kv =>
       match usable (snd kv) with
       | Some v => [(fst kv, v)]
       | None => []
       end)
    qp.

(** The string parameters of a Docs operation that go into the query, by
    the name under which the operation sends them. *)
Definition docs_strings (o : DocsClient.op) : list (string * option string) :=
  match o with
  | DocsClient.ListCollections params =>
      [("siteId", opt_field params DocsClient.lc_siteId);
       ("visibility", opt_field params DocsClient.lc_visibility);
       ("sort", opt_field params DocsClient.lc_sort);
       ("order", opt_field params DocsClient.lc_order)]
  | DocsClient.ListCategories _ params =>
      [("sort", opt_field params DocsClient.lg_sort);
       ("order", opt_field params DocsClient.lg_order)]
  | DocsClient.ListArticles _ _ params =>
      [("status", opt_field params DocsClient.la_status);
       ("sort", opt_field params DocsClient.la_sort);
       ("order", opt_field params DocsClient.la_order)]
  | DocsClient.SearchArticles params =>
      [("query", Some (DocsClient.sa_query params));
       ("collectionId", DocsClient.sa_collectionId params);
       ("siteId", DocsClient.sa_siteId params);
       ("status", DocsClient.sa_status params);
       ("visibility", DocsClient.sa_visibility params)]
  | DocsClient.FindRedirect _ url => [("url", Some url)]
  | _ => []
  end.

(** The same for an Inbox operation. *)
Definition inbox_strings (o : InboxClient.op) : list (string * option string) :=
  match o with
  | InboxClient.ListConversations params =>
      [("status", opt_field params InboxClient.cv_status);
       ("tag", opt_field params InboxClient.cv_tag);
       ("modifiedSince", opt_field params InboxClient.cv_modifiedSince);
       ("sortField", opt_field params InboxClient.cv_sortField);
       ("sortOrder", opt_field params InboxClient.cv_sortOrder);
       ("query", opt_field params InboxClient.cv_query)]
  | InboxClient.GetConversation _ embed => [("embed", embed)]
  | InboxClient.ListCustomers params =>
      [("firstName", opt_field params InboxClient.cu_firstName);
       ("lastName", opt_field params InboxClient.cu_lastName);
       ("email", opt_field params InboxClient.cu_email);
       ("modifiedSince", opt_field params InboxClient.cu_modifiedSince);
       ("sortField", opt_field params InboxClient.cu_sortField);
       ("sortOrder", opt_field params InboxClient.cu_sortOrder);
       ("query", opt_field params InboxClient.cu_query)]
  | _ => []
  end.

(** An optional string with [''] taken for [undefined]. *)
Definition drop_blank (v : option string) : option string :=
  match v with
  | Some s => if (s =? "")%string then None else Some s
  | None => None
  end.

(** A Docs operation with every optional string [''] left out. *)
Definition docs_omit_blank (o : DocsClient.op) : DocsClient.op :=
  match o with
  | DocsClient.ListCollections (Some p) =>
      DocsClient.ListCollections
        (Some (DocsClient.Build_ListCollectionsParams
                 (DocsClient.lc_page p) (drop_blank (DocsClient.lc_siteId p))
                 (drop_blank (DocsClient.lc_visibility p))
                 (drop_blank (DocsClient.lc_sort p))
                 (drop_blank (DocsClient.lc_order p))))
  | DocsClient.ListCategories i (Some p) =>
      DocsClient.ListCategories i
        (Some (DocsClient.Build_ListCategoriesParams
                 (DocsClient.lg_page p) (drop_blank (DocsClient.lg_sort p))
                 (drop_blank (DocsClient.lg_order p))))
  | DocsClient.ListArticles i k (Some p) =>
      DocsClient.ListArticles i k
        (Some (DocsClient.Build_ListArticlesParams
                 (DocsClient.la_page p) (drop_blank (DocsClient.la_status p))
                 (drop_blank (DocsClient.la_sort p))
                 (drop_blank (DocsClient.la_order p))
                 (DocsClient.la_pageSize p)))
  | DocsClient.SearchArticles p =>
      DocsClient.SearchArticles
        (DocsClient.Build_SearchArticlesParams
           (DocsClient.sa_query p) (drop_blank (DocsClient.sa_collectionId p))
           (drop_blank (DocsClient.sa_siteId p))
           (drop_blank (DocsClient.sa_status p))
           (drop_blank (DocsClient.sa_visibility p)) (DocsClient.sa_page p))
  | _ => o
  end.

(** An Inbox operation with every optional string [''] left out. *)
Definition inbox_omit_blank (o : InboxClient.op) : InboxClient.op :=
  match o with
  | InboxClient.ListConversations (Some p) =>
      InboxClient.ListConversations
        (Some (InboxClient.Build_ListConversationsParams
                 (InboxClient.cv_mailbox p) (drop_blank (InboxClient.cv_status p))
                 (drop_blank (InboxClient.cv_tag p))
                 (InboxClient.cv_assigned_to p)
                 (drop_blank (InboxClient.cv_modifiedSince p))
                 (drop_blank (InboxClient.cv_sortField p))
                 (drop_blank (InboxClient.cv_sortOrder p))
                 (InboxClient.cv_page p) (drop_blank (InboxClient.cv_query p))))
  | InboxClient.GetConversation i embed =>
      InboxClient.GetConversation i (drop_blank embed)
  | InboxClient.ListCustomers (Some p) =>
      InboxClient.ListCustomers
        (Some (InboxClient.Build_ListCustomersParams
                 (drop_blank (InboxClient.cu_firstName p))
                 (drop_blank (InboxClient.cu_lastName p))
                 (drop_blank (InboxClient.cu_email p))
                 (drop_blank (InboxClient.cu_modifiedSince p))
                 (drop_blank (InboxClient.cu_sortField p))
                 (drop_blank (InboxClient.cu_sortOrder p))
                 (InboxClient.cu_page p) (drop_blank (InboxClient.cu_query p))))
  | _ => o
  end.

(** *** Tools and the operations behind them *)

(** The client operation a [docs_*] handler runs. *)
Definition docs_tool_op (tool : Server.Tool) : option DocsClient.op :=
  match tool with
  | Server.docs_list_sites page => Some (DocsClient.ListSites page)
  | Server.docs_get_site i => Some (DocsClient.GetSite i)
  | Server.docs_create_site d => Some (DocsClient.CreateSite d)
  | Server.docs_update_site i d => Some (DocsClient.UpdateSite i d)
  | Server.docs_delete_site i => Some (DocsClient.DeleteSite i)
  | Server.docs_list_collections p => Some (DocsClient.ListCollections (Some p))
  | Server.docs_get_collection i => Some (DocsClient.GetCollection i)
  | Server.docs_create_collection d => Some (DocsClient.CreateCollection d)
  | Server.docs_update_collection i d => Some (DocsClient.UpdateCollection i d)
  | Server.docs_delete_collection i => Some (DocsClient.DeleteCollection i)
  | Server.docs_list_categories i p => Some (DocsClient.ListCategories i (Some p))
  | Server.docs_get_category i => Some (DocsClient.GetCategory i)
  | Server.docs_create_category d => Some (DocsClient.CreateCategory d)
  | Server.docs_update_category i d => Some (DocsClient.UpdateCategory i d)
  | Server.docs_update_category_order i c =>
      Some (DocsClient.UpdateCategoryOrder i c)
  | Server.docs_delete_category i => Some (DocsClient.DeleteCategory i)
  | Server.docs_list_articles i k p => Some (DocsClient.ListArticles i k (Some p))
  | Server.docs_search_articles p => Some (DocsClient.SearchArticles p)
  | Server.docs_get_article i d => Some (DocsClient.GetArticle i d)
  | Server.docs_create_article d => Some (DocsClient.CreateArticle d)
  | Server.docs_update_article i d => Some (DocsClient.UpdateArticle i d)
  | Server.docs_delete_article i => Some (DocsClient.DeleteArticle i)
  | Server.docs_list_related_articles i page =>
      Some (DocsClient.ListRelatedArticles i
              (Some (DocsClient.Build_PageParams page)))
  | Server.docs_list_revisions i page =>
      Some (DocsClient.ListRevisions i (Some (DocsClient.Build_PageParams page)))
  | Server.docs_get_revision i => Some (DocsClient.GetRevision i)
  | Server.docs_save_draft i text => Some (DocsClient.SaveArticleDraft i text)
  | Server.docs_delete_draft i => Some (DocsClient.DeleteArticleDraft i)
  | Server.docs_list_redirects i page =>
      Some (DocsClient.ListRedirects i (Some (DocsClient.Build_PageParams page)))
  | Server.docs_get_redirect i => Some (DocsClient.GetRedirect i)
  | Server.docs_create_redirect d => Some (DocsClient.CreateRedirect d)
  | Server.docs_update_redirect i d => Some (DocsClient.UpdateRedirect i d)
  | Server.docs_delete_redirect i => Some (DocsClient.DeleteRedirect i)
  | _ => None
  end.

(** The client operation an [inbox_*] handler runs. *)
Definition inbox_tool_op (tool : Server.Tool) : option InboxClient.op :=
  match tool with
  | Server.inbox_list_conversations p =>
      Some (InboxClient.ListConversations (Some p))
  | Server.inbox_get_conversation i e => Some (InboxClient.GetConversation i e)
  | Server.inbox_create_conversation d => Some (InboxClient.CreateConversation d)
  | Server.inbox_delete_conversation i => Some (InboxClient.DeleteConversation i)
  | Server.inbox_list_threads i => Some (InboxClient.ListThreads i)
  | Server.inbox_create_reply i d => Some (InboxClient.CreateReplyThread i d)
  | Server.inbox_create_note i text =>
      Some (InboxClient.CreateNoteThread i [("text", JString text)])
  | Server.inbox_list_customers p => Some (InboxClient.ListCustomers (Some p))
  | Server.inbox_get_customer i => Some (InboxClient.GetCustomer i)
  | Server.inbox_create_customer d => Some (InboxClient.CreateCustomer d)
  | Server.inbox_list_mailboxes page => Some (InboxClient.ListMailboxes page)
  | Server.inbox_get_mailbox i => Some (InboxClient.GetMailbox i)
  | Server.inbox_list_users page => Some (InboxClient.ListUsers page)
  | Server.inbox_get_user i => Some (InboxClient.GetUser i)
  | Server.inbox_get_me => Some InboxClient.GetResourceOwner
  | Server.inbox_list_tags page => Some (InboxClient.ListTags page)
  | _ => None
  end.

(** The tools that answer with a confirmation of their own instead of the
    server's response: the deletes and [docs_save_draft]. *)
Definition confirms (tool : Server.Tool) : bool :=
  match tool with
  | Server.docs_delete_site _ | Server.docs_delete_collection _
  | Server.docs_delete_category _ | Server.docs_delete_article _
  | Server.docs_save_draft _ _ | Server.docs_delete_draft _
  | Server.docs_delete_redirect _ | Server.inbox_delete_conversation _ => true
  | _ => false
  end.

(** *** Targets *)

(** The method, the address and the query of each request issued between
    two states. *)
Definition targets (before after : World)
  : list (string * string * list (string * string)) :=
  map (fun r => (method r, address (url r), searchParams (url r)))
      (issued before after).

(** Three computations address one resource: the first reads it with GET,
    the second updates it with PUT at the same address with the query
    [reload=true], the third deletes it with DELETE at the same address. *)
Definition same_resource (w : World) (get update delete : M World json) : Prop :=
  exists place : string,
    targets w (snd (get w)) = [("GET", place, [])]
    /\ targets w (snd (update w)) = [("PUT", place, [("reload", "true")])]
    /\ targets w (snd (delete w)) = [("DELETE", place, [])].

(** *** A stand-in platform for closed examples

    The examples below run the clients on concrete inputs, which needs
    concrete library functions.  [stub_parse] agrees with [JSON.parse] on the
    two texts the examples send through it: the text of the empty object,
    and a text that is not JSON.  The serialisers and the token decoder are
    place-holders: no example looks at a request body or at the Basic
    credential, and the decoder reads any non-empty body as a token with the
    given lifetime. *)

Definition stub_parse (s : string) : string + json :=
  if (s =? "{}")%string then inr (JObject [])
  else inl "Unexpected token in JSON".

Definition stub_response_json (lifetime : Z) (s : string) : string + TokenData :=
  if (s =? "")%string then inl "Unexpected end of JSON input"
  else inr (mkTokenData s lifetime).

Definition stub (lifetime : Z) : Platform :=
  {| JSON_parse := stub_parse;
     JSON_stringify := fun _ => "{}";
     JSON_stringify_indent := fun _ => "{}";
     base64 := fun s => s;
     response_json := stub_response_json lifetime |}.

(** A world whose clock advances by one second per reading from [t0]. *)
Definition world_at (t0 : Z) (outcomes : list outcome) : World :=
  mkWorld (fun i => t0 + 1000 * Z.of_nat i) 0 outcomes [].

Definition respond (status : Z) (text : string) : outcome :=
  Responds (mkResponse status None text).

(** Unfold an operation down to its call of [request]. *)
Ltac docs_method :=
  cbv beta iota zeta delta
    [DocsClient.call
     DocsClient.listSites DocsClient.getSite DocsClient.createSite
     DocsClient.updateSite DocsClient.deleteSite
     DocsClient.listCollections DocsClient.getCollection
     DocsClient.createCollection DocsClient.updateCollection
     DocsClient.deleteCollection
     DocsClient.listCategories DocsClient.getCategory
     DocsClient.createCategory DocsClient.updateCategory
     DocsClient.updateCategoryOrder DocsClient.deleteCategory
     DocsClient.listArticles DocsClient.searchArticles DocsClient.getArticle
     DocsClient.createArticle DocsClient.updateArticle
     DocsClient.deleteArticle DocsClient.listRelatedArticles
     DocsClient.listRevisions DocsClient.getRevision
     DocsClient.saveArticleDraft DocsClient.deleteArticleDraft
     DocsClient.updateViewCount
     DocsClient.listRedirects DocsClient.getRedirect DocsClient.findRedirect
     DocsClient.createRedirect DocsClient.updateRedirect
     DocsClient.deleteRedirect].

(* ================================================================== *)
(** ** Basic facts                                                      *)
(* ================================================================== *)

Lemma issued_app (w w' : World) (l : list Request) :
  log w' = (log w ++ l)%list -> issued w w' = l.
Proof.
  unfold issued. intros ->.
  rewrite skipn_app, skipn_all, Nat.sub_diag. reflexivity.
Qed.

Lemma issued_refl (w : World) : issued w w = [].
Proof. apply issued_app. now rewrite app_nil_r. Qed.

Lemma world_at_monotone (t0 : Z) (outcomes : list outcome) :
  monotone (world_at t0 outcomes).
Proof. intros i j Hij. unfold world_at. cbv [clock]. lia. Qed.

Lemma fetch_log (r : Request) (w : World) :
  log (snd (fetch r w)) = (log w ++ [r])%list.
Proof. unfold fetch. destruct (pending w) as [|[resp|reason] rest]; reflexivity. Qed.

Lemma fetch_responds (r : Request) (w : World) (resp : Response) (rest : list outcome) :
  pending w = Responds resp :: rest ->
  fetch r w = (inr resp, mkWorld (clock w) (ticks w) rest (log w ++ [r])).
Proof. unfold fetch. intros ->. reflexivity. Qed.

(** *** Strings *)

Lemma endsWith_refl (s : string) : endsWith s s = true.
Proof. destruct s; cbn [endsWith]; now rewrite String.eqb_refl. Qed.

Lemma endsWith_app (pre suffix : string) :
  endsWith (pre ++ suffix) suffix = true.
Proof.
  induction pre as [|c pre IH].
  - apply endsWith_refl.
  - change (String c pre ++ suffix)%string with (String c (pre ++ suffix)).
    cbn [endsWith]. rewrite IH. apply orb_true_r.
Qed.

Lemma occurs_app (c : ascii) (a b : string) :
  occurs c (a ++ b) = occurs c a || occurs c b.
Proof.
  induction a as [|x a IH]; simpl; [reflexivity|].
  now rewrite IH, orb_assoc.
Qed.

Lemma endsWith_occurs (c : ascii) (s suffix : string) :
  endsWith s suffix = true -> occurs c suffix = true -> occurs c s = true.
Proof.
  induction s as [|x s IH]; cbn [endsWith occurs]; intros Hs Hc.
  - rewrite orb_false_r in Hs. apply String.eqb_eq in Hs. now subst.
  - apply orb_true_iff in Hs as [Hs|Hs].
    + apply String.eqb_eq in Hs. subst suffix. exact Hc.
    + rewrite (IH Hs Hc). apply orb_true_r.
Qed.

Lemma no_question_mark_no_reload (s : string) :
  occurs "?" s = false -> endsWith s "?reload=true" = false.
Proof.
  intros Hs. destruct (endsWith s "?reload=true") eqn:E; [|reflexivity].
  rewrite (endsWith_occurs "?" _ _ E) in Hs; [discriminate|reflexivity].
Qed.



Lemma append_assoc (a b c : string) : ((a ++ b) ++ c = a ++ (b ++ c))%string.
Proof. induction a as [|x a IH]; simpl; [reflexivity|now rewrite IH]. Qed.

Lemma endsWith_app3 (a b suffix : string) :
  endsWith (a ++ b ++ suffix) suffix = true.
Proof. rewrite <- append_assoc. apply endsWith_app. Qed.

Lemma endsWith_app4 (a b c suffix : string) :
  endsWith (a ++ b ++ c ++ suffix) suffix = true.
Proof. rewrite <- 2 append_assoc. apply endsWith_app. Qed.

(* ================================================================== *)
(** ** URLs                                                             *)
(* ================================================================== *)

Lemma before_without (c : ascii) (s : string) :
  occurs c s = false -> before c s = s.
Proof.
  induction s as [|x s IH]; cbn [occurs before]; [reflexivity|].
  destruct (x =? c)%char; [discriminate|]. cbn [orb].
  intros Hs. now rewrite IH.
Qed.

Lemma after_without (c : ascii) (s : string) :
  occurs c s = false -> after c s = None.
Proof.
  induction s as [|x s IH]; cbn [occurs after]; [reflexivity|].
  destruct (x =? c)%char; [discriminate|]. exact IH.
Qed.

Lemma occurs_before (c d : ascii) (s : string) :
  occurs c s = false -> occurs c (before d s) = false.
Proof.
  induction s as [|x s IH]; cbn [occurs before]; [reflexivity|].
  destruct (x =? d)%char; [reflexivity|]. cbn [occurs].
  destruct (x =? c)%char; [discriminate|]. exact IH.
Qed.

Lemma before_app_with (c : ascii) (a b : string) :
  occurs c a = true -> before c (a ++ b) = before c a.
Proof.
  induction a as [|x a IH]; cbn [occurs]; [discriminate|].
  change (String x a ++ b)%string with (String x (a ++ b)). cbn [before].
  destruct (x =? c)%char; [reflexivity|]. cbn [orb].
  intros Ha. now rewrite IH.
Qed.

Lemma after_app (c : ascii) (a b : string) :
  occurs c a = false -> after c (a ++ String c b) = Some b.
Proof.
  induction a as [|x a IH]; cbn [occurs].
  - intros _. change ("" ++ String c b)%string with (String c b).
    cbn [after]. now rewrite Ascii.eqb_refl.
  - change (String x a ++ String c b)%string with (String x (a ++ String c b)).
    cbn [after]. destruct (x =? c)%char; [discriminate|]. exact IH.
Qed.

(** A plain identifier holds none of the characters the parser acts on. *)
Lemma plain_occurs (c : ascii) (s : string) :
  plain_char c = false -> plain s = true -> occurs c s = false.
Proof.
  intros Hc. induction s as [|x s IH]; cbn [plain occurs]; [reflexivity|].
  intros Hp. apply andb_true_iff in Hp as [Hx Hs].
  rewrite (IH Hs), orb_false_r.
  destruct (x =? c)%char eqn:E; [|reflexivity].
  apply Ascii.eqb_eq in E. subst x. congruence.
Qed.

(** A text without a question mark has no query. *)
Lemma new_URL_no_query (text : string) :
  occurs "?" text = false -> searchParams (new_URL text) = [].
Proof.
  intros Ht. unfold new_URL. cbn [searchParams].
  rewrite after_without; [reflexivity|]. now apply occurs_before.
Qed.

(** The query of a text that ends with [?reload=true] after a part without
    a question mark: the one entry, unless a [#] cuts it off. *)
Lemma new_URL_reload (a : string) :
  occurs "?" a = false ->
  searchParams (new_URL (a ++ "?reload=true")) = []
  \/ searchParams (new_URL (a ++ "?reload=true")) = [("reload", "true")].
Proof.
  intros Ha. unfold new_URL. cbn [searchParams].
  destruct (occurs "#" a) eqn:E.
  - left. rewrite before_app_with by exact E.
    rewrite after_without; [reflexivity|]. now apply occurs_before.
  - right. rewrite before_without by (rewrite occurs_app, E; reflexivity).
    change "?reload=true" with (String "?" "reload=true").
    rewrite after_app by exact Ha. reflexivity.
Qed.

Lemma reload_path_params (base pre id : string) :
  occurs "?" base = false -> occurs "?" pre = false -> occurs "?" id = false ->
  searchParams (new_URL (base ++ pre ++ id ++ "?reload=true")) = []
  \/ searchParams (new_URL (base ++ pre ++ id ++ "?reload=true"))
     = [("reload", "true")].
Proof.
  intros Hb Hp Hi. rewrite <- !append_assoc. apply new_URL_reload.
  now rewrite !occurs_app, Hb, Hp, Hi.
Qed.

(** The address of a text without query and fragment is the text. *)
Lemma address_new_URL (text : string) :
  occurs "?" text = false -> occurs "#" text = false ->
  address (new_URL text) = text.
Proof.
  intros Hq Hf. unfold address, new_URL. cbn [href].
  now rewrite (before_without "#" _ Hf), before_without.
Qed.

Lemma before_app (c : ascii) (a b : string) :
  occurs c a = false -> before c (a ++ String c b) = a.
Proof.
  induction a as [|x a IH]; cbn [occurs].
  - intros _. change ("" ++ String c b)%string with (String c b).
    cbn [before]. now rewrite Ascii.eqb_refl.
  - change (String x a ++ String c b)%string with (String x (a ++ String c b)).
    cbn [before]. destruct (x =? c)%char; [discriminate|]. cbn [orb].
    intros Ha. now rewrite IH.
Qed.

(** A text without query and fragment, followed by [?reload=true]: the
    address is the text and the query the one entry. *)
Lemma new_URL_reload_exact (a : string) :
  occurs "?" a = false -> occurs "#" a = false ->
  address (new_URL (a ++ "?reload=true")) = a
  /\ searchParams (new_URL (a ++ "?reload=true")) = [("reload", "true")].
Proof.
  intros Hq Hf. unfold address, new_URL. cbn [href searchParams].
  rewrite (before_without "#") by (rewrite occurs_app, Hf; reflexivity).
  change "?reload=true" with (String "?" "reload=true").
  rewrite before_app, after_app by exact Hq. split; reflexivity.
Qed.

(** The decimal text of a number holds digits and a sign only. *)
Lemma String_of_number_no_query (n : Z) :
  occurs "?" (String_of_number n) = false.
Proof.
  assert (Hu : forall d, occurs "?" (NilEmpty.string_of_uint d) = false)
    by (induction d; cbn; auto).
  assert (Hz : forall d, occurs "?" (NilZero.string_of_uint d) = false)
    by (intros []; first [reflexivity | apply Hu]).
  unfold String_of_number.
  destruct (Z.to_int n); cbn [NilZero.string_of_int occurs];
    [apply Hz|exact (Hz _)].
Qed.

(* ================================================================== *)
(** ** The Docs client                                                  *)
(* ================================================================== *)

Section DocsFacts.
Context `{Platform}.
Import DocsClient.

Lemma docs_result_state (r : Response) (w : World) :
  snd (request_result r w) = w.
Proof.
  unfold request_result.
  destruct (negb (ok r)); [reflexivity|].
  destruct (_ || _); [reflexivity|].
  destruct (negb _); [reflexivity|].
  destruct (JSON_parse _); reflexivity.
Qed.

Lemma docs_request_log self m p b q (w : World) :
  log (snd (request self m p b q w))
  = (log w ++ [request_options self m b (request_url p q)])%list.
Proof.
  unfold request, bind.
  rewrite <- (fetch_log _ w).
  destruct (fetch _ w) as [[e|resp] w']; [reflexivity|].
  now rewrite docs_result_state.
Qed.

Lemma docs_request_issued self m p b q (w : World) :
  issued w (snd (request self m p b q w))
  = [request_options self m b (request_url p q)].
Proof. apply issued_app, docs_request_log. Qed.

Lemma docs_request_responds self m p b q (w : World) resp rest :
  pending w = Responds resp :: rest ->
  fst (request self m p b q w) = fst (request_result resp w).
Proof.
  intros Hp. unfold request, bind. rewrite (fetch_responds _ _ _ _ Hp).
  unfold request_result.
  destruct (negb (ok resp)); [reflexivity|].
  destruct (_ || _); [reflexivity|].
  destruct (negb _); [reflexivity|].
  destruct (JSON_parse _); reflexivity.
Qed.

Lemma docs_options_url self m b u : url (request_options self m b u) = u.
Proof.
  unfold request_options. destruct b; [|reflexivity].
  destruct (_ || _); reflexivity.
Qed.

Lemma docs_options_method self m b u : method (request_options self m b u) = m.
Proof.
  unfold request_options. destruct b; [|reflexivity].
  destruct (_ || _); reflexivity.
Qed.

Lemma docs_url_href p q : href (request_url p q) = (BASE_URL ++ p)%string.
Proof.
  unfold request_url. destruct q as [qp|]; [|reflexivity].
  change (BASE_URL ++ p)%string with (href (new_URL (BASE_URL ++ p))) at 2.
  generalize (new_URL (BASE_URL ++ p)).
  induction qp as [|[k v] qp IH]; intros u; [reflexivity|].
  cbn [fold_left fst snd]. rewrite IH. now destruct (usable v).
Qed.

(** Every operation is one call of [request]. *)
Lemma docs_call_request self (o : op) :
  exists m p b q, call self o = request self m p b q.
Proof. destruct o; do 4 eexists; reflexivity. Qed.

End DocsFacts.

Section DocsPaths.
Context `{Platform}.
Import DocsClient.

(** C7, as the code has it.  For an id [X] made of letters, digits, [-]
    and [_]: listing articles under parent type "collection" issues one GET
    to the address [/collections/X/articles], and under parent type
    "category" with the same id one GET to [/categories/X/articles], whatever
    the other parameters are; the parent type alone selects the path. *)
Theorem listArticles_dispatch_on_plain_ids :
  forall (self : t) (X : string) (params : option ListArticlesParams) (w : World),
    plain X = true ->
    map (fun r => (method r, address (url r)))
        (issued w (snd (listArticles self X collection params w)))
    = [("GET", BASE_URL ++ "/collections/" ++ X ++ "/articles")]
    /\
    map (fun r => (method r, address (url r)))
        (issued w (snd (listArticles self X category params w)))
    = [("GET", BASE_URL ++ "/categories/" ++ X ++ "/articles")].
Proof.
  intros self X params w HX. unfold listArticles.
  rewrite !docs_request_issued. cbn [map].
  rewrite !docs_options_url, !docs_options_method.
  assert (Hq : occurs "?" X = false) by now apply plain_occurs.
  assert (Hf : occurs "#" X = false) by now apply plain_occurs.
  unfold address. rewrite !docs_url_href.
  rewrite !(before_without "#") by (rewrite !occurs_app, Hf; reflexivity).
  rewrite !(before_without "?") by (rewrite !occurs_app, Hq; reflexivity).
  split; reflexivity.
Qed.

(** C1, as the code has it.  An operation that creates or updates a site, a
    collection, a category, an article or a redirect issues one request whose
    path ends with [?reload=true].  Every other operation - the reads, the
    deletes, and the three PUTs [updateCategoryOrder], [saveArticleDraft] and
    [updateViewCount] - issues one request whose path does not end with it,
    for an identifier that holds no question mark. *)
Theorem reload_suffix_on_resource_writes :
  forall (self : t) (o : op) (w : World),
    resource_write o = true \/ occurs "?" (path_id o) = false ->
    exists r : Request,
      issued w (snd (call self o w)) = [r]
      /\ endsWith (href (url r)) "?reload=true" = resource_write o.
Proof.
  intros self o w Ho.
  destruct o; docs_method.
  all: rewrite docs_request_issued; eexists; (split; [reflexivity|]).
  all: rewrite docs_options_url, docs_url_href; cbn [resource_write].
  all: cbn [resource_write path_id] in Ho.
  all: try (destruct Ho as [Ho|Ho]; [discriminate Ho|]).
  all: try solve [apply endsWith_app4].
  all: try solve [vm_compute; reflexivity].
  all: try solve [apply no_question_mark_no_reload; rewrite ?occurs_app, ?Ho;
                  reflexivity].
  all: destruct parentType;
    apply no_question_mark_no_reload; rewrite ?occurs_app, ?Ho; reflexivity.
Qed.

End DocsPaths.

(** C1, witness: reading a site, and updating one. *)
Lemma reload_suffix_on_resource_writes_witness :
  (resource_write (DocsClient.GetSite "5f1a") = true
   \/ occurs "?" (path_id (DocsClient.GetSite "5f1a")) = false)
  /\ exists r : Request,
       issued (world_at 0 [respond 200 "{}"])
         (snd (@DocsClient.call (stub 3600) (DocsClient.new "key")
                 (DocsClient.GetSite "5f1a") (world_at 0 [respond 200 "{}"])))
       = [r]
       /\ endsWith (href (url r)) "?reload=true"
          = resource_write (DocsClient.GetSite "5f1a").
Proof.
  split.
  - right. reflexivity.
  - apply (@reload_suffix_on_resource_writes (stub 3600)). right. reflexivity.
Defined.

(** C7, witness: the articles of a collection and of a category with the
    same id. *)
Lemma listArticles_dispatch_on_plain_ids_witness :
  let w := world_at 0 [respond 200 "{}"] in
  plain "5f1a" = true
  /\ map (fun r => (method r, address (url r)))
       (issued w (snd (@DocsClient.listArticles (stub 3600)
                         (DocsClient.new "key") "5f1a" DocsClient.collection
                         None w)))
     = [("GET", "https://docsapi.helpscout.net/v1/collections/5f1a/articles")]
  /\ map (fun r => (method r, address (url r)))
       (issued w (snd (@DocsClient.listArticles (stub 3600)
                         (DocsClient.new "key") "5f1a" DocsClient.category
                         None w)))
     = [("GET", "https://docsapi.helpscout.net/v1/categories/5f1a/articles")].
Proof.
  intros w. split; [reflexivity|].
  exact (@listArticles_dispatch_on_plain_ids (stub 3600) (DocsClient.new "key")
           "5f1a" None w eq_refl).
Defined.

(** C7, as stated, fails: the id is spliced into the path as it is, and the
    URL parser reads what follows a question mark as the query.  With the id
    [a?b] the request goes to [/collections/a], not to
    [/collections/a?b/articles]. *)
Lemma parent_dispatch_counterexample :
  ~ (forall (P : Platform) (self : DocsClient.t) (X : string)
            (params : option DocsClient.ListArticlesParams) (w : World),
        map (fun r => (method r, address (url r)))
            (issued w (snd (DocsClient.listArticles self X DocsClient.collection
                              params w)))
        = [("GET", (DocsClient.BASE_URL ++ "/collections/" ++ X ++ "/articles")%string)]).
Proof.
  intros C.
  specialize (C (stub 3600) (DocsClient.new "key") "a?b" None
                (world_at 0 [respond 200 "{}"])).
  vm_compute in C. discriminate C.
Qed.

(** C1, as stated, fails: [updateCategoryOrder] is an update sent with PUT,
    and its path [/collections/c1/categories] has no [?reload=true]. *)
Lemma reload_suffix_counterexample :
  ~ (forall (P : Platform) (self : DocsClient.t) (o : DocsClient.op)
            (w : World) (r : Request),
        In r (issued w (snd (DocsClient.call self o w))) ->
        ((method r = "POST" \/ method r = "PUT") ->
         endsWith (href (url r)) "?reload=true" = true)
        /\ ((method r = "GET" \/ method r = "DELETE") ->
            endsWith (href (url r)) "?reload=true" = false)).
Proof.
  intros C.
  destruct (C (stub 3600) (DocsClient.new "key")
              (DocsClient.UpdateCategoryOrder "c1" [("cat9", 1)])
              (world_at 0 [respond 200 ""]) _ (or_introl eq_refl)) as [Hw _].
  specialize (Hw (or_intror eq_refl)).
  vm_compute in Hw. discriminate Hw.
Qed.

(* ================================================================== *)
(** ** The Inbox client                                                 *)
(* ================================================================== *)

Section InboxFacts.
Context `{Platform}.
Import InboxClient.

Lemma token_is_fresh_run (s : State) :
  token_is_fresh s = (inr (fresh s), after_check s).
Proof.
  unfold token_is_fresh, fresh, after_check, bind, gets.
  destruct (truthy_opt truthy_string (accessToken (this s))); reflexivity.
Qed.

Lemma after_check_this s : this (after_check s) = this s.
Proof. unfold after_check. now destruct (truthy_opt _ _). Qed.

Lemma after_check_pending s : pending (world (after_check s)) = pending (world s).
Proof. unfold after_check. now destruct (truthy_opt _ _). Qed.

Lemma after_check_log s : log (world (after_check s)) = log (world s).
Proof. unfold after_check. now destruct (truthy_opt _ _). Qed.

Lemma after_check_clock s : clock (world (after_check s)) = clock (world s).
Proof. unfold after_check. now destruct (truthy_opt _ _). Qed.

Lemma after_check_ticks s :
  (ticks (world s) <= ticks (world (after_check s)))%nat.
Proof. unfold after_check. destruct (truthy_opt _ _); simpl; lia. Qed.

(** With a fresh token nothing is exchanged. *)
Lemma getAccessToken_fresh (s : State) (token : string) :
  accessToken (this s) = Some token ->
  fresh s = true ->
  getAccessToken s = (inr token, after_check s).
Proof.
  intros Ht Hf. unfold getAccessToken, bind.
  rewrite token_is_fresh_run, Hf. unfold gets.
  now rewrite after_check_this, Ht.
Qed.

(** Without one the exchange runs. *)
Lemma getAccessToken_stale (s : State) :
  fresh s = false ->
  getAccessToken s = exchange_token (after_check s).
Proof.
  intros Hf. unfold getAccessToken, bind.
  rewrite token_is_fresh_run, Hf. reflexivity.
Qed.

(** The exchange on a refused request: the error, and [this] as it was. *)
Lemma exchange_refused (s : State) (r : Response) (rest : list outcome) :
  pending (world s) = Responds r :: rest ->
  ok r = false ->
  exchange_token s
  = (inl (Error ("Help Scout OAuth error "
                 ++ String_of_number (status r) ++ ": " ++ text r)),
     mkState (this s)
       (mkWorld (clock (world s)) (ticks (world s)) rest
                (log (world s) ++ [token_request (this s)]))).
Proof.
  intros Hp Hok. unfold exchange_token, bind, gets, lift.
  rewrite (fetch_responds _ _ _ _ Hp), Hok. reflexivity.
Qed.

(** The exchange on a granted request: the token and the expiry stored. *)
Lemma exchange_granted (s : State) (r : Response) (rest : list outcome)
    (data : TokenData) :
  pending (world s) = Responds r :: rest ->
  ok r = true ->
  response_json (text r) = inr data ->
  exchange_token s
  = (inr (access_token data),
     mkState
       (mk (appId (this s)) (appSecret (this s)) (Some (access_token data))
           (clock (world s) (ticks (world s)) + (expires_in data - 60) * 1000))
       (mkWorld (clock (world s)) (S (ticks (world s))) rest
                (log (world s) ++ [token_request (this s)]))).
Proof.
  intros Hp Hok Hj. unfold exchange_token, bind, gets, lift.
  rewrite (fetch_responds _ _ _ _ Hp), Hok. cbn [negb].
  rewrite Hj. reflexivity.
Qed.


(** Whatever comes back, the exchange issues its one request. *)
Lemma exchange_log (s : State) :
  log (world (snd (exchange_token s)))
  = (log (world s) ++ [token_request (this s)])%list.
Proof.
  unfold exchange_token, bind, gets, lift, fetch.
  destruct (pending (world s)) as [|[r|reason] rest]; try reflexivity.
  destruct (negb (ok r)); [reflexivity|].
  destruct (response_json (text r)); reflexivity.
Qed.

Lemma inbox_result_state (r : Response) (s : State) :
  snd (request_result r s) = s.
Proof.
  unfold request_result.
  destruct (negb (ok r)); [reflexivity|].
  destruct (_ || _); [reflexivity|].
  destruct (negb _); [reflexivity|].
  destruct (JSON_parse _); reflexivity.
Qed.

(** [request] once the token is in hand. *)
Lemma inbox_request_run m p b q (s s1 : State) (token : string) :
  getAccessToken s = (inr token, s1) ->
  request m p b q s
  = match fetch (request_options token m b (request_url p q)) (world s1) with
    | (inr resp, w2) => request_result resp (mkState (this s1) w2)
    | (inl e, w2) => (inl e, mkState (this s1) w2)
    end.
Proof.
  intros Hg. unfold request, bind. rewrite Hg. unfold lift.
  destruct (fetch _ (world s1)) as [[e|resp] w2]; [reflexivity|].
  destruct (request_result resp _); reflexivity.
Qed.

(** [request] when the token cannot be had. *)
Lemma inbox_request_no_token m p b q (s s1 : State) (e : exn) :
  getAccessToken s = (inl e, s1) ->
  request m p b q s = (inl e, s1).
Proof. intros Hg. unfold request, bind. now rewrite Hg. Qed.

Lemma inbox_options_url token m b u : url (request_options token m b u) = u.
Proof.
  unfold request_options. destruct b; [|reflexivity].
  destruct (_ || _); reflexivity.
Qed.

Lemma inbox_url_href p q : href (request_url p q) = (BASE_URL ++ p)%string.
Proof.
  unfold request_url. destruct q as [qp|]; [|reflexivity].
  change (BASE_URL ++ p)%string with (href (new_URL (BASE_URL ++ p))) at 2.
  generalize (new_URL (BASE_URL ++ p)).
  induction qp as [|[k v] qp IH]; intros u; [reflexivity|].
  cbn [fold_left fst snd]. rewrite IH. now destruct (usable v).
Qed.

(** Every operation is one call of [request]. *)
Lemma inbox_call_request (o : op) :
  exists m p b q, call o = request m p b q.
Proof. destruct o; do 4 eexists; reflexivity. Qed.

End InboxFacts.

Section InboxToken.
Context `{Platform}.
Import InboxClient.

Lemma truthy_string_iff (s : string) : truthy_string s = true <-> s <> "".
Proof.
  unfold truthy_string. rewrite negb_true_iff. apply String.eqb_neq.
Qed.

(** No operation has the token endpoint for its path. *)
Lemma inbox_call_path (o : op) :
  exists m p b q,
    call o = request m p b q
    /\ ((BASE_URL ++ p)%string =? TOKEN_URL)%string = false.
Proof.
  destruct o; do 4 eexists; (split; [reflexivity|vm_compute; reflexivity]).
Qed.

(** What [request] adds once the token is in hand: its one request; the
    fields of [this] and the clock stay as the token step left them. *)
Lemma inbox_request_after_token m p b q (s s1 : State) (token : string) :
  getAccessToken s = (inr token, s1) ->
  let s2 := snd (request m p b q s) in
  log (world s2)
  = (log (world s1) ++ [request_options token m b (request_url p q)])%list
  /\ this s2 = this s1
  /\ clock (world s2) = clock (world s1)
  /\ ticks (world s2) = ticks (world s1).
Proof.
  intros Hg. cbv zeta. rewrite (inbox_request_run _ _ _ _ _ _ _ Hg).
  unfold fetch.
  destruct (pending (world s1)) as [|[r|reason] rest]; cbn [snd];
    rewrite ?inbox_result_state; cbn; auto.
Qed.

Lemma token_request_is_exchange (self : t) :
  is_token_exchange (token_request self) = true.
Proof. reflexivity. Qed.

Lemma api_request_is_no_exchange token m p b q :
  ((BASE_URL ++ p)%string =? TOKEN_URL)%string = false ->
  is_token_exchange (request_options token m b (request_url p q)) = false.
Proof.
  intros Hp. unfold is_token_exchange.
  now rewrite inbox_options_url, inbox_url_href.
Qed.

Lemma bearer_header token m b u :
  In ("Authorization", ("Bearer " ++ token)%string)
     (headers (request_options token m b u)).
Proof.
  unfold request_options. destruct b; [|now left].
  destruct (_ || _); now left.
Qed.

(** What [getAccessToken] issues: nothing, or the token exchange. *)
Lemma getAccessToken_issues (s : State) :
  log (world (snd (getAccessToken s))) = log (world s)
  \/ log (world (snd (getAccessToken s)))
     = (log (world s) ++ [token_request (this s)])%list.
Proof.
  destruct (fresh s) eqn:Hf.
  - left. unfold getAccessToken, bind.
    rewrite token_is_fresh_run, Hf. unfold gets.
    destruct (accessToken (this (after_check s))) eqn:Ht.
    + cbn [snd]. apply after_check_log.
    + unfold fresh in Hf. rewrite after_check_this in Ht.
      rewrite Ht in Hf. discriminate Hf.
  - right. rewrite (getAccessToken_stale _ Hf), exchange_log.
    now rewrite after_check_log, after_check_this.
Qed.

(** What [request] issues: at most the token exchange, then at most its own
    request. *)
Lemma inbox_request_issues m p b q (s : State) :
  exists pre post : list Request,
    issued (world s) (world (snd (request m p b q s))) = (pre ++ post)%list
    /\ (pre = [] \/ pre = [token_request (this s)])
    /\ (post = []
        \/ exists token, post = [request_options token m b (request_url p q)]).
Proof.
  destruct (getAccessToken s) as [[e|token] s1] eqn:Hg.
  - rewrite (inbox_request_no_token _ _ _ _ _ _ _ Hg). cbn [snd].
    destruct (getAccessToken_issues s) as [Hl|Hl]; rewrite Hg in Hl;
      cbn [snd] in Hl.
    + exists [], []. split; [|auto]. apply issued_app. now rewrite Hl, app_nil_r.
    + exists [token_request (this s)], []. split; [|auto].
      now apply issued_app.
  - destruct (inbox_request_after_token m p b q _ _ _ Hg) as (Hl2 & _).
    destruct (getAccessToken_issues s) as [Hl|Hl]; rewrite Hg in Hl;
      cbn [snd] in Hl; rewrite Hl in Hl2.
    + exists [], [request_options token m b (request_url p q)].
      split; [now apply issued_app|]. split; [auto|right; now exists token].
    + exists [token_request (this s)],
             [request_options token m b (request_url p q)].
      split; [apply issued_app; now rewrite Hl2, <- app_assoc|].
      split; [auto|right; now exists token].
Qed.

(** C10.  When the token exchange is refused with a non-2xx status, the
    error is raised and every field of the client - the cached token and its
    expiry among them - is what it was before the call, for
    [getAccessToken] and for every operation that ran it. *)
Theorem failed_exchange_keeps_token :
  forall (s : State) (r : Response) (rest : list outcome),
    fresh s = false ->
    pending (world s) = Responds r :: rest ->
    ok r = false ->
    (exists m, fst (getAccessToken s) = inl (Error m))
    /\ accessToken (this (snd (getAccessToken s))) = accessToken (this s)
    /\ tokenExpiry (this (snd (getAccessToken s))) = tokenExpiry (this s)
    /\ forall o : op,
         (exists m, fst (call o s) = inl (Error m))
         /\ this (snd (call o s)) = this s.
Proof.
  intros s r rest Hf Hp Hok.
  assert (Hg : exists m w',
             getAccessToken s = (inl (Error m), mkState (this s) w')).
  { rewrite (getAccessToken_stale _ Hf).
    rewrite <- after_check_pending in Hp.
    rewrite (exchange_refused _ _ _ Hp Hok), after_check_this.
    eauto. }
  destruct Hg as (m & w' & Hg). rewrite Hg. cbn [fst snd this].
  split; [now exists m|]. split; [reflexivity|]. split; [reflexivity|].
  intros o. destruct (inbox_call_request o) as (m' & p & b & q & ->).
  rewrite (inbox_request_no_token _ _ _ _ _ _ _ Hg). cbn [fst snd this].
  split; [now exists m|reflexivity].
Qed.

End InboxToken.

(** C10, witness: a client holding an expired token meets a 401. *)
Lemma failed_exchange_keeps_token_witness :
  let s := InboxClient.mkState (InboxClient.mk "app" "secret" (Some "old") 5000)
             (world_at 9000 [respond 401 "denied"]) in
  let r := mkResponse 401 None "denied" in
  (fresh s = false
   /\ pending (InboxClient.world s) = [Responds r]
   /\ ok r = false)
  /\ (exists m, fst (@InboxClient.getAccessToken (stub 3600) s) = inl (Error m))
  /\ InboxClient.accessToken
       (InboxClient.this (snd (@InboxClient.getAccessToken (stub 3600) s)))
     = InboxClient.accessToken (InboxClient.this s)
  /\ InboxClient.tokenExpiry
       (InboxClient.this (snd (@InboxClient.getAccessToken (stub 3600) s)))
     = InboxClient.tokenExpiry (InboxClient.this s)
  /\ forall o : InboxClient.op,
       (exists m, fst (@InboxClient.call (stub 3600) o s) = inl (Error m))
       /\ InboxClient.this (snd (@InboxClient.call (stub 3600) o s))
          = InboxClient.this s.
Proof.
  intros s r. split.
  - repeat split; reflexivity.
  - apply (@failed_exchange_keeps_token (stub 3600) s r []); reflexivity.
Defined.

Section InboxExpiry.
Context `{Platform}.
Import InboxClient.

(** C2.  A granted token exchange stores the token and, as expiry, a clock
    reading taken during the call plus [(lifetime - 60) * 1000].  When the
    lifetime is at most 60 seconds and the clock does not run backwards, any
    later state with these client fields finds the token stale, and every
    operation run there starts with a new token exchange. *)
Theorem expiry_is_lifetime_minus_margin :
  forall (s : State) (r : Response) (rest : list outcome) (data : TokenData),
    fresh s = false ->
    pending (world s) = Responds r :: rest ->
    ok r = true ->
    response_json (text r) = inr data ->
    let s' := snd (getAccessToken s) in
    fst (getAccessToken s) = inr (access_token data)
    /\ accessToken (this s') = Some (access_token data)
    /\ (exists i : nat,
          (ticks (world s) <= i < ticks (world s'))%nat
          /\ tokenExpiry (this s')
             = clock (world s) i + (expires_in data - 60) * 1000)
    /\ (expires_in data <= 60 ->
        monotone (world s) ->
        forall s2 : State,
          this s2 = this s' ->
          clock (world s2) = clock (world s) ->
          (ticks (world s') <= ticks (world s2))%nat ->
          fresh s2 = false
          /\ forall o : op,
               exists more : list Request,
                 issued (world s2) (world (snd (call o s2)))
                 = token_request (this s2) :: more).
Proof.
  intros s r rest data Hf Hp Hok Hj s'.
  assert (Hg : getAccessToken s = exchange_token (after_check s))
    by now apply getAccessToken_stale.
  rewrite <- after_check_pending in Hp.
  rewrite (exchange_granted _ _ _ _ Hp Hok Hj) in Hg.
  subst s'. rewrite Hg. cbn [fst snd this world accessToken tokenExpiry ticks].
  split; [reflexivity|]. split; [reflexivity|]. split.
  - exists (ticks (world (after_check s))). split.
    + pose proof (after_check_ticks s). lia.
    + now rewrite after_check_clock.
  - intros HT Hmono s2 Hthis Hclock Hticks.
    assert (Hstale : fresh s2 = false).
    { unfold fresh. rewrite Hthis. cbn [accessToken tokenExpiry].
      apply andb_false_iff. right. apply Z.ltb_ge.
      rewrite Hclock, after_check_clock.
      specialize (Hmono (ticks (world (after_check s))) (ticks (world s2))).
      nia. }
    split; [exact Hstale|].
    intros o. destruct (inbox_call_request o) as (m & p & b & q & ->).
    destruct (getAccessToken s2) as [[e|token] s3] eqn:Hg2.
    + rewrite (inbox_request_no_token _ _ _ _ _ _ _ Hg2). cbn [snd].
      exists []. apply issued_app.
      rewrite (getAccessToken_stale _ Hstale) in Hg2.
      pose proof (exchange_log (after_check s2)) as Hl.
      rewrite Hg2 in Hl. cbn [snd] in Hl.
      now rewrite Hl, after_check_log, after_check_this.
    + destruct (inbox_request_after_token m p b q _ _ _ Hg2) as (Hl2 & _).
      eexists. apply issued_app. rewrite Hl2.
      rewrite (getAccessToken_stale _ Hstale) in Hg2.
      pose proof (exchange_log (after_check s2)) as Hl.
      rewrite Hg2 in Hl. cbn [snd] in Hl.
      rewrite Hl, after_check_log, after_check_this, <- app_assoc.
      reflexivity.
Qed.

End InboxExpiry.

(** C2, witness: a lifetime of 30 seconds granted at time 1000000. *)
Lemma expiry_is_lifetime_minus_margin_witness :
  let s := InboxClient.mkState (InboxClient.new "app" "secret")
             (world_at 1000000 [respond 200 "tok-1"]) in
  let r := mkResponse 200 None "tok-1" in
  let data := mkTokenData "tok-1" 30 in
  let s' := snd (@InboxClient.getAccessToken (stub 30) s) in
  (fresh s = false
   /\ pending (InboxClient.world s) = [Responds r]
   /\ ok r = true
   /\ @response_json (stub 30) (text r) = inr data
   /\ expires_in data <= 60
   /\ monotone (InboxClient.world s))
  /\ InboxClient.accessToken (InboxClient.this s') = Some "tok-1"
  /\ fresh s' = false.
Proof.
  intros s r data s'.
  assert (Hm : monotone (InboxClient.world s)).
  { exact (world_at_monotone 1000000 [respond 200 "tok-1"]). }
  split.
  - repeat split; try reflexivity; [subst data; cbn; lia | exact Hm].
  - destruct (@expiry_is_lifetime_minus_margin (stub 30) s r [] data)
      as (_ & Ha & _ & Hnext); try reflexivity.
    split; [exact Ha|].
    assert (HT : expires_in data <= 60) by (subst data; cbn; lia).
    apply (Hnext HT Hm s' eq_refl eq_refl (le_n _)).
Defined.

Section InboxReuse.
Context `{Platform}.
Import InboxClient.

(** C3.  With a token cached and the clock strictly before the stored
    expiry, every operation issues exactly one request, which is not a token
    exchange and carries the cached token as Bearer credential, and leaves
    the client fields as they were.  Hence two operations in a row, the
    first acquiring the token and the second run before its expiry, issue
    one token exchange between them. *)
Theorem fresh_token_is_reused :
  (forall (s : State) (token : string) (o : op),
      accessToken (this s) = Some token ->
      token <> "" ->
      clock (world s) (ticks (world s)) < tokenExpiry (this s) ->
      (exists r : Request,
          issued (world s) (world (snd (call o s))) = [r]
          /\ is_token_exchange r = false
          /\ In ("Authorization", ("Bearer " ++ token)%string) (headers r))
      /\ this (snd (call o s)) = this s)
  /\
  (forall (s : State) (o1 o2 : op) (r : Response) (rest : list outcome)
          (data : TokenData),
      fresh s = false ->
      pending (world s) = Responds r :: rest ->
      ok r = true ->
      response_json (text r) = inr data ->
      access_token data <> "" ->
      let s1 := snd (call o1 s) in
      let s2 := snd (call o2 s1) in
      clock (world s1) (ticks (world s1)) < tokenExpiry (this s1) ->
      token_exchanges (issued (world s) (world s2)) = 1%nat).
Proof.
  assert (Reuse :
    forall (s : State) (token : string) (o : op),
      accessToken (this s) = Some token ->
      token <> "" ->
      clock (world s) (ticks (world s)) < tokenExpiry (this s) ->
      exists r : Request,
        log (world (snd (call o s))) = (log (world s) ++ [r])%list
        /\ is_token_exchange r = false
        /\ In ("Authorization", ("Bearer " ++ token)%string) (headers r)
        /\ this (snd (call o s)) = this s).
  { intros s token o Ht Hne Hnow.
    assert (Hf : fresh s = true).
    { unfold fresh. rewrite Ht. cbn [truthy_opt].
      apply andb_true_iff. split; [now apply truthy_string_iff|].
      now apply Z.ltb_lt. }
    destruct (inbox_call_path o) as (m & p & b & q & -> & Hp).
    pose proof (getAccessToken_fresh _ _ Ht Hf) as Hg.
    destruct (inbox_request_after_token m p b q _ _ _ Hg) as (Hl & Hthis & _).
    eexists. split; [|split; [|split]].
    - rewrite Hl, after_check_log. reflexivity.
    - now apply api_request_is_no_exchange.
    - apply bearer_header.
    - now rewrite Hthis, after_check_this. }
  split.
  - intros s token o Ht Hne Hnow.
    destruct (Reuse s token o Ht Hne Hnow) as (r & Hl & Hx & Hb & Hthis).
    split; [|exact Hthis].
    exists r. split; [|split]; auto. now apply issued_app.
  - intros s o1 o2 r rest data Hf Hp Hok Hj Hne s1 s2 Hnow.
    assert (Hg : getAccessToken s = exchange_token (after_check s))
      by now apply getAccessToken_stale.
    rewrite <- after_check_pending in Hp.
    rewrite (exchange_granted _ _ _ _ Hp Hok Hj) in Hg.
    destruct (inbox_call_path o1) as (m & p & b & q & Hc & Hpath).
    assert (Hs1 : s1 = snd (request m p b q s)) by (subst s1; now rewrite Hc).
    destruct (inbox_request_after_token m p b q _ _ _ Hg) as (Hl1 & Hthis1 & _).
    rewrite <- Hs1 in Hl1, Hthis1. cbn [world this log] in Hl1, Hthis1.
    assert (Ht1 : accessToken (this s1) = Some (access_token data))
      by now rewrite Hthis1.
    destruct (Reuse s1 _ o2 Ht1 Hne Hnow) as (r2 & Hl2 & Hx2 & _).
    fold s2 in Hl2.
    unfold token_exchanges.
    rewrite (issued_app (world s) (world s2)
               ([token_request (this (after_check s));
                 request_options (access_token data) m b (request_url p q);
                 r2])).
    + cbn [filter]. rewrite token_request_is_exchange, Hx2.
      now rewrite (api_request_is_no_exchange _ _ _ _ _ Hpath).
    + rewrite Hl2, Hl1, after_check_log, <- !app_assoc. reflexivity.
Qed.

End InboxReuse.

(** C3, witness: a client holding a fresh token, and a new client running
    two operations within the hour its token lasts. *)
Lemma fresh_token_is_reused_witness :
  let s := InboxClient.mkState
             (InboxClient.mk "app" "secret" (Some "tok-1") 2000000)
             (world_at 1000000 [respond 200 "{}"]) in
  let s0 := InboxClient.mkState (InboxClient.new "app" "secret")
              (world_at 1000000
                 [respond 200 "tok-1"; respond 200 "{}"; respond 200 "{}"]) in
  let r := mkResponse 200 None "tok-1" in
  let data := mkTokenData "tok-1" 3600 in
  let s1 := snd (@InboxClient.call (stub 3600) (InboxClient.ListMailboxes None) s0) in
  let s2 := snd (@InboxClient.call (stub 3600) (InboxClient.GetUser 7) s1) in
  (InboxClient.accessToken (InboxClient.this s) = Some "tok-1"
   /\ "tok-1" <> ""
   /\ clock (InboxClient.world s) (ticks (InboxClient.world s))
      < InboxClient.tokenExpiry (InboxClient.this s))
  /\ InboxClient.this
       (snd (@InboxClient.call (stub 3600) InboxClient.GetResourceOwner s))
     = InboxClient.this s
  /\ (fresh s0 = false
      /\ pending (InboxClient.world s0)
         = [Responds r; respond 200 "{}"; respond 200 "{}"]
      /\ ok r = true
      /\ @response_json (stub 3600) (text r) = inr data
      /\ access_token data <> ""
      /\ clock (InboxClient.world s1) (ticks (InboxClient.world s1))
         < InboxClient.tokenExpiry (InboxClient.this s1))
  /\ token_exchanges (issued (InboxClient.world s0) (InboxClient.world s2))
     = 1%nat.
Proof.
  intros s s0 r data s1 s2.
  assert (Hne : "tok-1" <> "") by discriminate.
  assert (Hnow : clock (InboxClient.world s) (ticks (InboxClient.world s))
                 < InboxClient.tokenExpiry (InboxClient.this s))
    by (vm_compute; reflexivity).
  assert (Hnow1 : clock (InboxClient.world s1) (ticks (InboxClient.world s1))
                  < InboxClient.tokenExpiry (InboxClient.this s1))
    by (vm_compute; reflexivity).
  split; [split; [reflexivity | split; [exact Hne | exact Hnow]]|].
  split.
  - apply (proj1 (@fresh_token_is_reused (stub 3600)) s "tok-1"
             InboxClient.GetResourceOwner eq_refl Hne Hnow).
  - split; [repeat (split; [reflexivity|]); split; [exact Hne | exact Hnow1]|].
    apply (proj2 (@fresh_token_is_reused (stub 3600)) s0
             (InboxClient.ListMailboxes None) (InboxClient.GetUser 7)
             r [respond 200 "{}"; respond 200 "{}"] data
             eq_refl eq_refl eq_refl eq_refl Hne Hnow1).
Defined.




Section EmptyBodies.
Context `{Platform}.

Lemma docs_no_content (r : Response) (w : World) :
  status r = 204
  \/ ok r = true /\ (content_length r = Some "0" \/ text r = "") ->
  DocsClient.request_result r w = (inr (JObject []), w).
Proof.
  unfold DocsClient.request_result, ok.
  intros [Hs | (Hok & [Hc | Ht])].
  - rewrite Hs. reflexivity.
  - unfold ok in Hok. rewrite Hok, Hc. cbn [negb].
    now rewrite orb_true_r.
  - unfold ok in Hok. rewrite Hok, Ht. cbn [negb].
    now destruct (_ || _).
Qed.

Lemma inbox_no_content (r : Response) (s : InboxClient.State) :
  status r = 204
  \/ ok r = true /\ (content_length r = Some "0" \/ text r = "") ->
  InboxClient.request_result r s = (inr (JObject []), s).
Proof.
  unfold InboxClient.request_result, ok.
  intros [Hs | (Hok & [Hc | Ht])].
  - rewrite Hs. reflexivity.
  - unfold ok in Hok. rewrite Hok, Hc. cbn [negb].
    now rewrite orb_true_r.
  - unfold ok in Hok. rewrite Hok, Ht. cbn [negb].
    now destruct (_ || _).
Qed.

(** C5.  When the response to an operation's request has status 204, or a
    successful status with a content length of zero or an empty text, the
    operation returns the empty object: for every Docs operation, and for
    every Inbox operation once its token is in hand. *)
Theorem empty_body_is_empty_object :
  forall (r : Response) (rest : list outcome),
    status r = 204
    \/ ok r = true /\ (content_length r = Some "0" \/ text r = "") ->
    (forall (self : DocsClient.t) (o : DocsClient.op) (w : World),
        pending w = Responds r :: rest ->
        fst (DocsClient.call self o w) = inr (JObject []))
    /\
    (forall (o : InboxClient.op) (s s1 : InboxClient.State) (token : string),
        InboxClient.getAccessToken s = (inr token, s1) ->
        pending (InboxClient.world s1) = Responds r :: rest ->
        fst (InboxClient.call o s) = inr (JObject [])).
Proof.
  intros r rest Hr. split.
  - intros self o w Hp.
    destruct (docs_call_request self o) as (m & p & b & q & ->).
    rewrite (docs_request_responds _ _ _ _ _ _ _ _ Hp).
    now rewrite docs_no_content.
  - intros o s s1 token Hg Hp.
    destruct (inbox_call_request o) as (m & p & b & q & ->).
    rewrite (inbox_request_run _ _ _ _ _ _ _ Hg).
    rewrite (fetch_responds _ _ _ _ Hp).
    now rewrite inbox_no_content.
Qed.

End EmptyBodies.

(** C5, witness: a 204 answers a Docs delete and an Inbox delete. *)
Lemma empty_body_is_empty_object_witness :
  let r := mkResponse 204 None "" in
  let w := world_at 0 [Responds r] in
  let s := InboxClient.mkState
             (InboxClient.mk "app" "secret" (Some "tok-1") 2000000) w in
  (status r = 204
   \/ ok r = true /\ (content_length r = Some "0" \/ text r = ""))
  /\ fst (@DocsClient.call (stub 3600) (DocsClient.new "key")
            (DocsClient.DeleteSite "5f1a") w)
     = inr (JObject [])
  /\ fst (@InboxClient.call (stub 3600) (InboxClient.DeleteConversation 42) s)
     = inr (JObject []).
Proof.
  intros r w s.
  assert (Hr : status r = 204
               \/ ok r = true /\ (content_length r = Some "0" \/ text r = ""))
    by (left; reflexivity).
  destruct (@empty_body_is_empty_object (stub 3600) r [] Hr) as [Hd Hi].
  split; [exact Hr|]. split.
  - apply Hd. reflexivity.
  - apply (Hi _ s (after_check s) "tok-1"); reflexivity.
Defined.

Section StatusErrors.
Context `{Platform}.

Lemma docs_result_refused (r : Response) (w : World) :
  ok r = false ->
  DocsClient.request_result r w
  = (inl (Error ("Help Scout Docs API error "
                 ++ String_of_number (status r) ++ ": " ++ text r)), w).
Proof. intros Hok. unfold DocsClient.request_result. now rewrite Hok. Qed.






End StatusErrors.



Section Gating.
Context `{Platform}.
Import Server.

Lemma docs_handler_run (body : DocsClient.t -> M World Result) (p : Process) :
  exists (res : Result) (p' : Process),
    docs_handler body p = (inr res, p')
    /\ docs p' = docs p /\ inbox p' = inbox p
    /\ (docs p = None ->
        res = errResult (inr "HELPSCOUT_API_KEY not configured") /\ p' = p).
Proof.
  unfold docs_handler, bind, gets. destruct (docs p) as [client|] eqn:Hd.
  - unfold try_catch, with_docs.
    destruct (body client (net p)) as [[e|res] w']; cbn;
      do 2 eexists; (split; [reflexivity|]); cbn; repeat split; auto;
      discriminate.
  - do 2 eexists. split; [reflexivity|]. now repeat split.
Qed.

Lemma inbox_handler_run (body : M InboxClient.State Result) (p : Process) :
  exists (res : Result) (p' : Process),
    inbox_handler body p = (inr res, p')
    /\ docs p' = docs p
    /\ (inbox p = None ->
        res = errResult
                (inr "HELPSCOUT_APP_ID and HELPSCOUT_APP_SECRET not configured")
        /\ p' = p).
Proof.
  unfold inbox_handler, bind, gets. destruct (inbox p) as [client|] eqn:Hi.
  - unfold try_catch, with_inbox.
    destruct (body _) as [[e|res] s']; cbn;
      do 2 eexists; (split; [reflexivity|]); cbn; split; auto; discriminate.
  - do 2 eexists. split; [reflexivity|]. now repeat split.
Qed.

(** A handler always returns an envelope; a client that is absent stays
    absent. *)
Lemma handler_returns (tool : Tool) (p : Process) :
  exists (res : Result) (p' : Process),
    handler tool p = (inr res, p')
    /\ docs p' = docs p
    /\ (inbox p = None -> inbox p' = None).
Proof.
  destruct tool; cbn [handler];
    first
      [ match goal with
        | |- context [docs_handler ?b p] =>
            destruct (docs_handler_run b p) as (res & p' & -> & Hd & Hi & _);
            exists res, p'; repeat split; auto; intros Hn; now rewrite Hi
        end
      | match goal with
        | |- context [inbox_handler ?b p] =>
            destruct (inbox_handler_run b p) as (res & p' & -> & Hd & Hn);
            exists res, p'; repeat split; auto;
            intros Hi; destruct (Hn Hi) as [_ ->]; exact Hi
        end ].
Qed.

Lemma serve_returns (tools : list Tool) (p : Process) :
  exists (rs : list Result) (p' : Process),
    serve tools p = (inr rs, p')
    /\ docs p' = docs p
    /\ (inbox p = None -> inbox p' = None).
Proof.
  revert p. induction tools as [|tool tools IH]; intros p.
  - exists [], p. now repeat split.
  - cbn [serve]. unfold bind.
    destruct (handler_returns tool p) as (res & p1 & -> & Hd1 & Hi1).
    destruct (IH p1) as (rs & p2 & -> & Hd2 & Hi2).
    exists (res :: rs), p2. repeat split; [congruence | auto].
Qed.

Lemma start_without_key (env : Env) (w : World) :
  configured (HELPSCOUT_API_KEY env) = false -> docs (start env w) = None.
Proof.
  unfold start, configured. cbn [docs].
  destruct (HELPSCOUT_API_KEY env) as [k|]; [|reflexivity].
  cbn [truthy_opt]. now intros ->.
Qed.

Lemma start_without_app (env : Env) (w : World) :
  configured (HELPSCOUT_APP_ID env) && configured (HELPSCOUT_APP_SECRET env)
  = false ->
  inbox (start env w) = None.
Proof.
  unfold start, configured. cbn [inbox].
  destruct (HELPSCOUT_APP_ID env) as [i|];
    destruct (HELPSCOUT_APP_SECRET env) as [x|]; try reflexivity.
  cbn [truthy_opt]. now intros ->.
Qed.

(** C8.  At any point of the server's life, a tool invoked without its
    credentials - no Docs key for a [docs_*] tool, no OAuth app id or secret
    for an [inbox_*] tool - returns the error envelope with a "not
    configured" message, issues no request and leaves the process as it was;
    and the server, which never lets an error escape a handler, goes on to
    answer whatever follows. *)
Theorem unconfigured_tool_fails_without_network :
  forall (env : Env) (w : World) (history : list Tool) (tool : Tool),
    lacks_credentials env tool = true ->
    let p := snd (serve history (start env w)) in
    (exists message : string,
        handler tool p = (inr (errResult (inr message)), p)
        /\ includes message "not configured" = true
        /\ isError (errResult (inr message)) = Some true)
    /\ issued (net p) (net (snd (handler tool p))) = []
    /\ forall later : list Tool,
         exists rs : list Result,
           fst (serve (history ++ tool :: later) (start env w)) = inr rs.
Proof.
  intros env w history tool Hlack p.
  destruct (serve_returns history (start env w)) as (rs & p0 & Hs & Hd & Hi).
  assert (Hp : p = p0) by (subst p; now rewrite Hs).
  assert (Hgate :
    exists message : string,
      handler tool p = (inr (errResult (inr message)), p)
      /\ includes message "not configured" = true).
  { unfold lacks_credentials in Hlack.
    destruct (prefix "docs_" (name tool)) eqn:Hn.
    - apply negb_true_iff in Hlack.
      assert (Hnone : docs p = None).
      { rewrite Hp, Hd. now apply start_without_key. }
      destruct tool; try discriminate Hn; cbn [handler];
        match goal with
        | |- context [docs_handler ?b p] =>
            destruct (docs_handler_run b p) as (res & p' & -> & _ & _ & Hr);
            destruct (Hr Hnone) as [-> ->]
        end;
        (eexists; split; [reflexivity|vm_compute; reflexivity]).
    - apply negb_true_iff in Hlack.
      assert (Hnone : inbox p = None).
      { rewrite Hp. apply Hi. now apply start_without_app. }
      destruct tool; try discriminate Hn; cbn [handler];
        match goal with
        | |- context [inbox_handler ?b p] =>
            destruct (inbox_handler_run b p) as (res & p' & -> & _ & Hr);
            destruct (Hr Hnone) as [-> ->]
        end;
        (eexists; split; [reflexivity|vm_compute; reflexivity]). }
  destruct Hgate as (message & Hrun & Hinc).
  split; [exists message; repeat split; assumption|].
  split; [rewrite Hrun; apply issued_refl|].
  intros later.
  destruct (serve_returns (history ++ tool :: later) (start env w))
    as (rs' & p' & -> & _).
  now exists rs'.
Qed.

End Gating.

(** C8, witness: with nothing configured, a Docs tool and an Inbox tool are
    invoked after two other invocations. *)
Lemma unconfigured_tool_fails_without_network_witness :
  let env := Server.mkEnv None None None in
  let w := world_at 0 [respond 200 "{}"] in
  let history := [Server.docs_get_site "5f1a"; Server.inbox_get_me] in
  let p := snd (@Server.serve (stub 3600) history (Server.start env w)) in
  (lacks_credentials env (Server.docs_list_sites None) = true
   /\ lacks_credentials env (Server.inbox_list_tags None) = true)
  /\ issued (Server.net p)
       (Server.net (snd (@Server.handler (stub 3600)
                           (Server.docs_list_sites None) p)))
     = []
  /\ issued (Server.net p)
       (Server.net (snd (@Server.handler (stub 3600)
                           (Server.inbox_list_tags None) p)))
     = [].
Proof.
  intros env w history p.
  split; [split; reflexivity|]. split.
  - apply (@unconfigured_tool_fails_without_network (stub 3600) env w history
             (Server.docs_list_sites None) eq_refl).
  - apply (@unconfigured_tool_fails_without_network (stub 3600) env w history
             (Server.inbox_list_tags None) eq_refl).
Defined.

(* ================================================================== *)
(** ** Query parameters                                                 *)
(* ================================================================== *)

Lemma params_set_in (k v : string) (l : list (string * string)) (e : string * string) :
  In e (params_set k v l) -> e = (k, v) \/ In e l.
Proof.
  induction l as [|[k0 v0] l IH]; cbn [params_set]; intros Hin.
  - destruct Hin as [<-|[]]. now left.
  - destruct (k0 =? k)%string.
    + destruct Hin as [<-|Hin]; [now left|].
      apply filter_In in Hin as [Hin _]. right. now right.
    + destruct Hin as [<-|Hin]; [right; now left|].
      destruct (IH Hin) as [->|Hl]; [now left|right; now right].
Qed.

(** The loop of [request] stores only entries with a usable value. *)
Lemma loop_params (qp : object qvalue) (u : URL) (e : string * string) :
  In e (searchParams
          (fold_left
             (fun u kv =>
                match usable (snd kv) with
                | Some value => searchParams_set (fst kv) value u
                | None => u
                end)
             qp u)) ->
  In e (searchParams u)
  \/ exists qv : qvalue, In (fst e, qv) qp /\ usable qv = Some (snd e).
Proof.
  revert u. induction qp as [|[k0 v0] qp IH]; intros u Hin.
  - now left.
  - cbn [fold_left fst snd] in Hin. apply IH in Hin as [Hin|(qv & Hq & Hu)].
    + destruct (usable v0) as [value|] eqn:Hv.
      * cbn [searchParams_set searchParams] in Hin.
        apply params_set_in in Hin as [->|Hin]; [|now left].
        right. exists v0. split; [now left|exact Hv].
      * now left.
    + right. exists qv. split; [now right|exact Hu].
Qed.




Lemma obj_set_keys {V : Type} (n : string) (v : V) (o : object V) (k : string) :
  In k (map fst (obj_set n v o)) -> k = n \/ In k (map fst o).
Proof.
  induction o as [|[k0 v0] o IH]; cbn [obj_set map fst]; intros Hin.
  - destruct Hin as [<-|[]]. now left.
  - destruct (k0 =? n)%string eqn:E.
    + apply String.eqb_eq in E. subst k0.
      destruct Hin as [<-|Hin]; [now left|right; now right].
    + destruct Hin as [<-|Hin]; [right; now left|].
      destruct (IH Hin) as [->|Hl]; [now left|right; now right].
Qed.

Lemma set_number_keys (n : string) (v : option Z) (q : query) (k : string) :
  In k (map fst (set_number n v q)) ->
  In k (map fst q) \/ (k = n /\ truthy_opt truthy_number v = true).
Proof.
  unfold set_number. destruct (truthy_opt truthy_number v) eqn:E; [|now left].
  destruct v as [z|]; [|now left].
  intros Hin. apply obj_set_keys in Hin as [->|Hin]; [now right|now left].
Qed.

Lemma set_string_keys (n : string) (v : option string) (q : query) (k : string) :
  In k (map fst (set_string n v q)) ->
  In k (map fst q) \/ (k = n /\ truthy_opt truthy_string v = true).
Proof.
  unfold set_string. destruct (truthy_opt truthy_string v) eqn:E; [|now left].
  destruct v as [z|]; [|now left].
  intros Hin. apply obj_set_keys in Hin as [->|Hin]; [now right|now left].
Qed.

Lemma set_number_drop_zero (n : string) (v : option Z) (q : query) :
  set_number n (drop_zero v) q = set_number n v q.
Proof. destruct v as [[| |]|]; reflexivity. Qed.

Lemma String_of_number_nonempty (n : Z) : String_of_number n <> "".
Proof.
  unfold String_of_number. destruct (Z.to_int n) as [d|d]; [|discriminate].
  destruct d; discriminate.
Qed.

(** A parameter name that the query builders were not given a truthy value
    for is not among the keys: peel the builders off one at a time. *)
Ltac hunt_key H Hv :=
  repeat
    (let Hk := fresh "Hk" in
     let Ht := fresh "Ht" in
     first
       [ apply set_number_keys in H as [H | [Hk Ht]]
       | apply set_string_keys in H as [H | [Hk Ht]] ];
     [ | first [ discriminate Hk | rewrite Hv in Ht; discriminate Ht ] ]).

Lemma params_set_new (k v : string) (l : list (string * string)) :
  ~ In k (map fst l) -> params_set k v l = (l ++ [(k, v)])%list.
Proof.
  induction l as [|[k0 v0] l IH]; cbn [params_set map fst app]; intros Hk.
  - reflexivity.
  - destruct (k0 =? k)%string eqn:E.
    + apply String.eqb_eq in E. elim Hk. now left.
    + rewrite IH; [reflexivity|]. intros Hin. apply Hk. now right.
Qed.

(** On an object with distinct keys the loop appends the sendable entries. *)
Lemma loop_exact (qp : object qvalue) (u : URL) :
  NoDup (map fst qp) ->
  (forall k, In k (map fst qp) -> ~ In k (map fst (searchParams u))) ->
  searchParams
    (fold_left
       (fun u kv =>
          match usable (snd kv) with
          | Some value => searchParams_set (fst kv) value u
          | None => u
          end)
       qp u)
  = (searchParams u ++ sendable qp)%list.
Proof.
  revert u. induction qp as [|[k0 v0] qp IH]; intros u Hnd Hfresh.
  - cbn. now rewrite app_nil_r.
  - inversion Hnd as [|? ? Hk0 Hnd']; subst.
    cbn [fold_left fst snd sendable flat_map].
    destruct (usable v0) as [value|] eqn:Hv.
    + rewrite IH; [|exact Hnd'|].
      * cbn [searchParams_set searchParams].
        rewrite params_set_new by (apply Hfresh; now left).
        now rewrite <- app_assoc.
      * intros k Hk. cbn [searchParams_set searchParams].
        rewrite params_set_new by (apply Hfresh; now left).
        rewrite map_app, in_app_iff. cbn [map fst In].
        intros [Hin|[<-|[]]]; [|contradiction].
        revert Hin. apply Hfresh. now right.
    + rewrite IH; [reflexivity|exact Hnd'|].
      intros k Hk. apply Hfresh. now right.
Qed.

Lemma sendable_in (qp : object qvalue) (k v : string) :
  In (k, QString v) qp -> v <> "" -> In (k, v) (sendable qp).
Proof.
  intros Hin Hv. unfold sendable. apply in_flat_map.
  exists (k, QString v). split; [exact Hin|]. cbn [fst snd usable].
  destruct (v =? "")%string eqn:E; [|now left].
  now apply String.eqb_eq in E.
Qed.

Lemma sendable_keys (qp : object qvalue) (k : string) :
  In k (map fst (sendable qp)) -> In k (map fst qp).
Proof.
  induction qp as [|[k0 v0] qp IH]; [exact (fun x => x)|].
  unfold sendable in *. cbn [flat_map map fst snd].
  rewrite map_app, in_app_iff. intros [Hin|Hin].
  - destruct (usable v0); cbn in Hin; [|easy].
    destruct Hin as [<-|[]]. now left.
  - right. now apply IH.
Qed.

Lemma sendable_NoDup (qp : object qvalue) :
  NoDup (map fst qp) -> NoDup (map fst (sendable qp)).
Proof.
  induction qp as [|[k0 v0] qp IH]; intros Hnd; [constructor|].
  inversion Hnd as [|? ? Hk0 Hnd']; subst.
  change (sendable ((k0, v0) :: qp))
    with ((match usable v0 with Some v => [(k0, v)] | None => [] end)
          ++ sendable qp)%list.
  rewrite map_app.
  destruct (usable v0); cbn [map fst app]; [|now apply IH].
  constructor; [|now apply IH].
  intros Hin. apply Hk0. now apply sendable_keys.
Qed.

Lemma obj_set_NoDup {V : Type} (n : string) (v : V) (o : object V) :
  NoDup (map fst o) -> NoDup (map fst (obj_set n v o)).
Proof.
  induction o as [|[k0 v0] o IH]; cbn [obj_set map fst]; intros Hnd.
  - repeat constructor. easy.
  - inversion Hnd as [|? ? Hk0 Hnd']; subst.
    destruct (k0 =? n)%string eqn:E.
    + apply String.eqb_eq in E. subst k0. now constructor.
    + cbn [map fst]. constructor; [|now apply IH].
      intros Hin. apply obj_set_keys in Hin as [->|Hin]; [|contradiction].
      now rewrite String.eqb_refl in E.
Qed.

Lemma set_number_NoDup (n : string) (v : option Z) (q : query) :
  NoDup (map fst q) -> NoDup (map fst (set_number n v q)).
Proof.
  unfold set_number. destruct (truthy_opt truthy_number v); [|easy].
  destruct v; [|easy]. apply obj_set_NoDup.
Qed.

Lemma set_string_NoDup (n : string) (v : option string) (q : query) :
  NoDup (map fst q) -> NoDup (map fst (set_string n v q)).
Proof.
  unfold set_string. destruct (truthy_opt truthy_string v); [|easy].
  destruct v; [|easy]. apply obj_set_NoDup.
Qed.

Lemma obj_set_in_new {V : Type} (n : string) (v : V) (o : object V) :
  In (n, v) (obj_set n v o).
Proof.
  induction o as [|[k0 v0] o IH]; cbn [obj_set]; [now left|].
  destruct (k0 =? n)%string; [now left|now right].
Qed.

Lemma obj_set_in_old {V : Type} (n : string) (v : V) (o : object V)
    (k : string) (x : V) :
  k <> n -> In (k, x) o -> In (k, x) (obj_set n v o).
Proof.
  intros Hk. induction o as [|[k0 v0] o IH]; cbn [obj_set]; [easy|].
  intros [Heq|Hin].
  - injection Heq as -> ->.
    destruct (k =? n)%string eqn:E; [now apply String.eqb_eq in E|now left].
  - destruct (k0 =? n)%string; right; [exact Hin|now apply IH].
Qed.

Lemma set_number_in_old n v (q : query) k x :
  k <> n -> In (k, x) q -> In (k, x) (set_number n v q).
Proof.
  intros Hk Hin. unfold set_number.
  destruct (truthy_opt truthy_number v); [|exact Hin].
  destruct v; [|exact Hin]. now apply obj_set_in_old.
Qed.

Lemma set_string_in_old n v (q : query) k x :
  k <> n -> In (k, x) q -> In (k, x) (set_string n v q).
Proof.
  intros Hk Hin. unfold set_string.
  destruct (truthy_opt truthy_string v); [|exact Hin].
  destruct v; [|exact Hin]. now apply obj_set_in_old.
Qed.

Lemma set_number_in_new n z (q : query) :
  z <> 0 -> In (n, QString (String_of_number z)) (set_number n (Some z) q).
Proof.
  intros Hz. unfold set_number, truthy_opt, truthy_number.
  destruct (z =? 0) eqn:E; [now apply Z.eqb_eq in E|]. cbn [negb].
  apply obj_set_in_new.
Qed.

Lemma set_string_in_new n s (q : query) :
  s <> "" -> In (n, QString s) (set_string n (Some s) q).
Proof.
  intros Hs. unfold set_string, truthy_opt, truthy_string.
  destruct (s =? "")%string eqn:E; [now apply String.eqb_eq in E|]. cbn [negb].
  apply obj_set_in_new.
Qed.

Lemma set_string_drop_blank (n : string) (v : option string) (q : query) :
  set_string n (drop_blank v) q = set_string n v q.
Proof.
  destruct v as [s|]; [|reflexivity]. unfold drop_blank, set_string.
  destruct (s =? "")%string eqn:E.
  - cbn [truthy_opt]. unfold truthy_string. now rewrite E.
  - reflexivity.
Qed.

(** The query object of an operation has distinct keys. *)
Ltac distinct_keys :=
  repeat first [ apply set_number_NoDup | apply set_string_NoDup
               | apply obj_set_NoDup ];
  repeat constructor; cbn; intuition discriminate.

Lemma params_set_in_new (k v : string) (l : list (string * string)) :
  In (k, v) (params_set k v l).
Proof.
  induction l as [|[k0 v0] l IH]; cbn [params_set]; [now left|].
  destruct (k0 =? k)%string; [now left|now right].
Qed.

Lemma params_set_in_old (k v : string) (l : list (string * string))
    (k' v' : string) :
  k' <> k -> In (k', v') l -> In (k', v') (params_set k v l).
Proof.
  intros Hk. induction l as [|[k0 v0] l IH]; cbn [params_set]; [easy|].
  intros [Heq|Hin].
  - injection Heq as -> ->.
    destruct (k' =? k)%string eqn:E; [now apply String.eqb_eq in E|now left].
  - destruct (k0 =? k)%string.
    + right. apply filter_In. split; [exact Hin|]. cbn [fst].
      apply negb_true_iff. now apply String.eqb_neq.
    + right. now apply IH.
Qed.

(** The loop of [request] stores every usable entry of an object with
    distinct keys, whatever the URL held before. *)
Lemma loop_keeps (qp : object qvalue) (u : URL) (k v : string) :
  NoDup (map fst qp) ->
  (In (k, v) (searchParams u) /\ ~ In k (map fst qp))
  \/ (exists qv : qvalue, In (k, qv) qp /\ usable qv = Some v) ->
  In (k, v)
     (searchParams
        (fold_left
           (fun u kv =>
              match usable (snd kv) with
              | Some value => searchParams_set (fst kv) value u
              | None => u
              end)
           qp u)).
Proof.
  revert u. induction qp as [|[k0 v0] qp IH]; intros u Hnd Hin.
  - destruct Hin as [[Hin _]|(qv & [] & _)]. exact Hin.
  - inversion Hnd as [|? ? Hk0 Hnd']; subst.
    cbn [fold_left fst snd]. apply IH; [exact Hnd'|].
    destruct Hin as [[Hin Hk]|(qv & [Heq|Hq] & Hu)].
    + left. split; [|intros Hq; apply Hk; now right].
      destruct (usable v0); [|exact Hin].
      cbn [searchParams_set searchParams]. apply params_set_in_old; [|exact Hin].
      intros ->. apply Hk. now left.
    + injection Heq as -> ->. left. split; [|exact Hk0].
      rewrite Hu. cbn [searchParams_set searchParams]. apply params_set_in_new.
    + right. now exists qv.
Qed.

(** An entry that the builders were given a truthy value for is in the
    query object: walk down to the builder that set it. *)
Ltac find_entry Hx :=
  repeat first
    [ apply set_string_in_new; exact Hx
    | apply set_number_in_new; exact Hx
    | apply set_string_in_old; [discriminate|]
    | apply set_number_in_old; [discriminate|]
    | now left ].

(** Split a membership in a table of parameters into its entries. *)
Ltac table_entry Hn :=
  repeat match type of Hn with
         | _ \/ _ => destruct Hn as [Hn|Hn]
         | False => destruct Hn
         end.


Section QueryParameters.
Context `{Platform}.

(** An entry of the URL of a request was in the text of the path, or the
    loop stored it. *)
Lemma docs_url_params p q (e : string * string) :
  In e (searchParams (DocsClient.request_url p q)) ->
  In e (searchParams (new_URL (DocsClient.BASE_URL ++ p)))
  \/ exists (qp : object qvalue) (qv : qvalue),
       q = Some qp /\ In (fst e, qv) qp /\ usable qv = Some (snd e).
Proof.
  unfold DocsClient.request_url. destruct q as [qp|]; [|now left].
  intros Hin. apply loop_params in Hin as [Hin|(qv & Hq & Hu)]; [now left|].
  right. now exists qp, qv.
Qed.

Lemma inbox_url_params p q (e : string * string) :
  In e (searchParams (InboxClient.request_url p q)) ->
  In e (searchParams (new_URL (InboxClient.BASE_URL ++ p)))
  \/ exists (qp : object qvalue) (qv : qvalue),
       q = Some qp /\ In (fst e, qv) qp /\ usable qv = Some (snd e).
Proof.
  unfold InboxClient.request_url. destruct q as [qp|]; [|now left].
  intros Hin. apply loop_params in Hin as [Hin|(qv & Hq & Hu)]; [now left|].
  right. now exists qp, qv.
Qed.

(** The requests of a Docs [request] and the parameters they carry. *)
Lemma docs_issued_params self m p b q (w : World) (r : Request)
    (e : string * string) :
  In r (issued w (snd (DocsClient.request self m p b q w))) ->
  In e (searchParams (url r)) ->
  In e (searchParams (new_URL (DocsClient.BASE_URL ++ p)))
  \/ exists (qp : object qvalue) (qv : qvalue),
       q = Some qp /\ In (fst e, qv) qp /\ usable qv = Some (snd e).
Proof.
  rewrite docs_request_issued. intros [<-|[]].
  rewrite docs_options_url. apply docs_url_params.
Qed.

(** The same for an Inbox [request]; the token exchange carries none. *)
Lemma inbox_issued_params m p b q (s : InboxClient.State) (r : Request)
    (e : string * string) :
  In r (issued (InboxClient.world s)
               (InboxClient.world (snd (InboxClient.request m p b q s)))) ->
  In e (searchParams (url r)) ->
  In e (searchParams (new_URL (InboxClient.BASE_URL ++ p)))
  \/ exists (qp : object qvalue) (qv : qvalue),
       q = Some qp /\ In (fst e, qv) qp /\ usable qv = Some (snd e).
Proof.
  destruct (inbox_request_issues m p b q s)
    as (pre & post & -> & Hpre & Hpost).
  intros Hin He. apply in_app_or in Hin as [Hin|Hin].
  - destruct Hpre as [->| ->]; [destruct Hin|].
    destruct Hin as [<-|[]]. destruct He.
  - destruct Hpost as [->|(token & ->)]; [destruct Hin|].
    destruct Hin as [<-|[]]. rewrite inbox_options_url in He.
    exact (inbox_url_params p q e He).
Qed.

(** On a path without a query of its own and an object with distinct keys,
    the URL carries the sendable entries. *)
Lemma docs_url_exact p (qp : object qvalue) :
  searchParams (new_URL (DocsClient.BASE_URL ++ p)) = [] ->
  NoDup (map fst qp) ->
  searchParams (DocsClient.request_url p (Some qp)) = sendable qp.
Proof.
  intros Hp Hnd. unfold DocsClient.request_url.
  rewrite loop_exact; [now rewrite Hp|exact Hnd|].
  intros k _. rewrite Hp. intros [].
Qed.

Lemma inbox_url_exact p (qp : object qvalue) :
  searchParams (new_URL (InboxClient.BASE_URL ++ p)) = [] ->
  NoDup (map fst qp) ->
  searchParams (InboxClient.request_url p (Some qp)) = sendable qp.
Proof.
  intros Hp Hnd. unfold InboxClient.request_url.
  rewrite loop_exact; [now rewrite Hp|exact Hnd|].
  intros k _. rewrite Hp. intros [].
Qed.

Lemma docs_path_no_query p :
  occurs "?" p = false ->
  searchParams (new_URL (DocsClient.BASE_URL ++ p)) = [].
Proof. intros Hp. apply new_URL_no_query. now rewrite occurs_app, Hp. Qed.

Lemma inbox_path_no_query p :
  occurs "?" p = false ->
  searchParams (new_URL (InboxClient.BASE_URL ++ p)) = [].
Proof. intros Hp. apply new_URL_no_query. now rewrite occurs_app, Hp. Qed.

(** A Docs operation whose identifier holds no question mark is one call of
    [request], on a query object with distinct keys and on a path whose own
    query is empty or, for the writes without a query object, [reload=true]. *)
Lemma docs_call_url (self : DocsClient.t) (o : DocsClient.op) :
  occurs "?" (path_id o) = false ->
  exists m p b q,
    DocsClient.call self o = DocsClient.request self m p b q
    /\ (forall qp, q = Some qp -> NoDup (map fst qp))
    /\ (searchParams (new_URL (DocsClient.BASE_URL ++ p)) = []
        \/ (q = None
            /\ searchParams (new_URL (DocsClient.BASE_URL ++ p))
               = [("reload", "true")])).
Proof.
  destruct o; cbn [path_id]; intros Hid; docs_method;
    do 4 eexists; (split; [reflexivity|]);
    (split;
     [intros qp [= <-]; try distinct_keys;
      try (destruct draft as [[|]|]; distinct_keys)|]).
  all: first
    [ left; apply docs_path_no_query; rewrite ?occurs_app, ?Hid; reflexivity
    | right; split; reflexivity
    | match goal with
      | |- context [new_URL (_ ++ ?pre ++ ?i ++ "?reload=true")] =>
          destruct (reload_path_params DocsClient.BASE_URL pre i
                      eq_refl eq_refl Hid) as [E|E];
          [left; exact E|right; split; [reflexivity|exact E]]
      end
    | destruct parentType; left; apply docs_path_no_query;
      rewrite ?occurs_app, ?Hid; reflexivity ].
Qed.

(** An Inbox operation is one call of [request], on a query object with
    distinct keys and on a path without a query of its own: the identifiers
    are numbers. *)
Lemma inbox_call_url (o : InboxClient.op) :
  exists m p b q,
    InboxClient.call o = InboxClient.request m p b q
    /\ (forall qp, q = Some qp -> NoDup (map fst qp))
    /\ searchParams (new_URL (InboxClient.BASE_URL ++ p)) = [].
Proof.
  destruct o;
    cbv beta iota zeta delta
      [InboxClient.call InboxClient.listConversations
       InboxClient.getConversation InboxClient.listCustomers
       InboxClient.listMailboxes InboxClient.listUsers InboxClient.listTags];
    do 4 eexists; (split; [reflexivity|]);
    (split; [intros qp [= <-]; distinct_keys|]);
    apply inbox_path_no_query;
    rewrite ?occurs_app, ?String_of_number_no_query; reflexivity.
Qed.


(** A numeric parameter left undefined or passed as [0] is not named by
    the request, [listSites] apart. *)
Lemma docs_number_absent (self : DocsClient.t) (o : DocsClient.op)
    (n : string) (v0 : option Z) (w : World) (r : Request) :
  is_listSites o = false ->
  occurs "?" (path_id o) = false ->
  In (n, v0) (docs_numbers o) ->
  v0 = None \/ v0 = Some 0 ->
  In r (issued w (snd (DocsClient.call self o w))) ->
  ~ In n (param_names r).
Proof.
  intros Ho Hid Hn Hv0 Hr Hk.
  unfold param_names in Hk. apply in_map_iff in Hk as (e & He & Hin).
  revert Hr. destruct o; cbn [docs_numbers In] in Hn;
    try discriminate Ho; try (destruct Hn; fail);
    cbn [path_id] in Hid; docs_method; intros Hr;
    (destruct (docs_issued_params _ _ _ _ _ _ _ _ Hr Hin)
       as [Hpath|(qp & qv & [= <-] & Hq & Hu)];
     [try destruct parentType;
      rewrite docs_path_no_query in Hpath
        by (rewrite ?occurs_app, ?Hid; reflexivity);
      destruct Hpath|]);
    rewrite He in Hq;
    table_entry Hn; injection Hn as <- Hv;
    (destruct Hv0 as [Hv0|Hv0]; rewrite Hv0 in Hv);
    apply (in_map fst) in Hq; cbn [fst] in Hq;
    hunt_key Hq Hv; cbn in Hq; intuition discriminate.
Qed.


Lemma inbox_number_absent (o : InboxClient.op) (n : string)
    (v0 : option Z) (s : InboxClient.State) (r : Request) :
  In (n, v0) (inbox_numbers o) ->
  v0 = None \/ v0 = Some 0 ->
  In r (issued (InboxClient.world s)
               (InboxClient.world (snd (InboxClient.call o s)))) ->
  ~ In n (param_names r).
Proof.
  intros Hn Hv0 Hr Hk.
  unfold param_names in Hk. apply in_map_iff in Hk as (e & He & Hin).
  revert Hr. destruct o; cbn [inbox_numbers In] in Hn;
    try (destruct Hn; fail);
    cbv beta iota zeta delta
      [InboxClient.call InboxClient.listConversations InboxClient.listCustomers
       InboxClient.listMailboxes InboxClient.listUsers InboxClient.listTags];
    intros Hr;
    (destruct (inbox_issued_params _ _ _ _ _ _ _ Hr Hin)
       as [Hpath|(qp & qv & [= <-] & Hq & Hu)];
     [rewrite inbox_path_no_query in Hpath by reflexivity; destruct Hpath|]);
    rewrite He in Hq;
    table_entry Hn; injection Hn as <- Hv;
    (destruct Hv0 as [Hv0|Hv0]; rewrite Hv0 in Hv);
    apply (in_map fst) in Hq; cbn [fst] in Hq;
    hunt_key Hq Hv; cbn in Hq; intuition discriminate.
Qed.



(** What [listSites] sends. *)
Lemma listSites_params (self : DocsClient.t) (page : option Z) (w : World) :
  map (fun r => searchParams (url r))
      (issued w (snd (DocsClient.listSites self page w)))
  = [[("page",
       String_of_number (match page with Some p => p | None => 1 end))]].
Proof.
  unfold DocsClient.listSites.
  rewrite docs_request_issued. cbn [map].
  rewrite docs_options_url. unfold DocsClient.request_url.
  cbn [fold_left fst snd usable].
  destruct (String_of_number _ =? "")%string eqn:E; [|reflexivity].
  apply String.eqb_eq in E. now apply String_of_number_nonempty in E.
Qed.


End QueryParameters.



Section ZeroNumbers.
Context `{Platform}.

(** C9, as the code has it.  In every listing operation but [listSites], an
    optional number passed as [0] is handled as one left out: the operation
    is the same computation, and - for an identifier that holds no question
    mark - no request it issues carries a parameter of that name.
    [listSites] sends [page] whatever it is, [1] standing in for [undefined]
    only, so that [0] goes out as [page=0]; the value is the decimal text of
    the page for a safe integer. *)
Theorem zero_is_omitted_except_by_listSites :
  (forall (self : DocsClient.t) (o : DocsClient.op),
      is_listSites o = false ->
      DocsClient.call self (docs_omit_zero o) = DocsClient.call self o
      /\ forall (n : string) (w : World) (r : Request),
           occurs "?" (path_id o) = false ->
           In (n, Some 0) (docs_numbers o) ->
           In r (issued w (snd (DocsClient.call self o w))) ->
           ~ In n (param_names r))
  /\
  (forall o : InboxClient.op,
      InboxClient.call (inbox_omit_zero o) = InboxClient.call o
      /\ forall (n : string) (s : InboxClient.State) (r : Request),
           In (n, Some 0) (inbox_numbers o) ->
           In r (issued (InboxClient.world s)
                        (InboxClient.world (snd (InboxClient.call o s)))) ->
           ~ In n (param_names r))
  /\
  (forall (self : DocsClient.t) (page : option Z) (w : World),
      match page with Some p => safe_integer p | None => True end ->
      map (fun r => searchParams (url r))
          (issued w (snd (DocsClient.listSites self page w)))
      = [[("page",
           String_of_number (match page with Some p => p | None => 1 end))]]).
Proof.
  split; [|split].
  - intros self o Ho. split.
    + destruct o; try reflexivity; try discriminate Ho;
        try (destruct params as [params|]; [|reflexivity]);
        docs_method; cbn;
        rewrite ?set_number_drop_zero; reflexivity.
    + intros n w r Hid Hn Hr.
      exact (docs_number_absent self o n (Some 0) w r Ho Hid Hn
               (or_intror eq_refl) Hr).
  - intros o. split.
    + destruct o; try reflexivity;
        try (destruct params as [params|]; [|reflexivity]);
        cbv beta iota zeta delta
          [InboxClient.call InboxClient.listConversations
           InboxClient.listCustomers InboxClient.listMailboxes
           InboxClient.listUsers InboxClient.listTags inbox_omit_zero];
        cbn; rewrite ?set_number_drop_zero; reflexivity.
    + intros n s r Hn Hr.
      exact (inbox_number_absent o n (Some 0) s r Hn (or_intror eq_refl) Hr).
  - intros self page w _. apply listSites_params.
Qed.

End ZeroNumbers.

(** C9, witness: listing collections with page [0], and listing sites with
    page [3]. *)
Lemma zero_is_omitted_except_by_listSites_witness :
  let params := DocsClient.Build_ListCollectionsParams
                  (Some 0) (Some "5f1a") None None None in
  let o := DocsClient.ListCollections (Some params) in
  let w := world_at 0 [respond 200 "{}"] in
  (is_listSites o = false /\ occurs "?" (path_id o) = false
   /\ In ("page", Some 0) (docs_numbers o) /\ safe_integer 3)
  /\ @DocsClient.call (stub 3600) (DocsClient.new "key") (docs_omit_zero o)
     = @DocsClient.call (stub 3600) (DocsClient.new "key") o
  /\ (forall r : Request,
        In r (issued w (snd (@DocsClient.call (stub 3600)
                               (DocsClient.new "key") o w))) ->
        ~ In "page" (param_names r))
  /\ map (fun r => searchParams (url r))
       (issued w (snd (@DocsClient.listSites (stub 3600)
                         (DocsClient.new "key") (Some 3) w)))
     = [[("page", "3")]].
Proof.
  intros params o w.
  assert (Hin : In ("page", Some 0) (docs_numbers o)) by now left.
  assert (Hsafe : safe_integer 3) by (unfold safe_integer; lia).
  destruct (@zero_is_omitted_except_by_listSites (stub 3600))
    as (Hdocs & _ & Hsites).
  destruct (Hdocs (DocsClient.new "key") o eq_refl) as [Hsame Habsent].
  split; [repeat split; first [reflexivity | exact Hin | apply Hsafe]|].
  split; [exact Hsame|]. split.
  - intros r. exact (Habsent "page" w r eq_refl Hin).
  - exact (Hsites (DocsClient.new "key") (Some 3) w Hsafe).
Defined.

(** C9, as stated, fails: [listSites] with page [0] issues a request that
    carries [page], with the value [0]. *)
Lemma zero_page_counterexample :
  ~ (forall (P : Platform) (self : DocsClient.t) (o : DocsClient.op)
            (w : World) (n : string) (r : Request),
        In (n, Some 0) (docs_numbers o) ->
        In r (issued w (snd (DocsClient.call self o w))) ->
        ~ In n (param_names r)).
Proof.
  intros C.
  apply (C (stub 3600) (DocsClient.new "key") (DocsClient.ListSites (Some 0))
           (world_at 0 [respond 200 "{}"]) "page" _
           (or_introl eq_refl) (or_introl eq_refl)).
  now left.
Qed.

(* ================================================================== *)
(** ** More on query parameters                                         *)
(* ================================================================== *)

Section QueryObjects.
Context `{Platform}.

(** X1.  Given a query object with distinct keys and a path that brings no
    query of its own, [request] sends exactly the usable entries of the
    object, each once and in the order of the object: for the Docs client in
    its one request, for the Inbox client in every request other than the
    token exchange. *)
Theorem usable_parameters_are_sent_in_order :
  forall (qp : object qvalue) (p : string),
    NoDup (map fst qp) ->
    occurs "?" p = false ->
    (forall self m b (w : World),
        map (fun r => searchParams (url r))
            (issued w (snd (DocsClient.request self m p b (Some qp) w)))
        = [sendable qp])
    /\
    (forall m b (s : InboxClient.State) (r : Request),
        In r (issued (InboxClient.world s)
                (InboxClient.world (snd (InboxClient.request m p b (Some qp) s)))) ->
        r = InboxClient.token_request (InboxClient.this s)
        \/ searchParams (url r) = sendable qp).
Proof.
  intros qp p Hnd Hp. split.
  - intros self m b w. rewrite docs_request_issued. cbn [map].
    rewrite docs_options_url, docs_url_exact;
      [reflexivity|now apply docs_path_no_query|exact Hnd].
  - intros m b s r Hin.
    destruct (inbox_request_issues m p b (Some qp) s)
      as (pre & post & Hl & Hpre & Hpost).
    rewrite Hl in Hin. apply in_app_or in Hin as [Hin|Hin].
    + destruct Hpre as [->| ->]; [destruct Hin|].
      destruct Hin as [<-|[]]. now left.
    + destruct Hpost as [->|(token & ->)]; [destruct Hin|].
      destruct Hin as [<-|[]]. right.
      rewrite inbox_options_url, inbox_url_exact;
        [reflexivity|now apply inbox_path_no_query|exact Hnd].
Qed.

(** X2.  No request of an operation names a query parameter twice: for a
    Docs operation whose identifier holds no question mark, and for every
    Inbox operation. *)
Theorem no_parameter_is_sent_twice :
  (forall (self : DocsClient.t) (o : DocsClient.op) (w : World) (r : Request),
      occurs "?" (path_id o) = false ->
      In r (issued w (snd (DocsClient.call self o w))) ->
      NoDup (param_names r))
  /\
  (forall (o : InboxClient.op) (s : InboxClient.State) (r : Request),
      In r (issued (InboxClient.world s)
                   (InboxClient.world (snd (InboxClient.call o s)))) ->
      NoDup (param_names r)).
Proof.
  split.
  - intros self o w r Hid.
    destruct (docs_call_url self o Hid) as (m & p & b & q & -> & Hq & Hpath).
    rewrite docs_request_issued. intros [<-|[]].
    unfold param_names. rewrite docs_options_url.
    destruct Hpath as [E|[-> E]].
    + destruct q as [qp|].
      * rewrite docs_url_exact; [|exact E|now apply Hq].
        apply sendable_NoDup. now apply Hq.
      * unfold DocsClient.request_url. rewrite E. constructor.
    + unfold DocsClient.request_url. rewrite E.
      repeat constructor. intros [].
  - intros o s r.
    destruct (inbox_call_url o) as (m & p & b & q & -> & Hq & Hpath).
    destruct (inbox_request_issues m p b q s)
      as (pre & post & -> & Hpre & Hpost).
    intros Hin. apply in_app_or in Hin as [Hin|Hin].
    + destruct Hpre as [->| ->]; [destruct Hin|].
      destruct Hin as [<-|[]]. constructor.
    + destruct Hpost as [->|(token & ->)]; [destruct Hin|].
      destruct Hin as [<-|[]].
      unfold param_names. rewrite inbox_options_url.
      destruct q as [qp|].
      * rewrite inbox_url_exact; [|exact Hpath|now apply Hq].
        apply sendable_NoDup. now apply Hq.
      * unfold InboxClient.request_url. rewrite Hpath. constructor.
Qed.

End QueryObjects.

(** X1, witness: four entries, two of them usable. *)
Lemma usable_parameters_are_sent_in_order_witness :
  let qp := [("page", QString "2"); ("status", QString "");
             ("tag", QNull); ("query", QString "refund")] in
  let w := world_at 0 [respond 200 "{}"] in
  (NoDup (map fst qp) /\ occurs "?" "/collections" = false)
  /\ map (fun r => searchParams (url r))
       (issued w
          (snd (@DocsClient.request (stub 3600) (DocsClient.new "key")
                  "GET" "/collections" None (Some qp) w)))
     = [[("page", "2"); ("query", "refund")]].
Proof.
  intros qp w.
  assert (Hnd : NoDup (map fst qp)).
  { repeat constructor; cbn; intuition discriminate. }
  split; [split; [exact Hnd|reflexivity]|].
  exact (proj1 (@usable_parameters_are_sent_in_order (stub 3600) qp
                  "/collections" Hnd eq_refl)
           (DocsClient.new "key") "GET" None w).
Defined.

Section Forwarding.
Context `{Platform}.

Lemma docs_entry_sent self m p b (qp : object qvalue) (w : World)
    (r : Request) (k v : string) :
  In r (issued w (snd (DocsClient.request self m p b (Some qp) w))) ->
  NoDup (map fst qp) ->
  In (k, QString v) qp ->
  v <> "" ->
  In (k, v) (searchParams (url r)).
Proof.
  rewrite docs_request_issued. intros [<-|[]] Hnd Hin Hv.
  rewrite docs_options_url. unfold DocsClient.request_url.
  apply loop_keeps; [exact Hnd|]. right. exists (QString v).
  split; [exact Hin|]. cbn [usable].
  destruct (v =? "")%string eqn:E; [|reflexivity].
  now apply String.eqb_eq in E.
Qed.

Lemma inbox_entry_sent m p b (qp : object qvalue) (s : InboxClient.State)
    (r : Request) (k v : string) :
  In r (issued (InboxClient.world s)
          (InboxClient.world (snd (InboxClient.request m p b (Some qp) s)))) ->
  is_token_exchange r = false ->
  NoDup (map fst qp) ->
  In (k, QString v) qp ->
  v <> "" ->
  In (k, v) (searchParams (url r)).
Proof.
  intros Hr Hx Hnd Hin Hv.
  destruct (inbox_request_issues m p b (Some qp) s)
    as (pre & post & Hl & Hpre & Hpost).
  rewrite Hl in Hr. apply in_app_or in Hr as [Hr|Hr].
  - destruct Hpre as [->| ->]; [destruct Hr|].
    destruct Hr as [<-|[]]. discriminate Hx.
  - destruct Hpost as [->|(token & ->)]; [destruct Hr|].
    destruct Hr as [<-|[]].
    rewrite inbox_options_url. unfold InboxClient.request_url.
    apply loop_keeps; [exact Hnd|]. right. exists (QString v).
    split; [exact Hin|]. cbn [usable].
    destruct (v =? "")%string eqn:E; [|reflexivity].
    now apply String.eqb_eq in E.
Qed.

(** X3.  What an operation is given, it sends: a string parameter with a
    non-empty value and a numeric parameter other than [0] appear in the
    request under their name, a safe integer as its decimal text - in the
    one request of a Docs operation, and in the request an Inbox operation
    issues besides the token exchange. *)
Theorem given_parameters_are_sent :
  (forall (self : DocsClient.t) (o : DocsClient.op) (w : World) (r : Request)
          (n : string),
      In r (issued w (snd (DocsClient.call self o w))) ->
      (forall v : string,
          In (n, Some v) (docs_strings o) -> v <> "" ->
          In (n, v) (searchParams (url r)))
      /\ (forall z : Z,
             In (n, Some z) (docs_numbers o) -> z <> 0 -> safe_integer z ->
             In (n, String_of_number z) (searchParams (url r))))
  /\
  (forall (o : InboxClient.op) (s : InboxClient.State) (r : Request)
          (n : string),
      In r (issued (InboxClient.world s)
                   (InboxClient.world (snd (InboxClient.call o s)))) ->
      is_token_exchange r = false ->
      (forall v : string,
          In (n, Some v) (inbox_strings o) -> v <> "" ->
          In (n, v) (searchParams (url r)))
      /\ (forall z : Z,
             In (n, Some z) (inbox_numbers o) -> z <> 0 -> safe_integer z ->
             In (n, String_of_number z) (searchParams (url r)))).
Proof.
  split.
  - intros self o w r n Hr. split.
    + intros v Hn Hv. revert Hr.
      destruct o; cbn [docs_strings In] in Hn; try (destruct Hn; fail);
        docs_method; intros Hr;
        (eapply docs_entry_sent; [exact Hr|distinct_keys| |exact Hv]);
        table_entry Hn;
        injection Hn as <- Hq; rewrite ?Hq; find_entry Hv.
    + intros z Hn Hz _. revert Hr.
      destruct o; cbn [docs_numbers In] in Hn; try (destruct Hn; fail);
        docs_method; intros Hr;
        (eapply docs_entry_sent;
         [exact Hr|distinct_keys| |apply String_of_number_nonempty]);
        table_entry Hn;
        injection Hn as <- Hq; rewrite ?Hq; find_entry Hz.
  - intros o s r n Hr Hx. split.
    + intros v Hn Hv. revert Hr.
      destruct o; cbn [inbox_strings In] in Hn; try (destruct Hn; fail);
        cbv beta iota zeta delta
          [InboxClient.call InboxClient.listConversations
           InboxClient.getConversation InboxClient.listCustomers];
        intros Hr;
        (eapply inbox_entry_sent; [exact Hr|exact Hx|distinct_keys| |exact Hv]);
        table_entry Hn;
        injection Hn as <- Hq; rewrite ?Hq; find_entry Hv.
    + intros z Hn Hz _. revert Hr.
      destruct o; cbn [inbox_numbers In] in Hn; try (destruct Hn; fail);
        cbv beta iota zeta delta
          [InboxClient.call InboxClient.listConversations
           InboxClient.listCustomers InboxClient.listMailboxes
           InboxClient.listUsers InboxClient.listTags];
        intros Hr;
        (eapply inbox_entry_sent;
         [exact Hr|exact Hx|distinct_keys| |apply String_of_number_nonempty]);
        table_entry Hn;
        injection Hn as <- Hq; rewrite ?Hq; find_entry Hz.
Qed.

(** X4.  An optional string parameter passed as the empty string is handled
    as one left out: the operation is the same computation, in both clients. *)
Theorem blank_is_omitted :
  (forall (self : DocsClient.t) (o : DocsClient.op),
      DocsClient.call self (docs_omit_blank o) = DocsClient.call self o)
  /\
  (forall o : InboxClient.op,
      InboxClient.call (inbox_omit_blank o) = InboxClient.call o).
Proof.
  split.
  - intros self o.
    destruct o; try reflexivity;
      try (destruct params as [params|]; [|reflexivity]);
      docs_method; cbn; rewrite ?set_string_drop_blank; reflexivity.
  - intros o.
    destruct o; try reflexivity;
      try (destruct params as [params|]; [|reflexivity]);
      cbv beta iota zeta delta
        [InboxClient.call InboxClient.listConversations
         InboxClient.getConversation InboxClient.listCustomers
         inbox_omit_blank];
      cbn; rewrite ?set_string_drop_blank; reflexivity.
Qed.

End Forwarding.

(** X3, witness: listing the published articles of a collection, 25 to a
    page. *)
Lemma given_parameters_are_sent_witness :
  let params := DocsClient.Build_ListArticlesParams
                  None (Some "published") None None (Some 25) in
  let o := DocsClient.ListArticles "5f1a" DocsClient.collection (Some params) in
  let w := world_at 0 [respond 200 "{}"] in
  (In ("status", Some "published") (docs_strings o)
   /\ "published" <> ""
   /\ In ("pageSize", Some 25) (docs_numbers o)
   /\ 25 <> 0
   /\ safe_integer 25)
  /\ forall r : Request,
       In r (issued w (snd (@DocsClient.call (stub 3600)
                              (DocsClient.new "key") o w))) ->
       In ("status", "published") (searchParams (url r))
       /\ In ("pageSize", "25") (searchParams (url r)).
Proof.
  intros params o w.
  assert (Hs : In ("status", Some "published") (docs_strings o)) by now left.
  assert (Hn : In ("pageSize", Some 25) (docs_numbers o)) by (right; now left).
  assert (Hv : "published" <> "") by discriminate.
  assert (Hz : 25 <> 0) by discriminate.
  assert (Hsafe : safe_integer 25) by (unfold safe_integer; lia).
  split; [now repeat split|].
  intros r Hr. split.
  - exact (proj1 (proj1 (@given_parameters_are_sent (stub 3600))
                    (DocsClient.new "key") o w r "status" Hr)
             "published" Hs Hv).
  - exact (proj2 (proj1 (@given_parameters_are_sent (stub 3600))
                    (DocsClient.new "key") o w r "pageSize" Hr)
             25 Hn Hz Hsafe).
Defined.

(* ================================================================== *)
(** ** Request bodies                                                   *)
(* ================================================================== *)

Section Bodies.
Context `{Platform}.

(** The request an Inbox [request] issues besides the token exchange. *)
Lemma inbox_api_request m p b q (s : InboxClient.State) (r : Request) :
  In r (issued (InboxClient.world s)
          (InboxClient.world (snd (InboxClient.request m p b q s)))) ->
  is_token_exchange r = false ->
  exists token : string,
    r = InboxClient.request_options token m b (InboxClient.request_url p q).
Proof.
  intros Hr Hx.
  destruct (inbox_request_issues m p b q s)
    as (pre & post & Hl & Hpre & Hpost).
  rewrite Hl in Hr. apply in_app_or in Hr as [Hr|Hr].
  - destruct Hpre as [->| ->]; [destruct Hr|].
    destruct Hr as [<-|[]]. discriminate Hx.
  - destruct Hpost as [->|(token & ->)]; [destruct Hr|].
    destruct Hr as [<-|[]]. now exists token.
Qed.

(** X5.  Reads and deletes carry no body and no content type; creates and
    updates carry both.  Every Docs operation uses GET, POST, PUT or DELETE,
    every Inbox operation one of these or PATCH; a GET or DELETE request has
    no body and no [Content-Type] header, and a POST, PUT or PATCH request
    has a body and the header [Content-Type: application/json]. *)
Theorem bodies_travel_with_writes_only :
  (forall (self : DocsClient.t) (o : DocsClient.op) (w : World) (r : Request),
      In r (issued w (snd (DocsClient.call self o w))) ->
      ((method r = "GET" \/ method r = "DELETE")
       /\ body r = None
       /\ ~ In "Content-Type" (map fst (headers r)))
      \/
      ((method r = "POST" \/ method r = "PUT")
       /\ body r <> None
       /\ In ("Content-Type", "application/json") (headers r)))
  /\
  (forall (o : InboxClient.op) (s : InboxClient.State) (r : Request),
      In r (issued (InboxClient.world s)
                   (InboxClient.world (snd (InboxClient.call o s)))) ->
      is_token_exchange r = false ->
      ((method r = "GET" \/ method r = "DELETE")
       /\ body r = None
       /\ ~ In "Content-Type" (map fst (headers r)))
      \/
      ((method r = "POST" \/ method r = "PUT" \/ method r = "PATCH")
       /\ body r <> None
       /\ In ("Content-Type", "application/json") (headers r))).
Proof.
  split.
  - intros self o w r.
    destruct o; docs_method; rewrite docs_request_issued; intros [<-|[]];
      unfold DocsClient.request_options; cbn;
      first
        [ left; split; [auto|]; split; [reflexivity|];
          intros [E|[E|[]]]; discriminate E
        | right; split; [auto|]; split; [discriminate|]; auto ].
  - intros o s r Hr Hx. revert Hr.
    destruct o;
      cbv beta iota zeta delta
        [InboxClient.call InboxClient.listConversations
         InboxClient.getConversation InboxClient.createConversation
         InboxClient.updateConversation InboxClient.deleteConversation
         InboxClient.listThreads InboxClient.createReplyThread
         InboxClient.createNoteThread InboxClient.createPhoneThread
         InboxClient.listCustomers InboxClient.getCustomer
         InboxClient.createCustomer InboxClient.updateCustomer
         InboxClient.listMailboxes InboxClient.getMailbox
         InboxClient.listUsers InboxClient.getUser
         InboxClient.getResourceOwner InboxClient.listTags];
      intros Hr; destruct (inbox_api_request _ _ _ _ _ _ Hr Hx) as (token & ->);
      unfold InboxClient.request_options; cbn;
      first
        [ left; split; [auto|]; split; [reflexivity|];
          intros [E|[E|[]]]; discriminate E
        | right; split; [auto|]; split; [discriminate|]; auto ].
Qed.

End Bodies.

(* ================================================================== *)
(** ** The life of the token                                            *)
(* ================================================================== *)

Section TokenLife.
Context `{Platform}.
Import InboxClient.

(** Every way the exchange can end: its one request goes out; either an
    error comes back and [this] is untouched, or the token and its expiry
    are stored. *)
Lemma exchange_token_cases (s : State) :
  log (world (snd (exchange_token s)))
  = (log (world s) ++ [token_request (this s)])%list
  /\ clock (world (snd (exchange_token s))) = clock (world s)
  /\ ((exists e : exn,
         fst (exchange_token s) = inl e /\ this (snd (exchange_token s)) = this s)
      \/ (exists data : TokenData,
            fst (exchange_token s) = inr (access_token data)
            /\ this (snd (exchange_token s))
               = mk (appId (this s)) (appSecret (this s))
                    (Some (access_token data))
                    (clock (world s) (ticks (world s))
                     + (expires_in data - 60) * 1000))).
Proof.
  unfold exchange_token, bind, gets, lift, fetch.
  destruct (pending (world s)) as [|[r|reason] rest]; cbn;
    try (repeat split; left; eexists; split; reflexivity).
  destruct (negb (ok r)); cbn;
    [repeat split; left; eexists; split; reflexivity|].
  destruct (response_json (text r)) as [m|data]; cbn.
  - repeat split; left; eexists; split; reflexivity.
  - repeat split. right. exists data. split; reflexivity.
Qed.

Lemma fresh_has_token (s : State) :
  fresh s = true -> exists token, accessToken (this s) = Some token.
Proof.
  unfold fresh. destruct (accessToken (this s)) as [token|]; [|discriminate].
  intros _. now exists token.
Qed.

(** Every way [getAccessToken] can end. *)
Lemma getAccessToken_cases (s : State) :
  let s1 := snd (getAccessToken s) in
  clock (world s1) = clock (world s)
  /\ ((fresh s = true
       /\ (exists token, fst (getAccessToken s) = inr token
                         /\ accessToken (this s) = Some token)
       /\ this s1 = this s
       /\ log (world s1) = log (world s))
      \/ (fresh s = false
          /\ log (world s1) = (log (world s) ++ [token_request (this s)])%list
          /\ ((exists e : exn,
                 fst (getAccessToken s) = inl e /\ this s1 = this s)
              \/ (exists (token : string) (expiry : Z),
                    fst (getAccessToken s) = inr token
                    /\ this s1
                       = mk (appId (this s)) (appSecret (this s))
                            (Some token) expiry)))).
Proof.
  cbv zeta. destruct (fresh s) eqn:Hf.
  - destruct (fresh_has_token _ Hf) as (token & Ht).
    rewrite (getAccessToken_fresh _ _ Ht Hf). cbn [fst snd].
    rewrite after_check_clock, after_check_this, after_check_log.
    split; [reflexivity|]. left. repeat split. now exists token.
  - rewrite (getAccessToken_stale _ Hf).
    destruct (exchange_token_cases (after_check s)) as (Hl & Hc & Ht).
    rewrite after_check_log, after_check_this in Hl.
    rewrite after_check_clock in Hc. rewrite after_check_this in Ht.
    split; [exact Hc|]. right. split; [reflexivity|]. split; [exact Hl|].
    destruct Ht as [(e & He & Hthis)|(data & Hd & Hthis)].
    + left. now exists e.
    + right. eexists (access_token data), _. split; [exact Hd|exact Hthis].
Qed.

(** X6.  Without a usable token - none cached, an empty one, or the clock at
    or past the stored expiry - every operation begins with a token exchange. *)
Theorem expired_token_is_renewed :
  forall (s : State) (o : op),
    accessToken (this s) = None
    \/ accessToken (this s) = Some ""
    \/ tokenExpiry (this s) <= clock (world s) (ticks (world s)) ->
    exists more : list Request,
      issued (world s) (world (snd (call o s)))
      = token_request (this s) :: more.
Proof.
  intros s o Hs.
  assert (Hf : fresh s = false).
  { unfold fresh. destruct Hs as [-> | [-> | Hexp]]; [reflexivity..|].
    apply andb_false_iff. right. now apply Z.ltb_ge. }
  destruct (inbox_call_request o) as (m & p & b & q & ->).
  destruct (getAccessToken_cases s) as (_ & [(Hf' & _)|(_ & Hl & _)]);
    [congruence|].
  destruct (getAccessToken s) as [[e|token] s1] eqn:Hg; cbn [snd] in Hl.
  - rewrite (inbox_request_no_token _ _ _ _ _ _ _ Hg). cbn [snd].
    exists []. now apply issued_app.
  - destruct (inbox_request_after_token m p b q _ _ _ Hg) as (Hl2 & _).
    eexists. apply issued_app. rewrite Hl2, Hl, <- app_assoc. reflexivity.
Qed.

(** X7.  A request that an operation issues besides the token exchange
    carries no credential but the one the client holds: when the client holds
    a token once the operation is over - the cached one, or the one just
    granted - that token is the Bearer credential of the request. *)
Theorem requests_carry_the_held_token :
  forall (o : op) (s : State) (r : Request) (held : string),
    In r (issued (world s) (world (snd (call o s)))) ->
    is_token_exchange r = false ->
    accessToken (this (snd (call o s))) = Some held ->
    In ("Authorization", ("Bearer " ++ held)%string) (headers r).
Proof.
  intros o s r held Hr Hx Hend.
  destruct (inbox_call_request o) as (m & p & b & q & Hc).
  rewrite Hc in Hr, Hend.
  destruct (getAccessToken s) as [[e|token] s1] eqn:Hg.
  - destruct (getAccessToken_cases s) as (_ & Hcases).
    rewrite Hg in Hcases. cbn [fst snd] in Hcases.
    rewrite (inbox_request_no_token _ _ _ _ _ _ _ Hg) in Hr. cbn [snd] in Hr.
    destruct Hcases as [(_ & (t & Ht & _) & _)|(_ & Hl & _)]; [discriminate Ht|].
    rewrite (issued_app _ _ _ Hl) in Hr. destruct Hr as [<-|[]].
    discriminate Hx.
  - destruct (inbox_request_after_token m p b q _ _ _ Hg) as (Hl2 & Hthis & _).
    destruct (getAccessToken_cases s) as (_ & Hcases).
    rewrite Hg in Hcases. cbn [fst snd] in Hcases.
    assert (Hheld : accessToken (this s1) = Some token).
    { destruct Hcases
        as [(_ & (t & [= ->] & Ht) & Hs1 & _)
           |(_ & _ & [(e & He & _)|(t & x & [= ->] & Hs1)])].
      - now rewrite Hs1.
      - discriminate He.
      - now rewrite Hs1. }
    rewrite Hthis, Hheld in Hend. injection Hend as <-.
    assert (Hr' : r = token_request (this s)
                  \/ r = request_options token m b (request_url p q)).
    { destruct Hcases as [(_ & _ & _ & Hl)|(_ & Hl & _)]; rewrite Hl in Hl2.
      - rewrite (issued_app _ _ _ Hl2) in Hr. destruct Hr as [<-|[]]. now right.
      - rewrite <- app_assoc in Hl2. rewrite (issued_app _ _ _ Hl2) in Hr.
        destruct Hr as [<-|[<-|[]]]; [now left|now right]. }
    destruct Hr' as [-> | ->]; [discriminate Hx|apply bearer_header].
Qed.

(** X8.  The fields of the client are written by a token exchange and by
    nothing else: over any operation the app id and the secret stay, and when
    no token exchange is issued every field of the client is what it was. *)
Theorem cache_is_written_by_a_grant_only :
  forall (o : op) (s : State),
    let s' := snd (call o s) in
    appId (this s') = appId (this s)
    /\ appSecret (this s') = appSecret (this s)
    /\ (token_exchanges (issued (world s) (world s')) = 0%nat ->
        this s' = this s).
Proof.
  intros o s s'. subst s'.
  destruct (inbox_call_request o) as (m & p & b & q & ->).
  assert (Hs2 : exists s1 l,
             this (snd (request m p b q s)) = this s1
             /\ s1 = snd (getAccessToken s)
             /\ log (world (snd (request m p b q s)))
                = (log (world s1) ++ l)%list).
  { destruct (getAccessToken s) as [[e|token] s1] eqn:Hg.
    - rewrite (inbox_request_no_token _ _ _ _ _ _ _ Hg).
      exists s1, []. now rewrite app_nil_r.
    - destruct (inbox_request_after_token m p b q _ _ _ Hg) as (Hl & Ht & _).
      exists s1. eexists. repeat split; [exact Ht|exact Hl]. }
  destruct Hs2 as (s1 & l & Hthis & -> & Hl).
  rewrite Hthis.
  destruct (getAccessToken_cases s)
    as (_ & [(_ & _ & Hs1 & _)|(_ & Hl1 & [(e & _ & Hs1)|(t & x & _ & Hs1)])]);
    rewrite Hs1; cbn [appId appSecret accessToken]; repeat split; auto;
    try discriminate.
  intros Hx. exfalso. rewrite Hl1, <- app_assoc in Hl.
  rewrite (issued_app _ _ _ Hl) in Hx. unfold token_exchanges in Hx.
  cbn [app filter] in Hx. rewrite token_request_is_exchange in Hx.
  discriminate Hx.
Qed.

(** X9.  A token response with a 2xx status whose text cannot be read fails
    the operation with the reader's [SyntaxError]; the token exchange is the
    only request issued and the client fields are what they were. *)
Theorem unreadable_token_response_fails :
  forall (o : op) (s : State) (r : Response) (rest : list outcome)
         (m : string),
    fresh s = false ->
    pending (world s) = Responds r :: rest ->
    ok r = true ->
    response_json (text r) = inl m ->
    fst (call o s) = inl (SyntaxError m)
    /\ this (snd (call o s)) = this s
    /\ issued (world s) (world (snd (call o s))) = [token_request (this s)].
Proof.
  intros o s r rest m Hf Hp Hok Hj.
  destruct (inbox_call_request o) as (m' & p & b & q & ->).
  assert (Hg : getAccessToken s
               = (inl (SyntaxError m),
                  mkState (this s)
                    (mkWorld (clock (world (after_check s)))
                       (ticks (world (after_check s))) rest
                       (log (world s) ++ [token_request (this s)])))).
  { rewrite (getAccessToken_stale _ Hf).
    rewrite <- after_check_pending in Hp.
    unfold exchange_token, bind, gets, lift.
    rewrite (fetch_responds _ _ _ _ Hp), Hok. cbn [negb].
    now rewrite Hj, after_check_this, after_check_log. }
  rewrite (inbox_request_no_token _ _ _ _ _ _ _ Hg). cbn [fst snd this world].
  repeat split. now apply issued_app.
Qed.

(** X10.  When the network rejects a fetch, the operation fails with the
    [TypeError] of the rejection.  A Docs operation has issued its one
    request.  An Inbox operation whose token exchange is rejected has issued
    nothing else and leaves the client fields as they were; one whose own
    request is rejected keeps the token it had obtained. *)
Theorem rejected_fetch_fails_the_operation :
  forall (reason : string) (rest : list outcome),
    (forall (self : DocsClient.t) (o : DocsClient.op) (w : World),
        pending w = Rejects reason :: rest ->
        fst (DocsClient.call self o w) = inl (TypeError reason)
        /\ length (issued w (snd (DocsClient.call self o w))) = 1%nat)
    /\
    (forall (o : op) (s : State),
        fresh s = false ->
        pending (world s) = Rejects reason :: rest ->
        fst (call o s) = inl (TypeError reason)
        /\ this (snd (call o s)) = this s
        /\ issued (world s) (world (snd (call o s)))
           = [token_request (this s)])
    /\
    (forall (o : op) (s s1 : State) (token : string),
        getAccessToken s = (inr token, s1) ->
        pending (world s1) = Rejects reason :: rest ->
        fst (call o s) = inl (TypeError reason)
        /\ this (snd (call o s)) = this s1).
Proof.
  intros reason rest. split; [|split].
  - intros self o w Hp.
    destruct (docs_call_request self o) as (m & p & b & q & ->).
    split; [|now rewrite docs_request_issued].
    unfold DocsClient.request, bind, fetch. now rewrite Hp.
  - intros o s Hf Hp.
    destruct (inbox_call_request o) as (m & p & b & q & ->).
    assert (Hg : getAccessToken s
                 = (inl (TypeError reason),
                    mkState (this s)
                      (mkWorld (clock (world (after_check s)))
                         (ticks (world (after_check s))) rest
                         (log (world s) ++ [token_request (this s)])))).
    { rewrite (getAccessToken_stale _ Hf).
      rewrite <- after_check_pending in Hp.
      unfold exchange_token, bind, gets, lift, fetch. rewrite Hp. cbn [tl].
      now rewrite after_check_this, after_check_log. }
    rewrite (inbox_request_no_token _ _ _ _ _ _ _ Hg). cbn [fst snd this world].
    repeat split. now apply issued_app.
  - intros o s s1 token Hg Hp.
    destruct (inbox_call_request o) as (m & p & b & q & ->).
    rewrite (inbox_request_run _ _ _ _ _ _ _ Hg).
    unfold fetch. rewrite Hp. now split.
Qed.

End TokenLife.

(** X6, witness: a token that expired at 5000 met at time 9000. *)
Lemma expired_token_is_renewed_witness :
  let s := InboxClient.mkState (InboxClient.mk "app" "secret" (Some "old") 5000)
             (world_at 9000 [respond 200 "tok-2"; respond 200 "{}"]) in
  (InboxClient.accessToken (InboxClient.this s) = None
   \/ InboxClient.accessToken (InboxClient.this s) = Some ""
   \/ InboxClient.tokenExpiry (InboxClient.this s)
      <= clock (InboxClient.world s) (ticks (InboxClient.world s)))
  /\ exists more : list Request,
       issued (InboxClient.world s)
         (InboxClient.world
            (snd (@InboxClient.call (stub 3600) InboxClient.GetResourceOwner s)))
       = @InboxClient.token_request (stub 3600) (InboxClient.this s) :: more.
Proof.
  intros s.
  assert (Hs : InboxClient.accessToken (InboxClient.this s) = None
               \/ InboxClient.accessToken (InboxClient.this s) = Some ""
               \/ InboxClient.tokenExpiry (InboxClient.this s)
                  <= clock (InboxClient.world s) (ticks (InboxClient.world s))).
  { right. right. vm_compute. discriminate. }
  split; [exact Hs|].
  exact (@expired_token_is_renewed (stub 3600) s InboxClient.GetResourceOwner Hs).
Defined.

(** X7, witness: a new client reads user 7; the request that follows the
    token exchange carries the token just granted. *)
Lemma requests_carry_the_held_token_witness :
  let s := InboxClient.mkState (InboxClient.new "app" "secret")
             (world_at 1000000 [respond 200 "tok-1"; respond 200 "{}"]) in
  let o := InboxClient.GetUser 7 in
  let r := @InboxClient.request_options (stub 3600) "tok-1" "GET" None
             (InboxClient.request_url "/users/7" None) in
  (In r (issued (InboxClient.world s)
           (InboxClient.world (snd (@InboxClient.call (stub 3600) o s))))
   /\ is_token_exchange r = false
   /\ InboxClient.accessToken
        (InboxClient.this (snd (@InboxClient.call (stub 3600) o s)))
      = Some "tok-1")
  /\ In ("Authorization", "Bearer tok-1") (headers r).
Proof.
  intros s o r.
  assert (Hr : In r (issued (InboxClient.world s)
                       (InboxClient.world
                          (snd (@InboxClient.call (stub 3600) o s)))))
    by (right; now left).
  split; [split; [exact Hr|split; reflexivity]|].
  exact (@requests_carry_the_held_token (stub 3600) o s r "tok-1" Hr
           eq_refl eq_refl).
Defined.

(** X9, witness: the token endpoint answers 200 with no text. *)
Lemma unreadable_token_response_fails_witness :
  let s := InboxClient.mkState (InboxClient.new "app" "secret")
             (world_at 0 [respond 200 ""]) in
  let r := mkResponse 200 None "" in
  (fresh s = false
   /\ pending (InboxClient.world s) = [Responds r]
   /\ ok r = true
   /\ @response_json (stub 3600) (text r) = inl "Unexpected end of JSON input")
  /\ fst (@InboxClient.call (stub 3600) (InboxClient.ListTags None) s)
     = inl (SyntaxError "Unexpected end of JSON input")
  /\ InboxClient.this
       (snd (@InboxClient.call (stub 3600) (InboxClient.ListTags None) s))
     = InboxClient.this s.
Proof.
  intros s r.
  split; [repeat split; reflexivity|].
  destruct (@unreadable_token_response_fails (stub 3600)
              (InboxClient.ListTags None) s r [] "Unexpected end of JSON input"
              eq_refl eq_refl eq_refl eq_refl) as (Hres & Hthis & _).
  split; [exact Hres|exact Hthis].
Defined.

(** X10, witness: the network is down for a Docs read and for a token
    exchange. *)
Lemma rejected_fetch_fails_the_operation_witness :
  let w := world_at 0 [Rejects "getaddrinfo ENOTFOUND"] in
  let s := InboxClient.mkState (InboxClient.new "app" "secret") w in
  (pending w = [Rejects "getaddrinfo ENOTFOUND"] /\ fresh s = false)
  /\ fst (@DocsClient.call (stub 3600) (DocsClient.new "key")
            (DocsClient.GetSite "5f1a") w)
     = inl (TypeError "getaddrinfo ENOTFOUND")
  /\ fst (@InboxClient.call (stub 3600) InboxClient.GetResourceOwner s)
     = inl (TypeError "getaddrinfo ENOTFOUND").
Proof.
  intros w s.
  destruct (@rejected_fetch_fails_the_operation (stub 3600)
              "getaddrinfo ENOTFOUND" []) as (Hd & Hi & _).
  split; [split; reflexivity|]. split.
  - exact (proj1 (Hd (DocsClient.new "key") (DocsClient.GetSite "5f1a") w
                    eq_refl)).
  - exact (proj1 (Hi InboxClient.GetResourceOwner s eq_refl eq_refl)).
Defined.

(* ================================================================== *)
(** ** Handlers over configured clients                                 *)
(* ================================================================== *)

Section Envelopes.
Context `{Platform}.
Import Server.

(** A [docs_*] handler is the shared body around one client operation,
    followed by the answer the handler makes of its value. *)
Lemma docs_tool_shape (tool : Tool) (o : DocsClient.op) :
  docs_tool_op tool = Some o ->
  exists k : json -> Result,
    (forall p : Process,
        handler tool p
        = docs_handler
            (fun d => bind (DocsClient.call d o) (fun v => ret (k v))) p)
    /\ (confirms tool = false -> forall v, k v = textResult v)
    /\ (confirms tool = true ->
        exists message : string,
          forall v,
            k v = textResult (JObject [("success", JBool true);
                                       ("message", JString message)])).
Proof.
  destruct tool; try discriminate; intros [= <-];
    first
      [ exists textResult; split; [reflexivity|];
        split; [reflexivity|discriminate]
      | eexists (fun _ => textResult _); split; [reflexivity|];
        split; [discriminate|]; intros _; eexists; reflexivity ].
Qed.

Lemma inbox_tool_shape (tool : Tool) (o : InboxClient.op) :
  inbox_tool_op tool = Some o ->
  exists k : json -> Result,
    (forall p : Process,
        handler tool p
        = inbox_handler (bind (InboxClient.call o) (fun v => ret (k v))) p)
    /\ (confirms tool = false -> forall v, k v = textResult v)
    /\ (confirms tool = true ->
        exists message : string,
          forall v,
            k v = textResult (JObject [("success", JBool true);
                                       ("message", JString message)])).
Proof.
  destruct tool; try discriminate; intros [= <-];
    first
      [ exists textResult; split; [reflexivity|];
        split; [reflexivity|discriminate]
      | eexists (fun _ => textResult _); split; [reflexivity|];
        split; [discriminate|]; intros _; eexists; reflexivity ].
Qed.

(** The shared bodies over a client that is there. *)
Lemma docs_handler_on (o : DocsClient.op) (k : json -> Result) (p : Process)
    (client : DocsClient.t) :
  docs p = Some client ->
  docs_handler (fun d => bind (DocsClient.call d o) (fun v => ret (k v))) p
  = (inr match fst (DocsClient.call client o (net p)) with
         | inl e => errResult (inl e)
         | inr v => k v
         end,
     mkProcess (docs p) (inbox p) (snd (DocsClient.call client o (net p)))).
Proof.
  intros Hd. destruct p as [d i n]. cbn [docs] in Hd. subst d.
  unfold docs_handler, bind, gets, try_catch, with_docs, ret.
  cbn [docs inbox net].
  destruct (DocsClient.call client o n) as [[e|v] w']; reflexivity.
Qed.

Lemma inbox_handler_on (o : InboxClient.op) (k : json -> Result) (p : Process)
    (client : InboxClient.t) :
  inbox p = Some client ->
  let run := InboxClient.call o (InboxClient.mkState client (net p)) in
  inbox_handler (bind (InboxClient.call o) (fun v => ret (k v))) p
  = (inr match fst run with
         | inl e => errResult (inl e)
         | inr v => k v
         end,
     mkProcess (docs p) (Some (InboxClient.this (snd run)))
       (InboxClient.world (snd run))).
Proof.
  intros Hi. cbv zeta. destruct p as [d i n]. cbn [inbox] in Hi. subst i.
  unfold inbox_handler, bind, gets, try_catch, with_inbox, ret.
  cbn [docs inbox net].
  destruct (InboxClient.call o _) as [[e|v] s']; reflexivity.
Qed.

(** X11.  What a handler makes of its client.  With the client configured,
    a handler runs its one operation on it and leaves the process with the
    world (and, for the Inbox, the client fields) the operation left.  An
    error of the operation becomes the error envelope of that error; a value
    becomes the text envelope of the value - or, for the deletes and
    [docs_save_draft], a confirmation fixed by the invocation alone, whatever
    the server answered. *)
Theorem handler_wraps_its_operation :
  (forall (tool : Tool) (o : DocsClient.op),
      docs_tool_op tool = Some o ->
      exists message : string,
        forall (p : Process) (client : DocsClient.t),
          docs p = Some client ->
          let run := DocsClient.call client o (net p) in
          snd (handler tool p) = mkProcess (docs p) (inbox p) (snd run)
          /\ fst (handler tool p)
             = inr match fst run with
                   | inl e => errResult (inl e)
                   | inr v =>
                       if confirms tool
                       then textResult (JObject [("success", JBool true);
                                                 ("message", JString message)])
                       else textResult v
                   end)
  /\
  (forall (tool : Tool) (o : InboxClient.op),
      inbox_tool_op tool = Some o ->
      exists message : string,
        forall (p : Process) (client : InboxClient.t),
          inbox p = Some client ->
          let run := InboxClient.call o (InboxClient.mkState client (net p)) in
          snd (handler tool p)
          = mkProcess (docs p) (Some (InboxClient.this (snd run)))
              (InboxClient.world (snd run))
          /\ fst (handler tool p)
             = inr match fst run with
                   | inl e => errResult (inl e)
                   | inr v =>
                       if confirms tool
                       then textResult (JObject [("success", JBool true);
                                                 ("message", JString message)])
                       else textResult v
                   end).
Proof.
  split.
  - intros tool o Ho.
    destruct (docs_tool_shape tool o Ho) as (k & Hk & Hret & Hconf).
    destruct (confirms tool) eqn:Hc.
    + destruct (Hconf eq_refl) as (message & Hm). exists message.
      intros p client Hd run. subst run.
      rewrite Hk, (docs_handler_on o k p client Hd). cbn [fst snd].
      split; [reflexivity|].
      destruct (fst (DocsClient.call client o (net p))); [reflexivity|].
      now rewrite Hm.
    + exists "". intros p client Hd run. subst run.
      rewrite Hk, (docs_handler_on o k p client Hd). cbn [fst snd].
      split; [reflexivity|].
      destruct (fst (DocsClient.call client o (net p))); [reflexivity|].
      now rewrite Hret.
  - intros tool o Ho.
    destruct (inbox_tool_shape tool o Ho) as (k & Hk & Hret & Hconf).
    destruct (confirms tool) eqn:Hc.
    + destruct (Hconf eq_refl) as (message & Hm). exists message.
      intros p client Hi run. subst run.
      rewrite Hk, (inbox_handler_on o k p client Hi). cbn [fst snd].
      split; [reflexivity|].
      destruct (fst (InboxClient.call o _)); [reflexivity|].
      now rewrite Hm.
    + exists "". intros p client Hi run. subst run.
      rewrite Hk, (inbox_handler_on o k p client Hi). cbn [fst snd].
      split; [reflexivity|].
      destruct (fst (InboxClient.call o _)); [reflexivity|].
      now rewrite Hret.
Qed.

End Envelopes.

Section CallerView.
Context `{Platform}.
Import Server.

Lemma docs_result_parsed (r : Response) (w : World) (v : json) :
  ok r = true ->
  status r <> 204 ->
  content_length r <> Some "0" ->
  text r <> "" ->
  JSON_parse (text r) = inr v ->
  DocsClient.request_result r w = (inr v, w).
Proof.
  intros Hok Hs Hc Ht Hj. unfold DocsClient.request_result.
  rewrite Hok. cbn [negb].
  apply Z.eqb_neq in Hs. rewrite Hs. cbn [orb].
  assert (Hl : match content_length r with
               | Some l => (l =? "0")%string
               | None => false
               end = false).
  { destruct (content_length r) as [l|]; [|reflexivity].
    apply String.eqb_neq. congruence. }
  rewrite Hl. apply truthy_string_iff in Ht. rewrite Ht. cbn [negb].
  now rewrite Hj.
Qed.

Lemma inbox_result_parsed (r : Response) (s : InboxClient.State) (v : json) :
  ok r = true ->
  status r <> 204 ->
  content_length r <> Some "0" ->
  text r <> "" ->
  JSON_parse (text r) = inr v ->
  InboxClient.request_result r s = (inr v, s).
Proof.
  intros Hok Hs Hc Ht Hj. unfold InboxClient.request_result.
  rewrite Hok. cbn [negb].
  apply Z.eqb_neq in Hs. rewrite Hs. cbn [orb].
  assert (Hl : match content_length r with
               | Some l => (l =? "0")%string
               | None => false
               end = false).
  { destruct (content_length r) as [l|]; [|reflexivity].
    apply String.eqb_neq. congruence. }
  rewrite Hl. apply truthy_string_iff in Ht. rewrite Ht. cbn [negb].
  now rewrite Hj.
Qed.

(** The handler's answer, from the result of its operation. *)
Lemma docs_tool_answer (tool : Tool) (o : DocsClient.op) (p : Process)
    (client : DocsClient.t) :
  docs_tool_op tool = Some o ->
  docs p = Some client ->
  (forall e, fst (DocsClient.call client o (net p)) = inl e ->
             fst (handler tool p) = inr (errResult (inl e)))
  /\ (forall v, fst (DocsClient.call client o (net p)) = inr v ->
                confirms tool = false ->
                fst (handler tool p) = inr (textResult v))
  /\ net (snd (handler tool p)) = snd (DocsClient.call client o (net p)).
Proof.
  intros Ho Hd. destruct (docs_tool_shape tool o Ho) as (k & Hk & Hret & _).
  rewrite Hk, (docs_handler_on o k p client Hd). cbn [fst snd net].
  repeat split.
  - now intros e ->.
  - intros v -> Hc. now rewrite Hret.
Qed.

Lemma inbox_tool_answer (tool : Tool) (o : InboxClient.op) (p : Process)
    (client : InboxClient.t) :
  inbox_tool_op tool = Some o ->
  inbox p = Some client ->
  let run := InboxClient.call o (InboxClient.mkState client (net p)) in
  (forall e, fst run = inl e -> fst (handler tool p) = inr (errResult (inl e)))
  /\ (forall v, fst run = inr v -> confirms tool = false ->
                fst (handler tool p) = inr (textResult v))
  /\ net (snd (handler tool p)) = InboxClient.world (snd run)
  /\ inbox (snd (handler tool p)) = Some (InboxClient.this (snd run)).
Proof.
  intros Ho Hi. cbv zeta.
  destruct (inbox_tool_shape tool o Ho) as (k & Hk & Hret & _).
  rewrite Hk, (inbox_handler_on o k p client Hi). cbn [fst snd net inbox].
  repeat split.
  - now intros e ->.
  - intros v -> Hc. now rewrite Hret.
Qed.

(** X12.  What the caller of a tool sees when the call fails.  A non-2xx
    answer to a Docs tool gives the error envelope with the text
    [Error: Help Scout Docs API error <status>: <body>]; a non-2xx answer to
    the token exchange of an Inbox tool gives
    [Error: Help Scout OAuth error <status>: <body>]; a rejected fetch gives
    [Error: <reason>].  Each has [isError] set. *)
Theorem failed_call_reaches_the_caller_as_text :
  forall (r : Response) (reason : string) (rest : list outcome),
    ok r = false ->
    (forall (tool : Tool) (o : DocsClient.op) (p : Process)
            (client : DocsClient.t),
        docs_tool_op tool = Some o ->
        docs p = Some client ->
        (pending (net p) = Responds r :: rest ->
         fst (handler tool p)
         = inr (mkResult
                  [mkItem "text"
                     ("Error: Help Scout Docs API error "
                      ++ String_of_number (status r) ++ ": " ++ text r)]
                  (Some true)))
        /\ (pending (net p) = Rejects reason :: rest ->
            fst (handler tool p)
            = inr (mkResult [mkItem "text" ("Error: " ++ reason)] (Some true))))
    /\
    (forall (tool : Tool) (o : InboxClient.op) (p : Process)
            (client : InboxClient.t),
        inbox_tool_op tool = Some o ->
        inbox p = Some client ->
        fresh (InboxClient.mkState client (net p)) = false ->
        pending (net p) = Responds r :: rest ->
        fst (handler tool p)
        = inr (mkResult
                 [mkItem "text"
                    ("Error: Help Scout OAuth error "
                     ++ String_of_number (status r) ++ ": " ++ text r)]
                 (Some true))).
Proof.
  intros r reason rest Hok. split.
  - intros tool o p client Ho Hd.
    destruct (docs_tool_answer tool o p client Ho Hd) as (Herr & _).
    destruct (docs_call_request client o) as (m & q & b & qp & Hc).
    split; intros Hp.
    + rewrite (Herr (Error ("Help Scout Docs API error "
                            ++ String_of_number (status r) ++ ": " ++ text r)));
        [reflexivity|].
      rewrite Hc, (docs_request_responds _ _ _ _ _ _ _ _ Hp).
      now rewrite docs_result_refused.
    + rewrite (Herr (TypeError reason)); [reflexivity|].
      rewrite Hc. unfold DocsClient.request, bind, fetch. now rewrite Hp.
  - intros tool o p client Ho Hi Hf Hp.
    destruct (inbox_tool_answer tool o p client Ho Hi) as (Herr & _).
    rewrite (Herr (Error ("Help Scout OAuth error "
                          ++ String_of_number (status r) ++ ": " ++ text r)));
      [reflexivity|].
    destruct (inbox_call_request o) as (m & q & b & qp & ->).
    assert (Hg : InboxClient.getAccessToken (InboxClient.mkState client (net p))
                 = InboxClient.exchange_token
                     (after_check (InboxClient.mkState client (net p))))
      by now apply getAccessToken_stale.
    assert (Hp' : pending (InboxClient.world
                             (after_check (InboxClient.mkState client (net p))))
                  = Responds r :: rest)
      by now rewrite after_check_pending.
    rewrite (exchange_refused _ _ _ Hp' Hok) in Hg.
    now rewrite (inbox_request_no_token _ _ _ _ _ _ _ Hg).
Qed.

(** X13.  What the caller of a tool sees when the call succeeds.  For a tool
    that returns the server's answer, a 2xx response with a text that parses
    gives the text envelope of the parsed value, rendered by
    [JSON.stringify(v, null, 2)], with [isError] absent: for a Docs tool, and
    for an Inbox tool once its token is in hand. *)
Theorem parsed_response_is_the_payload :
  forall (r : Response) (rest : list outcome) (v : json),
    ok r = true ->
    status r <> 204 ->
    content_length r <> Some "0" ->
    text r <> "" ->
    JSON_parse (text r) = inr v ->
    (forall (tool : Tool) (o : DocsClient.op) (p : Process)
            (client : DocsClient.t),
        docs_tool_op tool = Some o ->
        confirms tool = false ->
        docs p = Some client ->
        pending (net p) = Responds r :: rest ->
        fst (handler tool p)
        = inr (mkResult [mkItem "text" (JSON_stringify_indent v)] None))
    /\
    (forall (tool : Tool) (o : InboxClient.op) (p : Process)
            (client : InboxClient.t) (s1 : InboxClient.State) (token : string),
        inbox_tool_op tool = Some o ->
        confirms tool = false ->
        inbox p = Some client ->
        InboxClient.getAccessToken (InboxClient.mkState client (net p))
        = (inr token, s1) ->
        pending (InboxClient.world s1) = Responds r :: rest ->
        fst (handler tool p)
        = inr (mkResult [mkItem "text" (JSON_stringify_indent v)] None)).
Proof.
  intros r rest v Hok Hs Hc Ht Hj. split.
  - intros tool o p client Ho Hconf Hd Hp.
    destruct (docs_tool_answer tool o p client Ho Hd) as (_ & Hval & _).
    rewrite (Hval v); [reflexivity| |exact Hconf].
    destruct (docs_call_request client o) as (m & q & b & qp & ->).
    rewrite (docs_request_responds _ _ _ _ _ _ _ _ Hp).
    now rewrite (docs_result_parsed r _ v).
  - intros tool o p client s1 token Ho Hconf Hi Hg Hp.
    destruct (inbox_tool_answer tool o p client Ho Hi) as (_ & Hval & _).
    rewrite (Hval v); [reflexivity| |exact Hconf].
    destruct (inbox_call_request o) as (m & q & b & qp & ->).
    rewrite (inbox_request_run _ _ _ _ _ _ _ Hg).
    rewrite (fetch_responds _ _ _ _ Hp).
    now rewrite (inbox_result_parsed r _ v).
Qed.

Lemma start_with_key (env : Env) (w : World) (k : string) :
  HELPSCOUT_API_KEY env = Some k -> k <> "" ->
  docs (start env w) = Some (DocsClient.new k).
Proof.
  intros Hk Hne. unfold start. cbn [docs]. rewrite Hk.
  apply truthy_string_iff in Hne. now rewrite Hne.
Qed.

Lemma docs_auth_header self m b u :
  In ("Authorization", DocsClient.getAuthHeader self)
     (headers (DocsClient.request_options self m b u))
  /\ In ("Accept", "application/json")
        (headers (DocsClient.request_options self m b u)).
Proof.
  unfold DocsClient.request_options. destruct b; [|cbn; auto].
  destruct (_ || _); cbn; auto.
Qed.

(** X14.  With the Docs key configured, at any point of the server's life,
    every [docs_*] tool issues exactly one request, and that request carries
    [Authorization: Basic base64(key:X)] and [Accept: application/json]. *)
Theorem configured_docs_tool_sends_the_key :
  forall (env : Env) (w : World) (history : list Tool) (tool : Tool)
         (o : DocsClient.op) (key : string),
    HELPSCOUT_API_KEY env = Some key ->
    key <> "" ->
    docs_tool_op tool = Some o ->
    let p := snd (serve history (start env w)) in
    exists r : Request,
      issued (net p) (net (snd (handler tool p))) = [r]
      /\ In ("Authorization", ("Basic " ++ base64 (key ++ ":X"))%string)
            (headers r)
      /\ In ("Accept", "application/json") (headers r).
Proof.
  intros env w history tool o key Hk Hne Ho p.
  assert (Hd : docs p = Some (DocsClient.new key)).
  { destruct (serve_returns history (start env w)) as (rs & p0 & Hs & Hd0 & _).
    subst p. rewrite Hs. cbn [snd]. rewrite Hd0. now apply start_with_key. }
  destruct (docs_tool_answer tool o p _ Ho Hd) as (_ & _ & Hnet).
  rewrite Hnet.
  destruct (docs_call_request (DocsClient.new key) o) as (m & q & b & qp & ->).
  rewrite docs_request_issued. eexists. split; [reflexivity|].
  exact (docs_auth_header (DocsClient.new key) m b (DocsClient.request_url q qp)).
Qed.

End CallerView.

(** X12, witness: a 404 answers [docs_get_site]. *)
Lemma failed_call_reaches_the_caller_as_text_witness :
  let r := mkResponse 404 None "Not found" in
  let p := Server.start (Server.mkEnv (Some "key") None None)
             (world_at 0 [Responds r]) in
  (ok r = false
   /\ docs_tool_op (Server.docs_get_site "5f1a")
      = Some (DocsClient.GetSite "5f1a")
   /\ Server.docs p = Some (DocsClient.new "key")
   /\ pending (Server.net p) = [Responds r])
  /\ fst (@Server.handler (stub 3600) (Server.docs_get_site "5f1a") p)
     = inr (Server.mkResult
              [Server.mkItem "text"
                 "Error: Help Scout Docs API error 404: Not found"]
              (Some true)).
Proof.
  intros r p.
  split; [repeat split; reflexivity|].
  exact (proj1 (proj1 (@failed_call_reaches_the_caller_as_text (stub 3600)
                         r "" [] eq_refl)
                  (Server.docs_get_site "5f1a") (DocsClient.GetSite "5f1a") p
                  (DocsClient.new "key") eq_refl eq_refl)
           eq_refl).
Defined.

(** X13, witness: a 200 with the text of the empty object answers
    [docs_get_site]. *)
Lemma parsed_response_is_the_payload_witness :
  let r := mkResponse 200 None "{}" in
  let p := Server.start (Server.mkEnv (Some "key") None None)
             (world_at 0 [Responds r]) in
  (ok r = true /\ status r <> 204 /\ content_length r <> Some "0"
   /\ text r <> "" /\ @JSON_parse (stub 3600) (text r) = inr (JObject [])
   /\ confirms (Server.docs_get_site "5f1a") = false
   /\ Server.docs p = Some (DocsClient.new "key"))
  /\ fst (@Server.handler (stub 3600) (Server.docs_get_site "5f1a") p)
     = inr (Server.mkResult [Server.mkItem "text" "{}"] None).
Proof.
  intros r p.
  assert (H1 : status r <> 204) by discriminate.
  assert (H2 : content_length r <> Some "0") by discriminate.
  assert (H3 : text r <> "") by discriminate.
  split; [repeat split; solve [reflexivity | assumption]|].
  exact (proj1 (@parsed_response_is_the_payload (stub 3600) r [] (JObject [])
                  eq_refl H1 H2 H3 eq_refl)
           (Server.docs_get_site "5f1a") (DocsClient.GetSite "5f1a") p
           (DocsClient.new "key") eq_refl eq_refl eq_refl eq_refl).
Defined.

(** X14, witness: the key [key], and [docs_list_sites] after one other
    invocation. *)
Lemma configured_docs_tool_sends_the_key_witness :
  let env := Server.mkEnv (Some "key") None None in
  let w := world_at 0 [respond 200 "{}"; respond 200 "{}"] in
  let history := [Server.inbox_get_me] in
  let p := snd (@Server.serve (stub 3600) history (Server.start env w)) in
  (Server.HELPSCOUT_API_KEY env = Some "key" /\ "key" <> "")
  /\ exists r : Request,
       issued (Server.net p)
         (Server.net (snd (@Server.handler (stub 3600)
                             (Server.docs_list_sites None) p)))
       = [r]
       /\ In ("Authorization",
              ("Basic " ++ @base64 (stub 3600) ("key" ++ ":X"))%string)
             (headers r)
       /\ In ("Accept", "application/json") (headers r).
Proof.
  intros env w history p.
  assert (Hne : "key" <> "") by discriminate.
  split; [split; [reflexivity|exact Hne]|].
  exact (@configured_docs_tool_sends_the_key (stub 3600) env w history
           (Server.docs_list_sites None) (DocsClient.ListSites None) "key"
           eq_refl Hne eq_refl).
Defined.

Section SharedToken.
Context `{Platform}.
Import InboxClient.

Lemma state_eta (s : State) : mkState (this s) (world s) = s.
Proof. now destruct s. Qed.

(** An operation on a fresh token: one request, no exchange, [this] kept. *)
Lemma inbox_call_reuse (s : State) (token : string) (o : op) :
  accessToken (this s) = Some token ->
  token <> "" ->
  clock (world s) (ticks (world s)) < tokenExpiry (this s) ->
  exists r : Request,
    log (world (snd (call o s))) = (log (world s) ++ [r])%list
    /\ is_token_exchange r = false
    /\ this (snd (call o s)) = this s.
Proof.
  intros Ht Hne Hnow.
  assert (Hf : fresh s = true).
  { unfold fresh. rewrite Ht. cbn [truthy_opt].
    apply andb_true_iff. split; [now apply truthy_string_iff|].
    now apply Z.ltb_lt. }
  destruct (inbox_call_path o) as (m & p & b & q & -> & Hp).
  pose proof (getAccessToken_fresh _ _ Ht Hf) as Hg.
  destruct (inbox_request_after_token m p b q _ _ _ Hg) as (Hl & Hthis & _).
  eexists. split; [|split].
  - rewrite Hl, after_check_log. reflexivity.
  - now apply api_request_is_no_exchange.
  - now rewrite Hthis, after_check_this.
Qed.

(** An operation that acquires its token: the exchange, then one request;
    the token is stored. *)
Lemma inbox_call_acquire (s : State) (o : op) (r : Response)
    (rest : list outcome) (data : TokenData) :
  fresh s = false ->
  pending (world s) = Responds r :: rest ->
  ok r = true ->
  response_json (text r) = inr data ->
  exists r1 : Request,
    log (world (snd (call o s)))
    = (log (world s) ++ [token_request (this s); r1])%list
    /\ is_token_exchange r1 = false
    /\ accessToken (this (snd (call o s))) = Some (access_token data).
Proof.
  intros Hf Hp Hok Hj.
  assert (Hg : getAccessToken s = exchange_token (after_check s))
    by now apply getAccessToken_stale.
  rewrite <- after_check_pending in Hp.
  rewrite (exchange_granted _ _ _ _ Hp Hok Hj) in Hg.
  destruct (inbox_call_path o) as (m & p & b & q & -> & Hpath).
  destruct (inbox_request_after_token m p b q _ _ _ Hg) as (Hl & Hthis & _).
  cbn [world this log] in Hl, Hthis.
  eexists. split; [|split].
  - rewrite Hl, after_check_log, after_check_this, <- app_assoc. reflexivity.
  - now apply api_request_is_no_exchange.
  - now rewrite Hthis.
Qed.

(** X15.  The token is shared by the tools.  When an [inbox_*] invocation
    acquires a token, the server's Inbox client holds it afterwards, and a
    second [inbox_*] invocation made before its expiry issues no further
    exchange: one token exchange for the two of them. *)
Theorem token_is_shared_by_the_tools :
  forall (p : Server.Process) (client : t) (tool1 tool2 : Server.Tool)
         (o1 o2 : op) (r : Response) (rest : list outcome) (data : TokenData),
    Server.inbox p = Some client ->
    inbox_tool_op tool1 = Some o1 ->
    inbox_tool_op tool2 = Some o2 ->
    fresh (mkState client (Server.net p)) = false ->
    pending (Server.net p) = Responds r :: rest ->
    ok r = true ->
    response_json (text r) = inr data ->
    access_token data <> "" ->
    let p1 := snd (Server.handler tool1 p) in
    let p2 := snd (Server.handler tool2 p1) in
    exists held : t,
      Server.inbox p1 = Some held
      /\ accessToken held = Some (access_token data)
      /\ (clock (Server.net p1) (ticks (Server.net p1)) < tokenExpiry held ->
          token_exchanges (issued (Server.net p) (Server.net p2)) = 1%nat).
Proof.
  intros p client tool1 tool2 o1 o2 r rest data Hi Ho1 Ho2 Hf Hp Hok Hj Hne
         p1 p2.
  destruct (inbox_tool_answer tool1 o1 p client Ho1 Hi) as (_ & _ & Hn1 & Hi1).
  fold p1 in Hn1, Hi1.
  set (s0 := mkState client (Server.net p)) in *.
  set (s1 := snd (call o1 s0)) in *.
  destruct (inbox_call_acquire s0 o1 r rest data Hf Hp Hok Hj)
    as (r1 & Hl1 & Hx1 & Ht1).
  fold s1 in Hl1, Ht1.
  exists (this s1). split; [exact Hi1|]. split; [exact Ht1|].
  intros Hnow. rewrite Hn1 in Hnow.
  destruct (inbox_tool_answer tool2 o2 p1 (this s1) Ho2 Hi1) as (_ & _ & Hn2 & _).
  fold p2 in Hn2. rewrite Hn1, state_eta in Hn2.
  destruct (inbox_call_reuse s1 _ o2 Ht1 Hne Hnow) as (r2 & Hl2 & Hx2 & _).
  unfold token_exchanges.
  rewrite (issued_app (Server.net p) (Server.net p2)
             [token_request client; r1; r2]).
  - cbn [filter]. now rewrite token_request_is_exchange, Hx1, Hx2.
  - rewrite Hn2, Hl2, Hl1, <- app_assoc. reflexivity.
Qed.

End SharedToken.

(** X15, witness: [inbox_get_me] and then [inbox_list_tags], within the hour
    the token lasts. *)
Lemma token_is_shared_by_the_tools_witness :
  let r := mkResponse 200 None "tok-1" in
  let p := Server.start (Server.mkEnv None (Some "app") (Some "secret"))
             (world_at 1000000
                [Responds r; respond 200 "{}"; respond 200 "{}"]) in
  let data := mkTokenData "tok-1" 3600 in
  let p1 := snd (@Server.handler (stub 3600) Server.inbox_get_me p) in
  let p2 := snd (@Server.handler (stub 3600) (Server.inbox_list_tags None) p1) in
  (Server.inbox p = Some (InboxClient.new "app" "secret")
   /\ fresh (InboxClient.mkState (InboxClient.new "app" "secret") (Server.net p))
      = false
   /\ ok r = true
   /\ @response_json (stub 3600) (text r) = inr data
   /\ access_token data <> "")
  /\ token_exchanges (issued (Server.net p) (Server.net p2)) = 1%nat.
Proof.
  intros r p data p1 p2.
  assert (Hne : access_token data <> "") by discriminate.
  split; [repeat split; solve [reflexivity | exact Hne]|].
  destruct (@token_is_shared_by_the_tools (stub 3600) p
              (InboxClient.new "app" "secret")
              Server.inbox_get_me (Server.inbox_list_tags None)
              InboxClient.GetResourceOwner (InboxClient.ListTags None)
              r [respond 200 "{}"; respond 200 "{}"] data
              eq_refl eq_refl eq_refl eq_refl eq_refl eq_refl eq_refl Hne)
    as (held & Hheld & _ & Hone).
  apply Hone. injection Hheld as <-. vm_compute. reflexivity.
Defined.

(* ================================================================== *)
(** ** Start-up, addresses, and the Docs client's lack of state         *)
(* ================================================================== *)

Section StartUp.
Context `{Platform}.
Import Server.

(** X16.  [main] writes its warning exactly when neither client could be
    built: at most one line, which says that no credentials are configured,
    and none at all as soon as the Docs key, or the OAuth app id together
    with its secret, is set to a non-empty string. *)
Theorem warning_iff_nothing_configured :
  forall (env : Env) (w : World),
    (main (start env w) = []
     <-> configured (HELPSCOUT_API_KEY env) = true
         \/ configured (HELPSCOUT_APP_ID env)
            && configured (HELPSCOUT_APP_SECRET env) = true)
    /\ (length (main (start env w)) <= 1)%nat
    /\ forall line : string,
         In line (main (start env w)) ->
         includes line "No Help Scout credentials configured" = true.
Proof.
  intros [key id secret] w. unfold main, start, configured.
  cbn [docs inbox HELPSCOUT_API_KEY HELPSCOUT_APP_ID HELPSCOUT_APP_SECRET].
  destruct key as [k|], id as [i|], secret as [x|]; cbn [truthy_opt];
    try destruct (truthy_string k); try destruct (truthy_string i);
    try destruct (truthy_string x); cbn [andb app length Nat.eqb];
    (split; [split; [intros E; first [discriminate E | auto]
                    |intros [E|E]; first [discriminate E | reflexivity]]|]);
    (split; [cbn; lia|]);
    intros line Hin;
    first [ destruct Hin as [<-|[]]; vm_compute; reflexivity | destruct Hin ].
Qed.

End StartUp.

Section DocsAddresses.
Context `{Platform}.
Import DocsClient.

Lemma docs_request_targets self m p b q (w : World) :
  targets w (snd (request self m p b q w))
  = [(m, address (new_URL (BASE_URL ++ p)), searchParams (request_url p q))].
Proof.
  unfold targets. rewrite docs_request_issued. cbn [map].
  rewrite docs_options_method, docs_options_url.
  unfold address. now rewrite docs_url_href.
Qed.

(** A read or delete at [pre ++ X], and a write at the same path followed
    by [?reload=true], for a plain [X]. *)
Lemma docs_plain_target self m (pre X : string) b q (w : World) :
  plain X = true -> occurs "?" pre = false -> occurs "#" pre = false ->
  q = None \/ q = Some [] ->
  targets w (snd (request self m (pre ++ X) b q w))
  = [(m, (BASE_URL ++ pre ++ X)%string, [])].
Proof.
  intros HX Hq Hf Hnone. rewrite docs_request_targets.
  assert (HqX : occurs "?" X = false) by now apply plain_occurs.
  assert (HfX : occurs "#" X = false) by now apply plain_occurs.
  rewrite address_new_URL by (rewrite !occurs_app, ?Hq, ?Hf, ?HqX, ?HfX; reflexivity).
  assert (Hp : searchParams (request_url (pre ++ X) q) = []).
  { destruct Hnone as [-> | ->]; unfold request_url; cbn [fold_left];
      apply new_URL_no_query; rewrite !occurs_app, Hq, HqX; reflexivity. }
  now rewrite Hp.
Qed.

Lemma docs_plain_reload_target self m (pre X : string) b (w : World) :
  plain X = true -> occurs "?" pre = false -> occurs "#" pre = false ->
  targets w (snd (request self m (pre ++ X ++ "?reload=true") b None w))
  = [(m, (BASE_URL ++ pre ++ X)%string, [("reload", "true")])].
Proof.
  intros HX Hq Hf. rewrite docs_request_targets.
  assert (HqX : occurs "?" X = false) by now apply plain_occurs.
  assert (HfX : occurs "#" X = false) by now apply plain_occurs.
  unfold request_url. rewrite <- !append_assoc.
  destruct (new_URL_reload_exact ((BASE_URL ++ pre) ++ X)) as [Ha Hp];
    [rewrite !occurs_app, Hq, HqX; reflexivity
    |rewrite !occurs_app, Hf, HfX; reflexivity|].
  now rewrite Ha, Hp.
Qed.

(** X17.  Reading, updating and deleting address the same resource.  For a
    site, a collection, a category, an article and a redirect alike, with an
    identifier made of letters, digits, [-] and [_], the read and the delete
    go to one address without a query and the update to the same address
    with the query [reload=true]; saving and deleting a draft share one
    address too. *)
Theorem operations_agree_on_the_address :
  forall (self : t) (X : string) (data : object json) (text : string)
         (w : World),
    plain X = true ->
    same_resource w (getSite self X) (updateSite self X data)
      (deleteSite self X)
    /\ same_resource w (getCollection self X) (updateCollection self X data)
         (deleteCollection self X)
    /\ same_resource w (getCategory self X) (updateCategory self X data)
         (deleteCategory self X)
    /\ same_resource w (getArticle self X None) (updateArticle self X data)
         (deleteArticle self X)
    /\ same_resource w (getRedirect self X) (updateRedirect self X data)
         (deleteRedirect self X)
    /\ (exists place : string,
          targets w (snd (saveArticleDraft self X text w))
          = [("PUT", place, [])]
          /\ targets w (snd (deleteArticleDraft self X w))
             = [("DELETE", place, [])]).
Proof.
  intros self X data text w HX. unfold same_resource.
  split; [|split; [|split; [|split; [|split]]]].
  1-5: eexists; repeat apply conj; docs_method;
    first [ solve [apply docs_plain_target; auto]
          | solve [apply docs_plain_reload_target; auto] ].
  assert (HqX : occurs "?" X = false) by now apply plain_occurs.
  assert (HfX : occurs "#" X = false) by now apply plain_occurs.
  exists (BASE_URL ++ "/articles/" ++ X ++ "/drafts")%string.
  split; docs_method; rewrite docs_request_targets;
    (rewrite address_new_URL
       by (rewrite !occurs_app, ?HqX, ?HfX; reflexivity));
    unfold request_url;
    (rewrite new_URL_no_query by (rewrite !occurs_app, HqX; reflexivity));
    reflexivity.
Qed.

Lemma docs_result_fst (r : Response) (w w' : World) :
  fst (request_result r w) = fst (request_result r w').
Proof.
  unfold request_result.
  destruct (negb (ok r)); [reflexivity|].
  destruct (_ || _); [reflexivity|].
  destruct (negb _); [reflexivity|].
  destruct (JSON_parse _); reflexivity.
Qed.

Lemma docs_request_world self m p b q (w : World) :
  snd (request self m p b q w)
  = mkWorld (clock w) (ticks w) (tl (pending w))
      (log w ++ [request_options self m b (request_url p q)]).
Proof.
  unfold request, bind, fetch.
  destruct (pending w) as [|[r|reason] rest]; try reflexivity.
  cbn [tl]. apply docs_result_state.
Qed.

(** X18.  The Docs client keeps nothing between calls.  The request an
    operation issues does not depend on the world it runs in, its result
    depends on the outcome of that one fetch alone, and it consumes exactly
    that outcome and never reads the clock. *)
Theorem docs_client_keeps_no_state :
  forall (self : t) (o : op) (w1 w2 : World),
    issued w1 (snd (call self o w1)) = issued w2 (snd (call self o w2))
    /\ (hd_error (pending w1) = hd_error (pending w2) ->
        fst (call self o w1) = fst (call self o w2))
    /\ ticks (snd (call self o w1)) = ticks w1
    /\ pending (snd (call self o w1)) = tl (pending w1).
Proof.
  intros self o w1 w2.
  destruct (docs_call_request self o) as (m & p & b & q & ->).
  split; [now rewrite !docs_request_issued|].
  split; [|now rewrite docs_request_world].
  intros Hhd.
  destruct (pending w1) as [|[r1|x1] l1] eqn:Hp1,
           (pending w2) as [|[r2|x2] l2] eqn:Hp2;
    cbn [hd_error] in Hhd; try discriminate Hhd.
  - unfold request, bind, fetch. now rewrite Hp1, Hp2.
  - injection Hhd as <-.
    rewrite (docs_request_responds _ _ _ _ _ _ _ _ Hp1).
    rewrite (docs_request_responds _ _ _ _ _ _ _ _ Hp2).
    apply docs_result_fst.
  - injection Hhd as <-. unfold request, bind, fetch. now rewrite Hp1, Hp2.
Qed.

End DocsAddresses.

(** X17, witness: the site [5f1a] is read, updated and deleted at one
    address. *)
Lemma operations_agree_on_the_address_witness :
  let w := world_at 0 [respond 200 "{}"] in
  let self := DocsClient.new "key" in
  plain "5f1a" = true
  /\ same_resource w
       (@DocsClient.getSite (stub 3600) self "5f1a")
       (@DocsClient.updateSite (stub 3600) self "5f1a" [])
       (@DocsClient.deleteSite (stub 3600) self "5f1a").
Proof.
  intros w self. split; [reflexivity|].
  exact (proj1 (@operations_agree_on_the_address (stub 3600) self "5f1a" []
                  "" w eq_refl)).
Defined.

Section Credentials.
Context `{Platform}.
Import Server.

(** Over an operation the client fields stay, or a token and its expiry are
    stored beside the same app id and secret. *)
Lemma inbox_call_this (o : InboxClient.op) (s : InboxClient.State) :
  InboxClient.this (snd (InboxClient.call o s)) = InboxClient.this s
  \/ exists (token : string) (expiry : Z),
       InboxClient.this (snd (InboxClient.call o s))
       = InboxClient.mk (InboxClient.appId (InboxClient.this s))
           (InboxClient.appSecret (InboxClient.this s)) (Some token) expiry.
Proof.
  destruct (inbox_call_request o) as (m & p & b & q & ->).
  assert (Hthis : InboxClient.this (snd (InboxClient.request m p b q s))
                  = InboxClient.this (snd (InboxClient.getAccessToken s))).
  { destruct (InboxClient.getAccessToken s) as [[e|token] s1] eqn:Hg.
    - now rewrite (inbox_request_no_token _ _ _ _ _ _ _ Hg).
    - now destruct (inbox_request_after_token m p b q _ _ _ Hg) as (_ & Ht & _). }
  rewrite Hthis.
  destruct (getAccessToken_cases s)
    as (_ & [(_ & _ & Hs1 & _)|(_ & _ & [(e & _ & Hs1)|(t & x & _ & Hs1)])]);
    rewrite Hs1; [now left|now left|right; now exists t, x].
Qed.

Lemma tool_has_an_operation (tool : Tool) :
  (exists o, docs_tool_op tool = Some o)
  \/ (exists o, inbox_tool_op tool = Some o).
Proof. destruct tool; first [left; eexists; reflexivity | right; eexists; reflexivity]. Qed.

(** What a handler leaves of the two clients. *)
Lemma handler_keeps_credentials (tool : Tool) (p : Process) :
  docs (snd (handler tool p)) = docs p
  /\ match inbox p with
     | None => inbox (snd (handler tool p)) = None
     | Some c =>
         exists c' : InboxClient.t,
           inbox (snd (handler tool p)) = Some c'
           /\ InboxClient.appId c' = InboxClient.appId c
           /\ InboxClient.appSecret c' = InboxClient.appSecret c
     end.
Proof.
  destruct (handler_returns tool p) as (res & p' & Hrun & Hd & Hnone).
  rewrite Hrun. cbn [snd]. split; [exact Hd|].
  destruct (inbox p) as [c|] eqn:Hi; [|now apply Hnone].
  destruct (tool_has_an_operation tool) as [(o & Ho)|(o & Ho)].
  - destruct (docs_tool_shape tool o Ho) as (k & Hk & _).
    rewrite Hk in Hrun.
    destruct (docs_handler_run
                (fun d => bind (DocsClient.call d o) (fun v => ret (k v))) p)
      as (res' & p'' & Hrun' & _ & Hi' & _).
    rewrite Hrun' in Hrun. injection Hrun as _ <-.
    exists c. now rewrite Hi', Hi.
  - destruct (inbox_tool_answer tool o p c Ho Hi) as (_ & _ & _ & Hi').
    rewrite Hrun in Hi'. cbn [snd] in Hi'. eexists. split; [exact Hi'|].
    destruct (inbox_call_this o (InboxClient.mkState c (net p)))
      as [-> | (t & x & ->)]; now split.
Qed.

(** X19.  The credentials outlive every invocation.  After any history the
    Docs client is the one built at the start, and the Inbox client, when
    one was built, is still there with the app id and secret it was built
    with; a client that could not be built is never created later. *)
Theorem credentials_outlive_the_history :
  forall (env : Env) (w : World) (history : list Tool),
    let p0 := start env w in
    let p := snd (serve history p0) in
    docs p = docs p0
    /\ match inbox p0 with
       | None => inbox p = None
       | Some c =>
           exists c' : InboxClient.t,
             inbox p = Some c'
             /\ InboxClient.appId c' = InboxClient.appId c
             /\ InboxClient.appSecret c' = InboxClient.appSecret c
       end.
Proof.
  intros env w history. cbv zeta. generalize (start env w) as p0.
  induction history as [|tool history IH]; intros p0.
  - cbn [serve]. unfold ret. cbn [snd]. split; [reflexivity|].
    destruct (inbox p0) as [c|]; [|reflexivity]. now exists c.
  - destruct (handler_returns tool p0) as (res & p1 & Hrun & _).
    pose proof (handler_keeps_credentials tool p0) as (Hd1 & Hi1).
    rewrite Hrun in Hd1, Hi1. cbn [snd] in Hd1, Hi1.
    destruct (serve_returns history p1) as (rs & p2 & Hs & _).
    assert (Hsnd : snd (serve (tool :: history) p0) = p2).
    { cbn [serve]. unfold bind. now rewrite Hrun, Hs. }
    rewrite Hsnd.
    specialize (IH p1). rewrite Hs in IH. cbn [snd] in IH.
    destruct IH as (Hd2 & Hi2). split; [congruence|].
    destruct (inbox p0) as [c|].
    + destruct Hi1 as (c1 & Hc1 & Ha1 & Hs1). rewrite Hc1 in Hi2.
      destruct Hi2 as (c2 & Hc2 & Ha2 & Hs2).
      exists c2. repeat split; congruence.
    + now rewrite Hi1 in Hi2.
Qed.

End Credentials.
